(** * Signaling server: rate limiter and signaling core

    A shallow embedding of [src/rate-limiter.ts] and of the class
    [SignalingCore] of [src/signaling-core.ts], with the properties of the
    connection registry, the session broker, the message router and the
    rate limiter stated over it.

    Conventions of the embedding.
    - JavaScript numbers are integers here ([Z]): millisecond clocks,
      counters and close codes.  All values that occur stay far below 2^53,
      where doubles are exact.  The one exception is [Math.pow(2, n)],
      which is [Infinity] from [n = 1024] on: [Math.min] caps it at one
      hour when it is multiplied by a positive base duration, as the
      integer power is capped, but with a base duration of zero or less
      the source gets [NaN] or [-Infinity].  Properties that state the
      length of a block therefore assume [1 <= baseBlockDurationMs] and
      violation counts that are not negative.
    - [String.prototype.toUpperCase] is modelled on ASCII strings, where it
      changes the letters a-z only.  On other characters the source may
      change the character or the length of the string; properties that
      depend on which key a [remoteId] is looked up under assume an id of
      ASCII characters ([asciiOnly]).
    - [Date.now()] is an explicit argument [now] of the operations that read
      the clock.
    - A JavaScript [Map] is a [gmap].  Where the source iterates over a map
      (the disconnect cascade) the model visits the entries in the order of
      [map_to_list] instead of insertion order; only the order of the
      notifications sent depends on it.
    - A [ServerData] object is mutated in place and is captured by the
      fallback timer's closure, so these objects live in a store ([heap])
      and the [servers] map holds references into it.
    - The callbacks [send], [close] and [log] are recorded as a list of
      effects returned by each handler.
    - [setTimeout]/[clearTimeout] are a table of armed one-shot timers; a
      timer that is armed may fire as a later event, and the length of the
      delay is not represented. *)

From Stdlib Require Import ZArith Lia.
From stdpp Require Import gmap strings list fin_maps pretty.

(** ** Rate limiter ([src/rate-limiter.ts]) *)

Module RateLimiter.

Local Open Scope Z_scope.

(** Entry of [requests]: IP -> { count, windowStart, blocked, blockExpires,
    violations }. *)
Record RequestRecord := mkRequestRecord {
  count : Z;
  windowStart : Z;
  blocked : bool;
  blockExpires : Z;
  violations : Z
}.

(** Entry of [failedLookups]: IP -> { count, windowStart }. *)
Record FailedLookupRecord := mkFailedLookupRecord {
  failedCount : Z;
  failedWindowStart : Z
}.

(** The readonly configuration fields set by the constructor. *)
Record Options := mkOptions {
  windowMs : Z;
  maxRequests : Z;
  maxFailedLookups : Z;
  failedLookupWindowMs : Z;
  baseBlockDurationMs : Z
}.

(** [options?.x ?? default] with no options given. *)
Definition defaultOptions : Options :=
  {| windowMs := 60000;
     maxRequests := 100;
     maxFailedLookups := 10;
     failedLookupWindowMs := 60000;
     baseBlockDurationMs := 60000 |}.

Record t := mkRateLimiter {
  options : Options;
  requests : gmap string RequestRecord;
  failedLookups : gmap string FailedLookupRecord
}.

(** [new RateLimiter(options)] *)
Definition create (o : Options) : t :=
  {| options := o; requests := ∅; failedLookups := ∅ |}.

(** Result of [checkRequest]: { allowed, retryAfter? }. *)
Record CheckResult := mkCheckResult {
  allowed : bool;
  retryAfter : option Z
}.

(** [Math.ceil(x / 1000)] on an integer [x]. *)
Definition ceilSeconds (x : Z) : Z := - ((- x) / 1000).

(** [Math.pow(2, n)]; the source only calls it with [n >= 0] (violation
    counts are never negative, see [violationsNonneg] below), where it is
    the integer power up to [n = 1023] and [Infinity] beyond.  Under
    [Math.min(base * Math.pow(2, n), 3600000)] with [1 <= base] the two
    agree for every [n >= 0]: both give 3600000 once the power is large. *)
Definition pow2 (n : Z) : Z := 2 ^ n.

(** The one-hour ceiling, the literal 3600000 of the source. *)
Definition maxBlockMs : Z := 3600000.

(** Field updates (the source assigns to fields of the record object). *)
Definition setCount (c : Z) (r : RequestRecord) : RequestRecord :=
  mkRequestRecord c (windowStart r) (blocked r) (blockExpires r) (violations r).
Definition setWindowStart (w : Z) (r : RequestRecord) : RequestRecord :=
  mkRequestRecord (count r) w (blocked r) (blockExpires r) (violations r).
Definition setBlocked (b : bool) (r : RequestRecord) : RequestRecord :=
  mkRequestRecord (count r) (windowStart r) b (blockExpires r) (violations r).
Definition setBlockExpires (e : Z) (r : RequestRecord) : RequestRecord :=
  mkRequestRecord (count r) (windowStart r) (blocked r) e (violations r).
Definition setViolations (v : Z) (r : RequestRecord) : RequestRecord :=
  mkRequestRecord (count r) (windowStart r) (blocked r) (blockExpires r) v.

(** The object literal
    [{ count: 0, windowStart: now, blocked: false, blockExpires: 0,
       violations: 0 }]. *)
Definition freshRecord (now : Z) : RequestRecord :=
  mkRequestRecord 0 now false 0 0.

(** Lines 62-70 of [checkRequest]: reset the window if expired, with the
    decay of the violation count. *)
Definition resetWindow (o : Options) (now : Z) (r : RequestRecord)
  : RequestRecord :=
  if now - windowStart r >? windowMs o then
    let r1 := setWindowStart now (setCount 0 r) in
    if violations r1 >? 0
    then setViolations (Z.max 0 (violations r1 - 1)) r1
    else r1
  else r.

(** Lines 78-81: [Math.min(base * Math.pow(2, violations - 1), 3600000)]. *)
Definition requestBlockDuration (o : Options) (v : Z) : Z :=
  Z.min (baseBlockDurationMs o * pow2 (v - 1)) maxBlockMs.

(** Lines 52-54: [record.blocked = false; record.count = 0;
    record.windowStart = now]. *)
Definition reopened (now : Z) (r : RequestRecord) : RequestRecord :=
  setWindowStart now (setCount 0 (setBlocked false r)).

(** Lines 57-86 of [checkRequest], once the record to work on is known
    (an existing one, possibly just unblocked, or a fresh one). *)
Definition countRequest (now : Z) (ip : string) (r : RequestRecord) (rl : t)
  : t * CheckResult :=
  let o := options rl in
  let r1 := resetWindow o now r in
  let r2 := setCount (count r1 + 1) r1 in
  if count r2 >? maxRequests o then
    let r3 := setBlocked true (setViolations (violations r2 + 1) r2) in
    let blockDuration := requestBlockDuration o (violations r3) in
    let r4 := setBlockExpires (now + blockDuration) r3 in
    (mkRateLimiter o (<[ip := r4]> (requests rl)) (failedLookups rl),
     mkCheckResult false (Some (ceilSeconds blockDuration)))
  else
    (mkRateLimiter o (<[ip := r2]> (requests rl)) (failedLookups rl),
     mkCheckResult true None).

(** [checkRequest(ip)] *)
Definition checkRequest (now : Z) (ip : string) (rl : t) : t * CheckResult :=
  match requests rl !! ip with
  | Some record =>
      if blocked record then
        if now <? blockExpires record then
          (rl, mkCheckResult false
                 (Some (ceilSeconds (blockExpires record - now))))
        else
          (* Block expired, reset but keep violation count *)
          countRequest now ip (reopened now record) rl
      else countRequest now ip record rl
  | None => countRequest now ip (freshRecord now) rl
  end.

(** Lines 121-124 of [recordFailedLookup]:
    [Math.min(base * Math.pow(2, requestRecord.violations), 3600000)]. *)
Definition lookupBlockDuration (o : Options) (v : Z) : Z :=
  Z.min (baseBlockDurationMs o * pow2 v) maxBlockMs.

(** Lines 95-108 of [recordFailedLookup]: the failed-lookup record of the
    address once this lookup is counted. *)
Definition countedLookup (now : Z) (ip : string) (rl : t)
  : FailedLookupRecord :=
  let record :=
    match failedLookups rl !! ip with
    | Some r => r
    | None => mkFailedLookupRecord 0 now
    end in
  (* Reset window if expired *)
  let record1 :=
    if now - failedWindowStart record >? failedLookupWindowMs (options rl)
    then mkFailedLookupRecord 0 now
    else record in
  mkFailedLookupRecord (failedCount record1 + 1) (failedWindowStart record1).

(** [recordFailedLookup(ip)] *)
Definition recordFailedLookup (now : Z) (ip : string) (rl : t) : t * bool :=
  let o := options rl in
  let record2 := countedLookup now ip rl in
  if failedCount record2 >=? maxFailedLookups o then
    let requestRecord :=
      match requests rl !! ip with
      | Some r => r
      | None => freshRecord now
      end in
    let rr1 := setViolations (violations requestRecord + 2) requestRecord in
    let rr2 := setBlocked true rr1 in
    let blockDuration := lookupBlockDuration o (violations rr2) in
    let rr3 := setBlockExpires (now + blockDuration) rr2 in
    (mkRateLimiter o (<[ip := rr3]> (requests rl))
       (<[ip := mkFailedLookupRecord 0 now]> (failedLookups rl)),
     true)
  else
    (mkRateLimiter o (requests rl) (<[ip := record2]> (failedLookups rl)),
     false).

(** [cleanup()] *)
Definition cleanup (now : Z) (rl : t) : t :=
  let o := options rl in
  let maxAge := Z.max (windowMs o) (failedLookupWindowMs o) * 10 in
  mkRateLimiter o
    (filter (λ kv : string * RequestRecord,
               ¬ (blocked kv.2 = false ∧ now - windowStart kv.2 > maxAge
                  ∧ violations kv.2 = 0))
            (requests rl))
    (filter (λ kv : string * FailedLookupRecord,
               ¬ (now - failedWindowStart kv.2 > maxAge))
            (failedLookups rl)).

(** [getStats()] *)
Record Stats := mkStats {
  trackedIps : nat;
  blockedIps : nat;
  failedLookupTracked : nat
}.

Definition getStats (now : Z) (rl : t) : Stats :=
  {| trackedIps := size (requests rl);
     blockedIps :=
       size (filter (λ kv : string * RequestRecord,
                       blocked kv.2 = true ∧ now < blockExpires kv.2)
                    (requests rl));
     failedLookupTracked := size (failedLookups rl) |}.

End RateLimiter.

(** ** Signaling core ([src/signaling-core.ts]) *)

Module SignalingCore.

(** A connection handle [WS]: an opaque token, used only as a map key and
    compared for identity. *)
Abbreviation WS := nat (only parsing).

(** Reference to a [ServerData] object in the store. *)
Abbreviation Ref := nat (only parsing).

(** Handle returned by [setTimeout]. *)
Abbreviation TimerId := nat (only parsing).

Record IceServerConfig := mkIceServerConfig {
  urls : list string;
  username : option string;
  credential : option string
}.

(** [SignalingMessage]; an absent optional field is [None].  The payload
    [data] is opaque and kept as its text. *)
Record SignalingMessage := mkMessage {
  type : string;
  remoteId : option string;
  sessionId : option string;
  data : option string;
  error : option string;
  iceServers : option (list IceServerConfig)
}.

(** [ServerData<WS>] *)
Record ServerData := mkServerData {
  serverWs : WS;
  serverIceServers : option (list IceServerConfig)
}.

(** [ClientData<WS>] *)
Record ClientData := mkClientData {
  clientWs : WS;
  clientRemoteId : string
}.

(** [PendingClient<WS>] *)
Record PendingClient := mkPendingClient {
  pendingWs : WS;
  pendingRemoteId : string;
  timeout : option TimerId
}.

(** [ConnectionMetadata]: { type: 'server' | 'client'; id } *)
Inductive ConnectionType := server | client.

Record ConnectionMetadata := mkMetadata {
  metaType : ConnectionType;
  metaId : string
}.

Global Instance ConnectionType_eq_dec : EqDecision ConnectionType.
Proof. solve_decision. Defined.

(** What the callback scheduled by [setTimeout] in [handleConnectRequest]
    closes over: the constants [sessionId] and [remoteId] and the object
    [serverData] (by reference). *)
Record TimerClosure := mkTimerClosure {
  closureSessionId : string;
  closureRemoteId : string;
  closureServerData : Ref
}.

(** Calls of the callbacks [sendFn] (with the message before
    [JSON.stringify]), [closeFn] and [logFn]. *)
Inductive Effect :=
| Send (ws : WS) (message : SignalingMessage)
| Close (ws : WS) (code : Z) (reason : string)
| Log (text : string).

(** The fields of [SignalingCore], the object store and the timer table. *)
Record Core := mkCore {
  heap : gmap Ref ServerData;
  servers : gmap string Ref;
  clients : gmap string ClientData;
  pendingClients : gmap string PendingClient;
  wsMetadata : gmap WS ConnectionMetadata;
  wsClientIp : gmap WS string;
  rateLimiter : RateLimiter.t;
  timers : gmap TimerId TimerClosure;
  nextTimer : TimerId
}.

(** [new SignalingCore({ ..., rateLimiter })] *)
Definition create (rl : RateLimiter.t) : Core :=
  mkCore ∅ ∅ ∅ ∅ ∅ ∅ rl ∅ 1.

Definition setHeap (h : gmap Ref ServerData) (st : Core) : Core :=
  mkCore h (servers st) (clients st) (pendingClients st) (wsMetadata st)
    (wsClientIp st) (rateLimiter st) (timers st) (nextTimer st).
Definition setServers (s : gmap string Ref) (st : Core) : Core :=
  mkCore (heap st) s (clients st) (pendingClients st) (wsMetadata st)
    (wsClientIp st) (rateLimiter st) (timers st) (nextTimer st).
Definition setClients (c : gmap string ClientData) (st : Core) : Core :=
  mkCore (heap st) (servers st) c (pendingClients st) (wsMetadata st)
    (wsClientIp st) (rateLimiter st) (timers st) (nextTimer st).
Definition setPendingClients (p : gmap string PendingClient) (st : Core)
  : Core :=
  mkCore (heap st) (servers st) (clients st) p (wsMetadata st)
    (wsClientIp st) (rateLimiter st) (timers st) (nextTimer st).
Definition setWsMetadata (m : gmap WS ConnectionMetadata) (st : Core) : Core :=
  mkCore (heap st) (servers st) (clients st) (pendingClients st) m
    (wsClientIp st) (rateLimiter st) (timers st) (nextTimer st).
Definition setWsClientIp (m : gmap WS string) (st : Core) : Core :=
  mkCore (heap st) (servers st) (clients st) (pendingClients st)
    (wsMetadata st) m (rateLimiter st) (timers st) (nextTimer st).
Definition setRateLimiter (rl : RateLimiter.t) (st : Core) : Core :=
  mkCore (heap st) (servers st) (clients st) (pendingClients st)
    (wsMetadata st) (wsClientIp st) rl (timers st) (nextTimer st).
Definition setTimers (t : gmap TimerId TimerClosure) (st : Core) : Core :=
  mkCore (heap st) (servers st) (clients st) (pendingClients st)
    (wsMetadata st) (wsClientIp st) (rateLimiter st) t (nextTimer st).
Definition setNextTimer (n : TimerId) (st : Core) : Core :=
  mkCore (heap st) (servers st) (clients st) (pendingClients st)
    (wsMetadata st) (wsClientIp st) (rateLimiter st) (timers st) n.

(** [new] of a [ServerData] object literal: a reference not yet in the
    store. *)
Definition allocServerData (sd : ServerData) (st : Core) : Ref * Core :=
  let r := fresh (dom (heap st)) in
  (r, setHeap (<[r := sd]> (heap st)) st).

(** [this.servers.get(remoteId)], dereferenced. *)
Definition getServer (rid : string) (st : Core) : option (Ref * ServerData) :=
  match servers st !! rid with
  | Some r =>
      match heap st !! r with
      | Some sd => Some (r, sd)
      | None => None
      end
  | None => None
  end.

(** [setTimeout(callback, delay)]: arms a one-shot timer. *)
Definition FRESH_ICE_TIMEOUT : Z := 10000.

Definition setTimeout (c : TimerClosure) (delay : Z) (st : Core)
  : TimerId * Core :=
  let t := nextTimer st in
  (t, setNextTimer (S t) (setTimers (<[t := c]> (timers st)) st)).

(** [if (pending.timeout) clearTimeout(pending.timeout)] *)
Definition clearTimeout (t : option TimerId) (st : Core) : Core :=
  match t with
  | Some i => setTimers (delete i (timers st)) st
  | None => st
  end.

(** [String.prototype.toUpperCase] on strings of ASCII characters: the
    letters a-z are replaced, every other character is kept.  (On other
    characters the source's function differs, e.g. it replaces the sharp s
    by SS; bytes above 127 are left as they are here.) *)
Definition upperAscii (c : Ascii.ascii) : Ascii.ascii :=
  let n := Ascii.nat_of_ascii c in
  if (97 <=? n)%nat && (n <=? 122)%nat
  then Ascii.ascii_of_nat (n - 32)
  else c.

Fixpoint toUpperCase (s : string) : string :=
  match s with
  | EmptyString => EmptyString
  | String c s' => String (upperAscii c) (toUpperCase s')
  end.

(** [chars.charAt(i)]: the empty string when out of range. *)
Definition charAt (i : nat) (s : string) : string :=
  match String.get i s with
  | Some c => String c EmptyString
  | None => EmptyString
  end.

Definition chars : string :=
  "ABCDEFGHIJKLMNOPQRSTUVWXYZabcdefghijklmnopqrstuvwxyz0123456789".

(** The loop of [generateSessionId]: [n] further iterations from index [i].
    [rnd i] is the value of [Math.floor(Math.random() * chars.length)] at
    iteration [i]. *)
Fixpoint generateLoop (rnd : nat → nat) (i n : nat) (result : string)
  : string :=
  match n with
  | O => result
  | S n' => generateLoop rnd (S i) n' (result +:+ charAt (rnd i) chars)
  end.

Definition generateSessionId (rnd : nat → nat) : string :=
  generateLoop rnd 0 16 "".

(** Messages built by the handlers. *)
Definition errorMessage (e : string) : SignalingMessage :=
  mkMessage "error" None None None (Some e) None.

(** [sendError(ws, error)] *)
Definition sendError (ws : WS) (e : string) : Effect :=
  Send ws (errorMessage e).

Definition registeredMessage (rid : string) : SignalingMessage :=
  mkMessage "registered" (Some rid) None None None None.

Definition connectedMessage (rid sid : string)
    (ice : option (list IceServerConfig)) : SignalingMessage :=
  mkMessage "connected" (Some rid) (Some sid) None None ice.

Definition clientConnectedMessage (sid : string) : SignalingMessage :=
  mkMessage "client-connected" None (Some sid) None None None.

Definition clientDisconnectedMessage (sid : string) : SignalingMessage :=
  mkMessage "client-disconnected" None (Some sid) None None None.

Definition peerDisconnectedMessage : SignalingMessage :=
  mkMessage "peer-disconnected" None None None None None.

Definition pongMessage : SignalingMessage :=
  mkMessage "pong" None None None None None.

(** [{ ...message, sessionId }] *)
Definition withSessionId (sid : string) (m : SignalingMessage)
  : SignalingMessage :=
  mkMessage (type m) (remoteId m) (Some sid) (data m) (error m) (iceServers m).

(** [message.remoteId?.toUpperCase()] followed by [if (!remoteId)]: absent
    and empty are both rejected. *)
Definition normalizedRemoteId (m : SignalingMessage) : option string :=
  match remoteId m with
  | Some r => if decide (toUpperCase r = "") then None else Some (toUpperCase r)
  | None => None
  end.

(** [setClientIp(ws, ip)] *)
Definition setClientIp (ws : WS) (ip : string) (st : Core) : Core :=
  setWsClientIp (<[ws := ip]> (wsClientIp st)) st.

(** The text of [`Rate limited. Try again in ${result.retryAfter} seconds.`] *)
Definition rateLimitedText (r : option Z) : string :=
  "Rate limited. Try again in " +:+
  match r with Some n => pretty n | None => "undefined" end +:+
  " seconds.".

(** [checkRateLimit(ws)]: false if blocked. *)
Definition checkRateLimit (now : Z) (ws : WS) (st : Core)
  : Core * list Effect * bool :=
  match wsClientIp st !! ws with
  | Some ip =>
      if decide (ip = "") then (st, [], true)
      else
        let '(rl, result) := RateLimiter.checkRequest now ip (rateLimiter st) in
        let st1 := setRateLimiter rl st in
        if RateLimiter.allowed result then (st1, [], true)
        else (st1,
              [Send ws (errorMessage
                          (rateLimitedText (RateLimiter.retryAfter result)))],
              false)
  | None => (st, [], true)
  end.

(** [existingMetadata && existingMetadata.type === 'server' &&
    existingMetadata.id === remoteId] *)
Definition alreadyRegistered (ws : WS) (rid : string) (st : Core) : bool :=
  match wsMetadata st !! ws with
  | Some existingMetadata =>
      bool_decide (metaType existingMetadata = server)
      && bool_decide (metaId existingMetadata = rid)
  | None => false
  end.

(** [handleServerRegister(ws, message)] *)
Definition handleServerRegister (ws : WS) (message : SignalingMessage)
    (st : Core) : Core * list Effect :=
  match normalizedRemoteId message with
  | None => (st, [sendError ws "Remote ID required"])
  | Some rid =>
      (* Check if this WebSocket is already registered *)
      if alreadyRegistered ws rid st then
        let st1 :=
          match getServer rid st, iceServers message with
          | Some (r, existingServer), Some ice =>
              setHeap (<[r := mkServerData (serverWs existingServer)
                                          (Some ice)]> (heap st)) st
          | _, _ => st
          end in
        (st1, [Send ws (registeredMessage rid)])
      else
        (* Check if Remote ID is already registered with a DIFFERENT
           WebSocket *)
        let '(st1, evicted) :=
          match getServer rid st with
          | Some (_, existingServer) =>
              if decide (serverWs existingServer ≠ ws) then
                (setWsMetadata
                   (delete (serverWs existingServer) (wsMetadata st))
                   (setServers (delete rid (servers st)) st),
                 [Close (serverWs existingServer) 4000
                    "Replaced by new connection"])
              else (st, [])
          | None => (st, [])
          end in
        (* Register the new server connection with ICE servers *)
        let '(r, st2) :=
          allocServerData (mkServerData ws (iceServers message)) st1 in
        let st3 := setServers (<[rid := r]> (servers st2)) st2 in
        let st4 :=
          setWsMetadata (<[ws := mkMetadata server rid]> (wsMetadata st3))
            st3 in
        (st4,
         evicted ++ [Log ("✓ Server registered: " +:+ rid);
                     Send ws (registeredMessage rid)])
  end.

(** The callback given to [setTimeout] in [handleConnectRequest]. *)
Definition fallbackTimeout (c : TimerClosure) (st : Core)
  : Core * list Effect :=
  let sid := closureSessionId c in
  let rid := closureRemoteId c in
  match pendingClients st !! sid with
  | Some pending =>
      let st1 := setPendingClients (delete sid (pendingClients st)) st in
      let st2 :=
        setClients (<[sid := mkClientData (pendingWs pending) rid]>
                      (clients st1)) st1 in
      (* Send connected with cached ICE servers as fallback *)
      let ice :=
        match heap st !! closureServerData c with
        | Some serverData => serverIceServers serverData
        | None => None
        end in
      (st2, [Send (pendingWs pending) (connectedMessage rid sid ice)])
  | None => (st, [])
  end.

(** A timer firing: the timer is one-shot, its callback runs. *)
Definition fireTimer (t : TimerId) (st : Core) : Core * list Effect :=
  match timers st !! t with
  | Some c => fallbackTimeout c (setTimers (delete t (timers st)) st)
  | None => (st, [])
  end.

(** [handleConnectRequest(ws, message)]; [now] is the clock read by
    [recordFailedLookup] and [rnd] the random draws of
    [generateSessionId]. *)
Definition handleConnectRequest (now : Z) (rnd : nat → nat) (ws : WS)
    (message : SignalingMessage) (st : Core) : Core * list Effect :=
  match normalizedRemoteId message with
  | None => (st, [sendError ws "Remote ID required"])
  | Some rid =>
      match getServer rid st with
      | None =>
          (* Track failed lookup for brute force detection *)
          let notFound :=
            sendError ws
              "Server not found. Make sure your Music Assistant server is running and has Remote Access enabled." in
          match wsClientIp st !! ws with
          | Some ip =>
              if decide (ip = "") then (st, [notFound])
              else
                let '(rl, isBlocked) :=
                  RateLimiter.recordFailedLookup now ip (rateLimiter st) in
                let st1 := setRateLimiter rl st in
                if isBlocked then
                  (st1,
                   [Log ("⚠ Blocked IP " +:+ ip +:+ " for brute force attempts");
                    sendError ws
                      "Too many failed attempts. You have been temporarily blocked.";
                    Close ws 4008 "Blocked for brute force"])
                else (st1, [notFound])
          | None => (st, [notFound])
          end
      | Some (r, serverData) =>
          let sid := generateSessionId rnd in
          let '(timeoutId, st1) :=
            setTimeout (mkTimerClosure sid rid r) FRESH_ICE_TIMEOUT st in
          let st2 :=
            setPendingClients
              (<[sid := mkPendingClient ws rid (Some timeoutId)]>
                 (pendingClients st1)) st1 in
          let st3 :=
            setWsMetadata (<[ws := mkMetadata client sid]> (wsMetadata st2))
              st2 in
          (* Request fresh ICE servers from the server *)
          (st3, [Send (serverWs serverData) (clientConnectedMessage sid)])
      end
  end.

(** [message.sessionId] followed by [if (!sessionId)]. *)
Definition presentSessionId (m : SignalingMessage) : option string :=
  match sessionId m with
  | Some s => if decide (s = "") then None else Some s
  | None => None
  end.

(** [handleSessionReady(ws, message)] *)
Definition handleSessionReady (ws : WS) (message : SignalingMessage)
    (st : Core) : Core * list Effect :=
  match presentSessionId message with
  | None => (st, [sendError ws "Session ID required"])
  | Some sid =>
      match pendingClients st !! sid with
      | None => (st, [])
      | Some pending =>
          (* Get the remote ID from server metadata *)
          match wsMetadata st !! ws with
          | Some (mkMetadata server rid) =>
              (* Clear the timeout *)
              let st1 := clearTimeout (timeout pending) st in
              (* Move from pending to active clients *)
              let st2 :=
                setPendingClients (delete sid (pendingClients st1)) st1 in
              let st3 :=
                setClients (<[sid := mkClientData (pendingWs pending) rid]>
                              (clients st2)) st2 in
              (st3,
               [Send (pendingWs pending)
                  (connectedMessage rid sid (iceServers message))])
          | _ => (st, [sendError ws "Not a registered server"])
          end
      end
  end.

(** [forwardSignalingMessage(ws, message)] *)
Definition forwardSignalingMessage (ws : WS) (message : SignalingMessage)
    (st : Core) : list Effect :=
  match wsMetadata st !! ws with
  | None => [sendError ws "Not registered"]
  | Some (mkMetadata client sid) =>
      (* Client -> Server *)
      match clients st !! sid with
      | None => [sendError ws "Session not found"]
      | Some clientData =>
          match getServer (clientRemoteId clientData) st with
          | None => [sendError ws "Server disconnected"]
          | Some (_, serverData) =>
              [Send (serverWs serverData) (withSessionId sid message)]
          end
      end
  | Some (mkMetadata server _) =>
      (* Server -> Client *)
      match presentSessionId message with
      | None => [sendError ws "Session ID required"]
      | Some sid =>
          match clients st !! sid with
          | None => [sendError ws "Client not found"]
          | Some clientData => [Send (clientWs clientData) message]
          end
      end
  end.

(** The two loops of the server branch of [handleDisconnect]. *)
Definition boundToClient (rid : string) (kv : string * ClientData) : Prop :=
  clientRemoteId kv.2 = rid.

Definition boundToPending (rid : string) (kv : string * PendingClient)
  : Prop :=
  pendingRemoteId kv.2 = rid.

Global Instance boundToClient_dec rid kv : Decision (boundToClient rid kv).
Proof. unfold boundToClient. apply _. Defined.

Global Instance boundToPending_dec rid kv : Decision (boundToPending rid kv).
Proof. unfold boundToPending. apply _. Defined.

(** Notify connected clients: every entry of [clients] with this
    [remoteId] is sent [peer-disconnected] and deleted. *)
Definition notifyClients (rid : string) (st : Core) : Core * list Effect :=
  let gone := filter (boundToClient rid) (clients st) in
  (setClients (filter (λ kv, ¬ boundToClient rid kv) (clients st)) st,
   (λ kv : string * ClientData, Send (clientWs kv.2) peerDisconnectedMessage)
     <$> map_to_list gone).

(** Clean up pending clients: every entry of [pendingClients] with this
    [remoteId] has its timer cleared, is sent an error and is deleted. *)
Definition cleanPending (rid : string) (st : Core) : Core * list Effect :=
  let gone := map_to_list (filter (boundToPending rid) (pendingClients st)) in
  let st1 :=
    foldr (λ (kv : string * PendingClient) s, clearTimeout (timeout kv.2) s)
      st gone in
  (setPendingClients
     (filter (λ kv, ¬ boundToPending rid kv) (pendingClients st1)) st1,
   (λ kv : string * PendingClient,
      Send (pendingWs kv.2) (errorMessage "Server disconnected")) <$> gone).

(** [handleDisconnect(ws)] *)
Definition handleDisconnect (ws : WS) (st : Core) : Core * list Effect :=
  match wsMetadata st !! ws with
  | None => (st, [])
  | Some (mkMetadata server rid) =>
      let '(st', effects) :=
        match getServer rid st with
        | Some (_, serverData) =>
            (* Only delete if this WebSocket is still the registered one *)
            if decide (serverWs serverData = ws) then
              let st1 := setServers (delete rid (servers st)) st in
              let st2 := setWsMetadata (delete ws (wsMetadata st1)) st1 in
              let '(st3, sent1) := notifyClients rid st2 in
              let '(st4, sent2) := cleanPending rid st3 in
              (st4,
               Log ("✗ Server disconnected: " +:+ rid) :: sent1 ++ sent2)
            else (setWsMetadata (delete ws (wsMetadata st)) st, [])
        | None => (setWsMetadata (delete ws (wsMetadata st)) st, [])
        end in
      (* Clean up IP mapping *)
      (setWsClientIp (delete ws (wsClientIp st')) st', effects)
  | Some (mkMetadata client sid) =>
      (* Check if in pending *)
      let st1 :=
        match pendingClients st !! sid with
        | Some pending =>
            let s := clearTimeout (timeout pending) st in
            setPendingClients (delete sid (pendingClients s)) s
        | None => st
        end in
      (* Check if in active clients *)
      let '(st2, effects) :=
        match clients st1 !! sid with
        | Some clientData =>
            (setClients (delete sid (clients st1)) st1,
             match getServer (clientRemoteId clientData) st1 with
             | Some (_, serverData) =>
                 [Send (serverWs serverData) (clientDisconnectedMessage sid)]
             | None => []
             end)
        | None => (st1, [])
        end in
      let st3 := setWsMetadata (delete ws (wsMetadata st2)) st2 in
      (setWsClientIp (delete ws (wsClientIp st3)) st3, effects)
  end.

(** The [switch] of [handleMessage]. *)
Definition dispatch (now : Z) (rnd : nat → nat) (ws : WS)
    (message : SignalingMessage) (st : Core) : Core * list Effect :=
  if decide (type message = "ping") then (st, [Send ws pongMessage])
  else if decide (type message = "pong") then (st, [])
  else if decide (type message = "register-server")
  then handleServerRegister ws message st
  else if decide (type message = "connect-request")
  then handleConnectRequest now rnd ws message st
  else if decide (type message = "session-ready")
  then handleSessionReady ws message st
  else if decide (type message = "offer" ∨ type message = "answer"
                  ∨ type message = "ice-candidate")
  then (st, forwardSignalingMessage ws message st)
  else (st, [Log ("Unknown message type: " +:+ type message);
             sendError ws ("Unknown message type: " +:+ type message)]).

(** [handleMessage(ws, message)]; [now] is the clock read by the rate
    check, [now'] the one read later by the handler. *)
Definition handleMessage (now now' : Z) (rnd : nat → nat) (ws : WS)
    (message : SignalingMessage) (st : Core) : Core * list Effect :=
  (* Rate limit check for non-ping/pong messages *)
  if decide (type message ≠ "ping" ∧ type message ≠ "pong") then
    let '(st1, sent, ok) := checkRateLimit now ws st in
    if ok then
      let '(st2, effects) := dispatch now' rnd ws message st1 in
      (st2, sent ++ effects)
    else (st1, sent)
  else dispatch now' rnd ws message st.

(** The periodic callback installed by the constructor. *)
Definition cleanupTick (now : Z) (st : Core) : Core :=
  setRateLimiter (RateLimiter.cleanup now (rateLimiter st)) st.

(** [isOnline(remoteId)] *)
Definition isOnline (rid : string) (st : Core) : bool :=
  bool_decide (is_Some (servers st !! toUpperCase rid)).

(** [getStats()] *)
Record Stats := mkStats {
  statServers : nat;
  statClients : nat;
  statPendingClients : nat;
  statRateLimiter : RateLimiter.Stats
}.

Definition getStats (now : Z) (st : Core) : Stats :=
  {| statServers := size (servers st);
     statClients := size (clients st);
     statPendingClients := size (pendingClients st);
     statRateLimiter := RateLimiter.getStats now (rateLimiter st) |}.

(** The events the transport adapter and the runtime deliver to the core,
    each run to completion. *)
Inductive Event :=
| Connected (ws : WS) (ip : string)
| Message (now now' : Z) (rnd : nat → nat) (ws : WS)
    (message : SignalingMessage)
| Disconnected (ws : WS)
| TimerFired (t : TimerId)
| CleanupTick (now : Z).

Definition step (e : Event) (st : Core) : Core * list Effect :=
  match e with
  | Connected ws ip => (setClientIp ws ip st, [])
  | Message now now' rnd ws message => handleMessage now now' rnd ws message st
  | Disconnected ws => handleDisconnect ws st
  | TimerFired t => fireTimer t st
  | CleanupTick now => (cleanupTick now st, [])
  end.

(** Running a list of events from a state, collecting the effects. *)
Fixpoint run (es : list Event) (st : Core) : Core * list Effect :=
  match es with
  | [] => (st, [])
  | e :: es' =>
      let '(st1, out1) := step e st in
      let '(st2, out2) := run es' st1 in
      (st2, out1 ++ out2)
  end.

End SignalingCore.

(** ** The Durable Object around the core ([SignalingRoom], in the worker
    source that follows the core) *)

Module SignalingRoom.

(** What [fetch] reads of a request: the path of its URL and two headers. *)
Record Request := mkRequest {
  pathname : string;
  clientIpHeader : option string;
  upgradeHeader : option string
}.

(** The responses of [fetch]. *)
Inductive Response :=
| StatsResponse (stats : SignalingCore.Stats)
| RateLimitedResponse (retryAfter : option Z)
| BlockedResponse
| OnlineResponse (online : bool)
| ExpectedWebSocket
| SwitchingProtocols.

(** The [status] each response is built with. *)
Definition status (r : Response) : Z :=
  match r with
  | StatsResponse _ => 200
  | RateLimitedResponse _ => 429
  | BlockedResponse => 429
  | OnlineResponse _ => 200
  | ExpectedWebSocket => 426
  | SwitchingProtocols => 101
  end.

(** [request.headers.get('X-Client-IP') || 'unknown'] *)
Definition clientIpOf (request : Request) : string :=
  match clientIpHeader request with
  | Some ip => if decide (ip = "") then "unknown" else ip
  | None => "unknown"
  end.

(** The character [/]. *)
Definition slash : Ascii.ascii := Ascii.ascii_of_nat 47.

(** [s.split('/').pop()]: the text after the last slash. *)
Fixpoint lastSegmentFrom (acc s : string) : string :=
  match s with
  | EmptyString => acc
  | String c s' =>
      if Ascii.eqb c slash then lastSegmentFrom "" s'
      else lastSegmentFrom (acc +:+ String c EmptyString) s'
  end.

Definition lastSegment (s : string) : string := lastSegmentFrom "" s.

(** [handleWebSocket(ws, clientIp)], as far as the core is concerned:
    the address of the accepted socket is registered. *)
Definition handleWebSocket (ws : SignalingCore.WS) (clientIp : string)
    (st : SignalingCore.Core) : SignalingCore.Core :=
  SignalingCore.setClientIp ws clientIp st.

(** [fetch(request)]: the new state of the core (its rate limiter is the
    room's), the response and the lines written with [console.log].
    [now] is the clock read by [checkRequest] and [getStats], [now'] the
    one read by [recordFailedLookup]; [server] is the server end of the
    [WebSocketPair] made for an upgrade. *)
Definition fetch (now now' : Z) (server : SignalingCore.WS)
    (request : Request) (st : SignalingCore.Core)
  : SignalingCore.Core * Response * list string :=
  let clientIp := clientIpOf request in
  (* Handle stats request (no rate limiting for stats) *)
  if decide (pathname request = "/stats") then
    (st, StatsResponse (SignalingCore.getStats now st), [])
  (* Handle check request with rate limiting *)
  else if String.prefix "/check/" (pathname request) then
    let '(rl, rateCheck) :=
      RateLimiter.checkRequest now clientIp (SignalingCore.rateLimiter st) in
    let st1 := SignalingCore.setRateLimiter rl st in
    if negb (RateLimiter.allowed rateCheck) then
      (st1, RateLimitedResponse (RateLimiter.retryAfter rateCheck), [])
    else
      let remoteId := lastSegment (pathname request) in
      let isOnline := SignalingCore.isOnline remoteId st1 in
      (* Track failed lookups for brute force detection *)
      if negb isOnline && negb (bool_decide (clientIp = "unknown")) then
        let '(rl2, isBlocked) :=
          RateLimiter.recordFailedLookup now' clientIp
            (SignalingCore.rateLimiter st1) in
        let st2 := SignalingCore.setRateLimiter rl2 st1 in
        if isBlocked then
          (st2, BlockedResponse,
           ["⚠ Blocked IP " +:+ clientIp
            +:+ " for brute force on /check endpoint"])
        else (st2, OnlineResponse isOnline, [])
      else (st1, OnlineResponse isOnline, [])
  (* Handle WebSocket upgrade *)
  else if negb (bool_decide (upgradeHeader request = Some "websocket")) then
    (st, ExpectedWebSocket, [])
  else
    (* Rate limit check before accepting WebSocket connection *)
    let '(rl, rateCheck) :=
      RateLimiter.checkRequest now clientIp (SignalingCore.rateLimiter st) in
    let st1 := SignalingCore.setRateLimiter rl st in
    if negb (RateLimiter.allowed rateCheck) then
      (st1, RateLimitedResponse (RateLimiter.retryAfter rateCheck), [])
    else (handleWebSocket server clientIp st1, SwitchingProtocols, []).

End SignalingRoom.

(** ** Vocabulary of the statements *)

Section RateLimiterVocabulary.
Import RateLimiter.
Local Open Scope Z_scope.

(** Replacing the record of one address. *)
Definition withRecord (ip : string) (r : RequestRecord) (rl : t) : t :=
  mkRateLimiter (options rl) (<[ip := r]> (requests rl)) (failedLookups rl).

(** Successive calls of [checkRequest] for one address, at the given clock
    readings. *)
Fixpoint checkRequests (ip : string) (times : list Z) (rl : t)
  : t * list CheckResult :=
  match times with
  | [] => (rl, [])
  | now :: rest =>
      let '(rl1, res) := checkRequest now ip rl in
      let '(rl2, ress) := checkRequests ip rest rl1 in
      (rl2, res :: ress)
  end.

Definition allowedResult : CheckResult := mkCheckResult true None.

Definition deniedResult (blockDuration : Z) : CheckResult :=
  mkCheckResult false (Some (ceilSeconds blockDuration)).

(** The record left by a violation at [now] on a record [r] of the current
    window. *)
Definition violated (o : Options) (now : Z) (r : RequestRecord)
  : RequestRecord :=
  mkRequestRecord (count r + 1) (windowStart r) true
    (now + requestBlockDuration o (violations r + 1)) (violations r + 1).

(** A limiter that allows two requests per minute, and the same limiter
    with one address blocked after its first violation. *)
Definition smallOptions : Options := mkOptions 60000 2 10 60000 60000.

Definition blockedOnce : t :=
  withRecord "203.0.113.7" (mkRequestRecord 3 0 true 60020 1)
    (create smallOptions).

(** The same address later: unblocked, its window long over. *)
Definition idleAfterBlock : t :=
  withRecord "203.0.113.7" (mkRequestRecord 1 60020 false 60020 1)
    (create smallOptions).

(** No record has a negative violation count. *)
Definition violationsNonneg (rl : t) : Prop :=
  ∀ ip r, requests rl !! ip = Some r → 0 <= violations r.

(** Nine failed lookups already counted for one address, under the default
    options. *)
Definition nineFailures : t :=
  mkRateLimiter defaultOptions ∅
    {["203.0.113.7" := mkFailedLookupRecord 9 0]}.

(** [this.requests.get(ip) || { count: 0, windowStart: now, ... }] *)
Definition requestRecordOf (now : Z) (ip : string) (rl : t) : RequestRecord :=
  default (freshRecord now) (requests rl !! ip).

(** Replacing the failed-lookup record of one address. *)
Definition withFailedLookup (ip : string) (f : FailedLookupRecord) (rl : t)
  : t :=
  mkRateLimiter (options rl) (requests rl) (<[ip := f]> (failedLookups rl)).

(** Successive calls of [recordFailedLookup] for one address. *)
Fixpoint recordFailedLookups (ip : string) (times : list Z) (rl : t)
  : t * list bool :=
  match times with
  | [] => (rl, [])
  | now :: rest =>
      let '(rl1, res) := recordFailedLookup now ip rl in
      let '(rl2, ress) := recordFailedLookups ip rest rl1 in
      (rl2, res :: ress)
  end.

(** The calls a user of the class can make, and their effect on the
    limiter. *)
Inductive Call :=
| CheckRequest (now : Z) (ip : string)
| RecordFailedLookup (now : Z) (ip : string)
| Cleanup (now : Z).

Definition call (c : Call) (rl : t) : t :=
  match c with
  | CheckRequest now ip => (checkRequest now ip rl).1
  | RecordFailedLookup now ip => (recordFailedLookup now ip rl).1
  | Cleanup now => cleanup now rl
  end.

Definition calls (cs : list Call) (rl : t) : t := foldl (λ s c, call c s) rl cs.

(** [Math.max(this.windowMs, this.failedLookupWindowMs) * 10] *)
Definition maxAge (o : Options) : Z :=
  Z.max (windowMs o) (failedLookupWindowMs o) * 10.

(** One address with a record in each map, long idle. *)
Definition idleLimiter : t :=
  mkRateLimiter defaultOptions
    {["203.0.113.7" := mkRequestRecord 5 0 false 0 0]}
    {["203.0.113.7" := mkFailedLookupRecord 3 0]}.

(** One address that was blocked once and then left alone. *)
Definition decaying : t :=
  withRecord "203.0.113.7" (mkRequestRecord 3 0 false 60020 2)
    (create smallOptions).

End RateLimiterVocabulary.

Section SignalingCoreVocabulary.
Import SignalingCore.

(** Messages a peer can send. *)
Definition registerServer (rid : string)
    (ice : option (list IceServerConfig)) : SignalingMessage :=
  mkMessage "register-server" (Some rid) None None None ice.

Definition connectRequest (rid : string) : SignalingMessage :=
  mkMessage "connect-request" (Some rid) None None None None.

Definition sessionReady (sid : string)
    (ice : option (list IceServerConfig)) : SignalingMessage :=
  mkMessage "session-ready" None (Some sid) None None ice.

Definition offer (payload : string) : SignalingMessage :=
  mkMessage "offer" None None (Some payload) None None.

Definition stun (url : string) : IceServerConfig :=
  mkIceServerConfig [url] None None.

(** Every draw of [Math.random] gives index 0: the session id is sixteen
    times the letter A. *)
Definition zeroDraws : nat → nat := λ _, 0%nat.

(** The core of the reference deployment, freshly constructed. *)
Definition initial : Core :=
  create (RateLimiter.create RateLimiter.defaultOptions).

(** State reached, and callbacks called, by a run of the fresh core. *)
Definition stateAfter (es : list Event) : Core := (run es initial).1.

Definition effectsOf (es : list Event) : list Effect := (run es initial).2.

(** Server 1 registers AAA, server 2 registers BBB, client 3 asks for AAA. *)
Definition twoServersOneClient : list Event :=
  [ Connected 1 "198.51.100.1";
    Message 0 0 zeroDraws 1 (registerServer "AAA" None);
    Connected 2 "198.51.100.2";
    Message 10 10 zeroDraws 2 (registerServer "BBB" None);
    Connected 3 "203.0.113.7";
    Message 20 20 zeroDraws 3 (connectRequest "aaa") ].

(** The state after a promotion of [sid] by a server registered as [rid]. *)
Definition promoted (sid rid : string) (pending : PendingClient) (st : Core)
  : Core :=
  let st1 := clearTimeout (timeout pending) st in
  let st2 := setPendingClients (delete sid (pendingClients st1)) st1 in
  setClients (<[sid := mkClientData (pendingWs pending) rid]> (clients st2))
    st2.

(** Server 2, registered as BBB, answers for the session that client 3 has
    pending toward AAA. *)
Definition hijack : list Event :=
  twoServersOneClient ++
  [ Message 30 30 zeroDraws 2 (sessionReady "AAAAAAAAAAAAAAAA" None) ].

(** The state after a connect request that found its server. *)
Definition requested (sid rid : string) (ws : WS) (r : Ref) (st : Core)
  : Core :=
  let t := nextTimer st in
  let st1 :=
    setNextTimer (S t)
      (setTimers (<[t := mkTimerClosure sid rid r]> (timers st)) st) in
  let st2 :=
    setPendingClients
      (<[sid := mkPendingClient ws rid (Some t)]> (pendingClients st1)) st1 in
  setWsMetadata (<[ws := mkMetadata client sid]> (wsMetadata st2)) st2.

(** What the fallback callback reads from the captured object. *)
Definition capturedIceServers (c : TimerClosure) (st : Core)
  : option (list IceServerConfig) :=
  match heap st !! closureServerData c with
  | Some serverData => serverIceServers serverData
  | None => None
  end.

(** The state after connection [ws] took over, or newly took, the id. *)
Definition installed (rid : string) (ws : WS)
    (ice : option (list IceServerConfig)) (st : Core) : Core :=
  let r := fresh (dom (heap st)) in
  let st2 := setHeap (<[r := mkServerData ws ice]> (heap st)) st in
  let st3 := setServers (<[rid := r]> (servers st2)) st2 in
  setWsMetadata (<[ws := mkMetadata server rid]> (wsMetadata st3)) st3.

Definition evicted (rid : string) (old : WS) (st : Core) : Core :=
  setWsMetadata (delete old (wsMetadata st))
    (setServers (delete rid (servers st)) st).

(** Server 1 registers AAA with two ICE servers; client 3 asks for it. *)
Definition cachedIce : list IceServerConfig :=
  [stun "stun:one.example"; stun "stun:two.example"].

Definition refreshedIce : list IceServerConfig := [stun "stun:new.example"].

Definition serverOnline : list Event :=
  [ Connected 1 "198.51.100.1";
    Message 0 0 zeroDraws 1 (registerServer "AAA" (Some cachedIce)) ].

Definition clientWaiting : list Event :=
  serverOnline ++
  [ Connected 3 "203.0.113.7";
    Message 20 20 zeroDraws 3 (connectRequest "aaa") ].

(** Client 3 is connected to AAA through server 1; then connection 2
    registers AAA and the evicted connection 1 closes. *)
Definition sessionActive : list Event :=
  clientWaiting ++
  [ Message 30 30 zeroDraws 1 (sessionReady "AAAAAAAAAAAAAAAA" None) ].

Definition serverReplaced : list Event :=
  sessionActive ++
  [ Connected 2 "198.51.100.2";
    Message 40 40 zeroDraws 2 (registerServer "AAA" None);
    Disconnected 1 ].

(** How one event may change the two session maps. *)
Inductive SessionChange (st st' : Core) : option string → Prop :=
| Shrunk :
    pendingClients st' ⊆ pendingClients st →
    clients st' ⊆ clients st →
    SessionChange st st' None
| Promoted sid session :
    is_Some (pendingClients st !! sid) →
    pendingClients st' = delete sid (pendingClients st) →
    clients st' = <[sid := session]> (clients st) →
    SessionChange st st' None
| Requested sid pending :
    pendingClients st' = <[sid := pending]> (pendingClients st) →
    clients st' = clients st →
    SessionChange st st' (Some sid).

(** No session id is a key of both maps. *)
Definition sessionIdsDisjoint (st : Core) : Prop :=
  dom (pendingClients st) ## dom (clients st).

(** The session id an event draws, if it is a connect request. *)
Definition drawnId (e : Event) : option string :=
  match e with
  | Message _ _ rnd _ message =>
      if decide (type message = "connect-request")
      then Some (generateSessionId rnd) else None
  | _ => None
  end.

(** The drawn id is a key of neither map. *)
Definition drawsFreshId (e : Event) (st : Core) : Prop :=
  match drawnId e with
  | Some sid => pendingClients st !! sid = None ∧ clients st !! sid = None
  | None => True
  end.

(** Every connect request of the trace draws an id that is fresh in the
    state it is handled in. *)
Fixpoint drawsFreshIds (es : list Event) (st : Core) : Prop :=
  match es with
  | [] => True
  | e :: es' => drawsFreshId e st ∧ drawsFreshIds es' (step e st).1
  end.

(** Client 4 asks for AAA while the session of client 3 is active, and the
    same sixteen characters are drawn again. *)
Definition sameIdDrawn : list Event :=
  sessionActive ++
  [ Connected 4 "203.0.113.8";
    Message 50 50 zeroDraws 4 (connectRequest "AAA") ].

(** Every connection whose identity is (server, rid) is the one on record
    for [rid] in [servers]. *)
Definition registryConsistent (st : Core) : Prop :=
  ∀ ws rid, wsMetadata st !! ws = Some (mkMetadata server rid) →
    ∃ r sd, getServer rid st = Some (r, sd) ∧ serverWs sd = ws.

(** The registry part of the state is the same. *)
Definition sameRegistry (st st' : Core) : Prop :=
  heap st' = heap st ∧ servers st' = servers st
  ∧ wsMetadata st' = wsMetadata st.

(** Every pending record holds the handle of an armed timer whose callback
    is for that session id, and timer handles are below the next one. *)
Definition timersArmed (st : Core) : Prop :=
  (∀ sid p, pendingClients st !! sid = Some p →
     ∃ t c, timeout p = Some t ∧ timers st !! t = Some c
            ∧ closureSessionId c = sid)
  ∧ (∀ t c, timers st !! t = Some c → t < nextTimer st).

(** The timer part of the state is the same. *)
Definition sameTimers (st st' : Core) : Prop :=
  pendingClients st' = pendingClients st ∧ timers st' = timers st
  ∧ nextTimer st' = nextTimer st.

(** The characters of a string. *)
Fixpoint charactersOf (s : string) : list Ascii.ascii :=
  match s with
  | EmptyString => []
  | String c s' => c :: charactersOf s'
  end.

(** The strings on which [toUpperCase] is that of the source: every
    character is below 128. *)
Definition asciiOnly (s : string) : bool :=
  forallb (λ c, Ascii.nat_of_ascii c <? 128)%nat (charactersOf s).

(** Server 1, registered as AAA, registers BBB as well: its identity is
    now (server, BBB), and it is still the connection on record for AAA. *)
Definition secondIdTaken : list Event :=
  serverOnline ++ [ Message 5 5 zeroDraws 1 (registerServer "BBB" None) ].

(** Some draws in range. *)
Definition someDraws : nat → nat := λ i, ((i * 7 + 3) `mod` 62)%nat.

(** The limiter of the reference deployment with nine failed lookups
    already counted for the address of client 3. *)
Definition nearThreshold : Core :=
  setRateLimiter nineFailures
    (stateAfter (serverOnline ++ [Connected 3 "203.0.113.7"])).

(** Draws that give a session id of sixteen times the letter B. *)
Definition oneDraws : nat → nat := λ _, 1%nat.

(** Client 3 asks for AAA a second time on the same connection. *)
Definition askedTwice : list Event :=
  clientWaiting ++ [ Message 25 25 oneDraws 3 (connectRequest "AAA") ].

End SignalingCoreVocabulary.

Section SignalingRoomVocabulary.
Import SignalingCore SignalingRoom.

(** A lookup of an id through the HTTP endpoint, from a given address. *)
Definition checkOf (id : string) (ip : option string) : Request :=
  mkRequest ("/check/" +:+ id) ip None.

(** The response of an accepted upgrade. *)
Definition accepted (r : Response) : bool :=
  match r with
  | SwitchingProtocols => true
  | _ => false
  end.

(** A WebSocket upgrade from a given address. *)
Definition upgradeOf (ip : option string) : Request :=
  mkRequest "/ws" ip (Some "websocket").

End SignalingRoomVocabulary.

(** Case analysis on every test of a handler. *)
Ltac handler_cases :=
  repeat (case_match || case_decide); simplify_eq/=.

(** The three message types that are forwarded. *)
Ltac forwarded_type H :=
  destruct H as [H | [H | H]]; rewrite H;
  repeat (case_decide; try discriminate; try tauto).

(** ** Properties of the rate limiter *)

Section RateLimiterProperties.
Import RateLimiter.
Local Open Scope Z_scope.

Lemma withRecord_withRecord ip r r' rl :
  withRecord ip r (withRecord ip r' rl) = withRecord ip r rl.
Proof. unfold withRecord; simpl. by rewrite insert_insert_eq. Qed.

Lemma withRecord_lookup ip r rl : requests (withRecord ip r rl) !! ip = Some r.
Proof. apply lookup_insert_eq. Qed.

Lemma resetWindow_within o now r :
  now - windowStart r <= windowMs o → resetWindow o now r = r.
Proof.
  intros Hw. unfold resetWindow.
  destruct (Z.gtb_spec (now - windowStart r) (windowMs o)); [lia | done].
Qed.

Lemma countRequest_allowed now ip r rl :
  now - windowStart r <= windowMs (options rl) →
  count r + 1 <= maxRequests (options rl) →
  countRequest now ip r rl =
    (withRecord ip (setCount (count r + 1) r) rl, allowedResult).
Proof.
  intros Hw Hc. unfold countRequest. rewrite resetWindow_within by done.
  simpl. destruct (Z.gtb_spec (count r + 1) (maxRequests (options rl)));
    [lia | done].
Qed.

Lemma countRequest_denied now ip r rl :
  now - windowStart r <= windowMs (options rl) →
  maxRequests (options rl) < count r + 1 →
  countRequest now ip r rl =
    (withRecord ip (violated (options rl) now r) rl,
     deniedResult (requestBlockDuration (options rl) (violations r + 1))).
Proof.
  intros Hw Hc. unfold countRequest. rewrite resetWindow_within by done.
  simpl. destruct (Z.gtb_spec (count r + 1) (maxRequests (options rl)));
    [done | lia].
Qed.

Lemma checkRequest_unblocked now ip r rl :
  requests rl !! ip = Some r → blocked r = false →
  checkRequest now ip rl = countRequest now ip r rl.
Proof. intros Hr Hb. unfold checkRequest. by rewrite Hr, Hb. Qed.

(** [countRequest] reads the map only to overwrite the address's entry. *)
Lemma countRequest_withRecord now ip r r' rl :
  countRequest now ip r (withRecord ip r' rl) = countRequest now ip r rl.
Proof.
  unfold countRequest, withRecord; simpl.
  destruct (_ >? _); by rewrite insert_insert_eq.
Qed.

(** Requests inside the current window, below the limit, are all allowed
    and only advance the counter. *)
Lemma checkRequests_allowed ip times : ∀ r rl,
  blocked r = false →
  Forall (λ now, now - windowStart r <= windowMs (options rl)) times →
  count r + Z.of_nat (length times) <= maxRequests (options rl) →
  checkRequests ip times (withRecord ip r rl) =
    (withRecord ip (setCount (count r + Z.of_nat (length times)) r) rl,
     replicate (length times) allowedResult).
Proof.
  induction times as [|now rest IH]; intros r rl Hb Hw Hc.
  - simpl. rewrite Z.add_0_r. by destruct r.
  - apply Forall_cons in Hw as [Hnow Hrest]. simpl length in *.
    cbn [checkRequests].
    rewrite (checkRequest_unblocked now ip r) by
      (apply withRecord_lookup || done).
    rewrite countRequest_withRecord, countRequest_allowed by (done || lia).
    rewrite (IH (setCount (count r + 1) r) rl); simpl; try done; try lia.
    replace (count r + 1 + Z.of_nat (length rest))
      with (count r + Z.of_nat (S (length rest))) by lia.
    done.
Qed.

(** A burst of [maxRequests + 1] requests inside one window, starting from
    a record with a zero counter: the last one is the violation. *)
Lemma checkRequests_burst ip times last r rl :
  blocked r = false → count r = 0 →
  0 <= maxRequests (options rl) →
  Z.of_nat (length times) = maxRequests (options rl) →
  Forall (λ now, now - windowStart r <= windowMs (options rl))
    (times ++ [last]) →
  checkRequests ip (times ++ [last]) (withRecord ip r rl) =
    (withRecord ip
       (violated (options rl) last
          (setCount (maxRequests (options rl)) r)) rl,
     replicate (length times) allowedResult ++
     [deniedResult (requestBlockDuration (options rl) (violations r + 1))]).
Proof.
  intros Hb Hc HN Hlen Hw. apply Forall_app in Hw as [Hw Hlast].
  apply (proj1 (Forall_singleton _ _)) in Hlast.
  assert (Hsplit : ∀ l1 l2 s,
    checkRequests ip (l1 ++ l2) s =
      let '(s1, o1) := checkRequests ip l1 s in
      let '(s2, o2) := checkRequests ip l2 s1 in (s2, o1 ++ o2)).
  { induction l1 as [|a l1 IH]; intros l2 s; simpl.
    - by destruct (checkRequests ip l2 s).
    - destruct (checkRequest a ip s) as [s1 o1]. rewrite IH.
      destruct (checkRequests ip l1 s1) as [s2 o2].
      by destruct (checkRequests ip l2 s2). }
  rewrite Hsplit, checkRequests_allowed by (done || lia).
  rewrite Hc, Z.add_0_l, Hlen. cbn [checkRequests].
  rewrite (checkRequest_unblocked last ip
             (setCount (maxRequests (options rl)) r)) by
    (apply withRecord_lookup || done).
  simpl in Hlast.
  rewrite countRequest_withRecord, countRequest_denied; simpl; try done; lia.
Qed.

Lemma checkRequest_fresh now ip rl :
  requests rl !! ip = None →
  checkRequest now ip rl =
    checkRequest now ip (withRecord ip (freshRecord now) rl).
Proof.
  intros Hr.
  rewrite (checkRequest_unblocked now ip (freshRecord now) (withRecord _ _ _))
    by (apply withRecord_lookup || done).
  rewrite countRequest_withRecord. unfold checkRequest. by rewrite Hr.
Qed.

Lemma checkRequest_expired now ip r rl :
  requests rl !! ip = Some r → blocked r = true → blockExpires r <= now →
  checkRequest now ip rl =
    checkRequest now ip (withRecord ip (reopened now r) rl).
Proof.
  intros Hr Hb He.
  rewrite (checkRequest_unblocked now ip (reopened now r) (withRecord _ _ _))
    by (apply withRecord_lookup || done).
  rewrite countRequest_withRecord. unfold checkRequest. rewrite Hr, Hb.
  destruct (Z.ltb_spec now (blockExpires r)); [lia | done].
Qed.

(** Each further violation doubles the block, up to the ceiling. *)
Lemma requestBlockDuration_double o v :
  1 <= v →
  requestBlockDuration o (v + 1) =
    Z.min (2 * requestBlockDuration o v) maxBlockMs.
Proof.
  intros Hv. unfold requestBlockDuration, pow2, maxBlockMs.
  replace (v + 1 - 1) with (Z.succ (v - 1)) by lia.
  rewrite Z.pow_succ_r by lia. lia.
Qed.

Lemma requestBlockDuration_first o :
  baseBlockDurationMs o <= maxBlockMs →
  requestBlockDuration o 1 = baseBlockDurationMs o.
Proof. unfold requestBlockDuration, pow2. simpl. lia. Qed.

(** The block of a first violation: the base duration, under the ceiling. *)
Lemma requestBlockDuration_one o :
  requestBlockDuration o 1 = Z.min (baseBlockDurationMs o) maxBlockMs.
Proof. unfold requestBlockDuration, pow2. simpl. by rewrite Z.mul_1_r. Qed.

(** [ceilSeconds] is the least number of whole seconds covering [x] ms. *)
Lemma ceilSeconds_spec x :
  1000 * (ceilSeconds x - 1) < x <= 1000 * ceilSeconds x.
Proof.
  unfold ceilSeconds.
  pose proof (Z.div_mod (- x) 1000 ltac:(lia)).
  pose proof (Z.mod_pos_bound (- x) 1000 ltac:(lia)). lia.
Qed.

Lemma resetWindow_expired o now r :
  windowMs o < now - windowStart r → 0 <= violations r →
  resetWindow o now r =
    mkRequestRecord 0 now (blocked r) (blockExpires r)
      (Z.max 0 (violations r - 1)).
Proof.
  intros Hw Hv. unfold resetWindow.
  destruct (Z.gtb_spec (now - windowStart r) (windowMs o)); [| lia].
  simpl. destruct (Z.gtb_spec (violations r) 0); [done |].
  unfold setWindowStart, setCount; simpl. f_equal. lia.
Qed.

Lemma checkRequest_window_expired now ip r rl :
  0 <= windowMs (options rl) →
  requests rl !! ip = Some r → blocked r = false →
  windowMs (options rl) < now - windowStart r → 0 <= violations r →
  checkRequest now ip rl =
    checkRequest now ip (withRecord ip (resetWindow (options rl) now r) rl).
Proof.
  intros HW Hr Hb Hw Hv.
  rewrite (checkRequest_unblocked now ip r rl) by done.
  rewrite (checkRequest_unblocked now ip (resetWindow (options rl) now r)
             (withRecord _ _ _))
    by (apply withRecord_lookup || by rewrite resetWindow_expired).
  rewrite countRequest_withRecord. unfold countRequest.
  rewrite (resetWindow_within _ now (resetWindow (options rl) now r)); [done |].
  rewrite resetWindow_expired by done. simpl. lia.
Qed.

(** A burst that starts with the call that opens the window. *)
Lemma checkRequests_burst_from ip times last r0 rl :
  let first := hd last times in
  (checkRequest first ip rl =
     checkRequest first ip (withRecord ip r0 rl)) →
  blocked r0 = false → count r0 = 0 → windowStart r0 = first →
  0 <= maxRequests (options rl) →
  Z.of_nat (length times) = maxRequests (options rl) →
  Forall (λ now, now - first <= windowMs (options rl)) (times ++ [last]) →
  checkRequests ip (times ++ [last]) rl =
    (withRecord ip
       (violated (options rl) last (setCount (maxRequests (options rl)) r0))
       rl,
     replicate (length times) allowedResult ++
     [deniedResult (requestBlockDuration (options rl) (violations r0 + 1))]).
Proof.
  intros first Hfirst Hb Hc Hws HN Hlen Hw.
  rewrite <- (checkRequests_burst ip times last r0 rl) by (by rewrite ?Hws).
  subst first. destruct times as [|t0 times']; simpl in *; by rewrite Hfirst.
Qed.

(** The exponent given to [Math.pow] is never negative: violation counts
    start at zero and no operation takes them below. *)
Lemma violations_nonneg_create o : violationsNonneg (create o).
Proof. intros ip r Hr. simpl in Hr. by rewrite lookup_empty in Hr. Qed.

Lemma resetWindow_violations o now r :
  0 <= violations r → 0 <= violations (resetWindow o now r).
Proof.
  intros Hv. unfold resetWindow. destruct (_ >? _); [| done]. simpl.
  destruct (_ >? _); simpl; lia.
Qed.

Lemma violations_nonneg_countRequest now ip r rl :
  violationsNonneg rl → 0 <= violations r →
  violationsNonneg (countRequest now ip r rl).1.
Proof.
  intros Hrl Hv ip' r'. unfold countRequest.
  pose proof (resetWindow_violations (options rl) now r Hv).
  destruct (_ >? _); simpl; intros Hr;
    apply lookup_insert_Some in Hr as [[_ <-] | [_ Hr]];
    simpl; try lia; by eapply Hrl.
Qed.

Lemma violations_nonneg_checkRequest now ip rl :
  violationsNonneg rl → violationsNonneg (checkRequest now ip rl).1.
Proof.
  intros Hrl. unfold checkRequest.
  destruct (requests rl !! ip) as [r|] eqn:Hr.
  - pose proof (Hrl ip r Hr). destruct (blocked r).
    + destruct (_ <? _); [done |].
      by apply violations_nonneg_countRequest.
    + by apply violations_nonneg_countRequest.
  - by apply violations_nonneg_countRequest.
Qed.

Lemma violations_nonneg_recordFailedLookup now ip rl :
  violationsNonneg rl → violationsNonneg (recordFailedLookup now ip rl).1.
Proof.
  intros Hrl. unfold recordFailedLookup. destruct (_ >=? _); [| done].
  intros ip' r' Hr'. simpl in Hr'.
  apply lookup_insert_Some in Hr' as [[_ <-] | [_ Hr']]; [| by eapply Hrl].
  simpl. destruct (requests rl !! ip) as [r|] eqn:Hr; simpl; [| lia].
  pose proof (Hrl ip r Hr). lia.
Qed.

Lemma violations_nonneg_cleanup now rl :
  violationsNonneg rl → violationsNonneg (cleanup now rl).
Proof.
  intros Hrl ip r Hr. simpl in Hr.
  apply map_lookup_filter_Some in Hr as [Hr _]. by eapply Hrl.
Qed.

(** C7: for a limiter with a base block duration of at least 1 ms and
    with [maxRequests = N], a burst of [N + 1] requests inside one
    window is allowed [N] times and then denied; the block of the first
    violation lasts [baseBlockDurationMs], under the one-hour ceiling
    (so it is [baseBlockDurationMs] itself unless that is more than one
    hour); the block of each consecutive
    violation lasts twice the previous one, up to one hour (a burst in a
    later window, after the count has decayed, is denied at the same
    request); while the block
    lasts every check is denied with the remaining time in whole seconds;
    once it has expired the next check is allowed, the block flag is
    cleared and the violation count is kept. *)
Theorem checkRequest_backoff (rl : t) (ip : string) :
  0 <= windowMs (options rl) →
  0 <= maxRequests (options rl) →
  1 <= baseBlockDurationMs (options rl) →
  let o := options rl in
  let N := maxRequests o in
  let firstBlock := Z.min (baseBlockDurationMs o) maxBlockMs in
  (∀ times last,
     let first := hd last times in
     requests rl !! ip = None →
     Z.of_nat (length times) = N →
     Forall (λ now, now - first <= windowMs o) (times ++ [last]) →
     checkRequests ip (times ++ [last]) rl =
       (withRecord ip
          (mkRequestRecord (N + 1) first true (last + firstBlock) 1) rl,
        replicate (length times) allowedResult ++
        [deniedResult firstBlock])
     ∧ (baseBlockDurationMs o <= maxBlockMs →
        firstBlock = baseBlockDurationMs o))
  ∧ (∀ r times last,
     let first := hd last times in
     let longer := Z.min (2 * requestBlockDuration o (violations r))
                     maxBlockMs in
     requests rl !! ip = Some r → blocked r = true →
     blockExpires r <= first → 1 <= violations r →
     Z.of_nat (length times) = N →
     Forall (λ now, now - first <= windowMs o) (times ++ [last]) →
     checkRequests ip (times ++ [last]) rl =
       (withRecord ip
          (mkRequestRecord (N + 1) first true (last + longer)
             (violations r + 1)) rl,
        replicate (length times) allowedResult ++ [deniedResult longer]))
  ∧ (∀ r times last,
     let first := hd last times in
     let kept := Z.max 0 (violations r - 1) in
     requests rl !! ip = Some r → blocked r = false →
     windowMs o < first - windowStart r → 0 <= violations r →
     Z.of_nat (length times) = N →
     Forall (λ now, now - first <= windowMs o) (times ++ [last]) →
     checkRequests ip (times ++ [last]) rl =
       (withRecord ip
          (mkRequestRecord (N + 1) first true
             (last + requestBlockDuration o (kept + 1)) (kept + 1)) rl,
        replicate (length times) allowedResult ++
        [deniedResult (requestBlockDuration o (kept + 1))]))
  ∧ (∀ r now,
     requests rl !! ip = Some r → blocked r = true → now < blockExpires r →
     checkRequest now ip rl =
       (rl, mkCheckResult false (Some (ceilSeconds (blockExpires r - now))))
     ∧ 1000 * (ceilSeconds (blockExpires r - now) - 1) < blockExpires r - now
       <= 1000 * ceilSeconds (blockExpires r - now))
  ∧ (∀ r now,
     requests rl !! ip = Some r → blocked r = true → blockExpires r <= now →
     1 <= N →
     checkRequest now ip rl =
       (withRecord ip
          (mkRequestRecord 1 now false (blockExpires r) (violations r)) rl,
        allowedResult)).
Proof.
  intros HW HN HB o N firstBlock. split; [| repeat split].
  - intros times last first Hnone Hlen Hw.
    split; [| subst firstBlock; lia].
    rewrite (checkRequests_burst_from ip times last (freshRecord first) rl);
      try done; try (subst N o; lia).
    + unfold violated. simpl.
      rewrite !requestBlockDuration_one. done.
    + by apply checkRequest_fresh.
  - intros r times last first longer Hr Hb He Hv Hlen Hw.
    rewrite (checkRequests_burst_from ip times last (reopened first r) rl);
      try done; try (subst N o; lia).
    + unfold violated. simpl.
      rewrite !requestBlockDuration_double by done. done.
    + by apply checkRequest_expired.
  - intros r times last first kept Hr Hb Hexp Hv Hlen Hw.
    assert (Hr0 : resetWindow (options rl) first r
                  = mkRequestRecord 0 first false (blockExpires r) kept)
      by (rewrite resetWindow_expired by done; by rewrite Hb).
    rewrite (checkRequests_burst_from ip times last
               (mkRequestRecord 0 first false (blockExpires r) kept) rl);
      try done; try (subst N o; lia).
    rewrite <- Hr0. by apply checkRequest_window_expired.
  - match goal with
    | Hr : requests rl !! ip = Some ?r, Hb : blocked ?r = true |- _ =>
        unfold checkRequest; rewrite Hr, Hb
    end.
    match goal with
    | |- context [?now <? blockExpires ?r] =>
        destruct (Z.ltb_spec now (blockExpires r)); [done | lia]
    end.
  - apply ceilSeconds_spec.
  - apply ceilSeconds_spec.
  - intros r now Hr Hb He HN1.
    rewrite (checkRequest_expired now ip r) by done.
    rewrite (checkRequest_unblocked now ip (reopened now r)) by
      (apply withRecord_lookup || done).
    rewrite countRequest_withRecord, countRequest_allowed; simpl; try done;
      lia.
Qed.

Lemma checkRequest_backoff_witness :
  checkRequests "203.0.113.7" [0; 10; 20] (create smallOptions) =
    (blockedOnce, [allowedResult; allowedResult; deniedResult 60000])
  ∧ checkRequests "203.0.113.7" [60020; 60030; 60040] blockedOnce =
    (withRecord "203.0.113.7" (mkRequestRecord 3 60020 true 180040 2)
       blockedOnce,
     [allowedResult; allowedResult; deniedResult 120000])
  ∧ checkRequests "203.0.113.7" [200000; 200010; 200020] idleAfterBlock =
    (withRecord "203.0.113.7" (mkRequestRecord 3 200000 true 260020 1)
       idleAfterBlock,
     [allowedResult; allowedResult; deniedResult 60000])
  ∧ checkRequest 100 "203.0.113.7" blockedOnce =
    (blockedOnce, mkCheckResult false (Some 60))
  ∧ checkRequest 60020 "203.0.113.7" blockedOnce =
    (idleAfterBlock, allowedResult).
Proof.
  assert (Hw : ∀ a b c,
    0 <= a - a <= 10 → 0 <= b - a <= 60000 → 0 <= c - a <= 60000 →
    Forall (λ now, now - a <= 60000) [a; b; c]).
  { intros a b c Ha Hb Hc. repeat constructor; lia. }
  destruct (checkRequest_backoff (create smallOptions) "203.0.113.7")
    as (H1 & _); [simpl; lia | simpl; lia | simpl; lia |].
  destruct (checkRequest_backoff blockedOnce "203.0.113.7")
    as (_ & H2 & _ & H3 & H4); [simpl; lia | simpl; lia | simpl; lia |].
  destruct (checkRequest_backoff idleAfterBlock "203.0.113.7")
    as (_ & _ & H5 & _); [simpl; lia | simpl; lia | simpl; lia |].
  split; [| split; [| split; [| split]]].
  - exact (proj1 (H1 [0; 10] 20 eq_refl eq_refl
                    (Hw 0 10 20 ltac:(lia) ltac:(lia) ltac:(lia)))).
  - exact (H2 (mkRequestRecord 3 0 true 60020 1) [60020; 60030] 60040
             eq_refl eq_refl ltac:(simpl; lia) ltac:(simpl; lia) eq_refl
             (Hw 60020 60030 60040 ltac:(lia) ltac:(lia) ltac:(lia))).
  - exact (H5 (mkRequestRecord 1 60020 false 60020 1) [200000; 200010] 200020
             eq_refl eq_refl ltac:(simpl; lia) ltac:(simpl; lia) eq_refl
             (Hw 200000 200010 200020 ltac:(lia) ltac:(lia) ltac:(lia))).
  - exact (proj1 (H3 (mkRequestRecord 3 0 true 60020 1) 100
                    eq_refl eq_refl ltac:(simpl; lia))).
  - exact (H4 (mkRequestRecord 3 0 true 60020 1) 60020
             eq_refl eq_refl ltac:(simpl; lia) ltac:(simpl; lia)).
Defined.

(** C3 (as the code has it): for a limiter with a base block duration of
    at least 1 ms and an address whose violation count is not negative
    (as in every state the limiter can reach, see
    [violations_nonneg_recordFailedLookup]), when the failed-lookup counter
    of the address
    reaches [maxFailedLookups], the request-rate record of the address gets
    2 more violations and is blocked for
    [min(baseBlockDurationMs * 2^violations, 3600000)] ms, where
    [violations] is the count after the addition (the request-rate formula
    has the exponent [violations - 1]); the failed-lookup counter is reset
    to zero and the call returns [true]. *)
Theorem recordFailedLookup_threshold (now : Z) (ip : string) (rl : t) :
  1 <= baseBlockDurationMs (options rl) →
  0 <= violations (requestRecordOf now ip rl) →
  maxFailedLookups (options rl) <= failedCount (countedLookup now ip rl) →
  let prev := requestRecordOf now ip rl in
  let v := violations prev + 2 in
  recordFailedLookup now ip rl =
    (mkRateLimiter (options rl)
       (<[ip := mkRequestRecord (count prev) (windowStart prev) true
                  (now + Z.min (baseBlockDurationMs (options rl) * 2 ^ v)
                           3600000) v]> (requests rl))
       (<[ip := mkFailedLookupRecord 0 now]> (failedLookups rl)),
     true).
Proof.
  intros _ _ Hmax prev v. unfold recordFailedLookup.
  destruct (Z.geb_spec (failedCount (countedLookup now ip rl))
              (maxFailedLookups (options rl))) as [_ | Hlt]; [| lia].
  unfold requestRecordOf, default in prev. subst v prev.
  by destruct (requests rl !! ip).
Qed.

Lemma recordFailedLookup_threshold_witness :
  recordFailedLookup 1000 "203.0.113.7" nineFailures =
    (mkRateLimiter defaultOptions
       {["203.0.113.7" := mkRequestRecord 0 1000 true 241000 2]}
       {["203.0.113.7" := mkFailedLookupRecord 0 1000]},
     true).
Proof.
  rewrite (recordFailedLookup_threshold 1000 "203.0.113.7" nineFailures)
    by (vm_compute; discriminate).
  vm_compute. reflexivity.
Defined.

(** C3 as stated fails: the block computed on the tenth failed lookup is
    not the one the request-rate formula gives for the new violation
    count. *)
Lemma recordFailedLookup_formula_differs :
  ∃ rl' r,
    recordFailedLookup 1000 "203.0.113.7" nineFailures = (rl', true)
    ∧ requests rl' !! "203.0.113.7" = Some r
    ∧ blocked r = true
    ∧ violations r = 2
    ∧ blockExpires r = 1000 + 240000
    ∧ requestBlockDuration (options nineFailures) (violations r) = 120000
    ∧ blockExpires r ≠
        1000 + requestBlockDuration (options nineFailures) (violations r).
Proof.
  eexists _, _. split; [vm_compute; reflexivity |].
  split; [vm_compute; reflexivity |]. by vm_compute.
Qed.

End RateLimiterProperties.

(** ** Properties of the signaling core *)

Section SignalingCoreProperties.
Import SignalingCore.

(** *** What each handler does, case by case *)

Example twoServersOneClient_pending :
  pendingClients (stateAfter twoServersOneClient) !! "AAAAAAAAAAAAAAAA"
  = Some (mkPendingClient 3 "AAA" (Some 1%nat)).
Proof. vm_compute. reflexivity. Qed.

(** The server answers with one fresh ICE server: the client gets that one,
    not the two cached at registration. *)
Example connect_with_fresh_ice :
  effectsOf (clientWaiting ++
             [ Message 30 30 zeroDraws 1
                 (sessionReady "AAAAAAAAAAAAAAAA" (Some refreshedIce)) ])
  = [ Log "✓ Server registered: AAA";
      Send 1 (registeredMessage "AAA");
      Send 1 (clientConnectedMessage "AAAAAAAAAAAAAAAA");
      Send 3 (connectedMessage "AAA" "AAAAAAAAAAAAAAAA" (Some refreshedIce)) ].
Proof. vm_compute. reflexivity. Qed.

(** The server never answers: at the deadline the client gets the two
    cached ICE servers. *)
Example connect_with_cached_ice :
  effectsOf (clientWaiting ++ [ TimerFired 1 ])
  = [ Log "✓ Server registered: AAA";
      Send 1 (registeredMessage "AAA");
      Send 1 (clientConnectedMessage "AAAAAAAAAAAAAAAA");
      Send 3 (connectedMessage "AAA" "AAAAAAAAAAAAAAAA" (Some cachedIce)) ].
Proof. vm_compute. reflexivity. Qed.

(** After the server disconnects, its active session is told
    [peer-disconnected] and removed, and the id is free again. *)
Example server_disconnect_cascade :
  effectsOf (sessionActive ++ [ Disconnected 1 ])
  = [ Log "✓ Server registered: AAA";
      Send 1 (registeredMessage "AAA");
      Send 1 (clientConnectedMessage "AAAAAAAAAAAAAAAA");
      Send 3 (connectedMessage "AAA" "AAAAAAAAAAAAAAAA" None);
      Log "✗ Server disconnected: AAA";
      Send 3 peerDisconnectedMessage ]
  ∧ clients (stateAfter (sessionActive ++ [ Disconnected 1 ])) = ∅
  ∧ isOnline "aaa" (stateAfter (sessionActive ++ [ Disconnected 1 ])) = false.
Proof. split_and!; vm_compute; reflexivity. Qed.

Lemma presentSessionId_Some message sid :
  presentSessionId message = Some sid ↔ sessionId message = Some sid ∧ sid ≠ "".
Proof.
  unfold presentSessionId. destruct (sessionId message) as [s|].
  - destruct (decide (s = "")) as [-> | Hne].
    + split; [done | by intros [[= <-] Hne]].
    + split; [by intros [= ->] | by intros [[= ->] _]].
  - split; [done | by intros [? _]].
Qed.

Lemma handleSessionReady_server ws message st sid pending rid :
  presentSessionId message = Some sid →
  pendingClients st !! sid = Some pending →
  wsMetadata st !! ws = Some (mkMetadata server rid) →
  handleSessionReady ws message st =
    (promoted sid rid pending st,
     [Send (pendingWs pending)
        (connectedMessage rid sid (iceServers message))]).
Proof.
  intros Hsid Hp Hm. unfold handleSessionReady. by rewrite Hsid, Hp, Hm.
Qed.

Lemma handleSessionReady_not_pending ws message st sid :
  presentSessionId message = Some sid →
  pendingClients st !! sid = None →
  handleSessionReady ws message st = (st, []).
Proof. intros Hsid Hp. unfold handleSessionReady. by rewrite Hsid, Hp. Qed.

Lemma promoted_clients sid rid pending st :
  clients (promoted sid rid pending st) !! sid
  = Some (mkClientData (pendingWs pending) rid).
Proof.
  unfold promoted, clearTimeout. destruct (timeout pending); simpl;
    apply lookup_insert_eq.
Qed.

Lemma promoted_pending sid rid pending st :
  pendingClients (promoted sid rid pending st) !! sid = None.
Proof.
  unfold promoted, clearTimeout. destruct (timeout pending); simpl;
    apply lookup_delete_eq.
Qed.

Lemma getServer_Some rid st r sd :
  getServer rid st = Some (r, sd) ↔
  servers st !! rid = Some r ∧ heap st !! r = Some sd.
Proof.
  unfold getServer. destruct (servers st !! rid) as [r'|].
  - destruct (heap st !! r') as [sd'|] eqn:Hh; split.
    + by intros [= <- <-].
    + intros [[= <-] Hsd]. rewrite Hh in Hsd. by injection Hsd as <-.
    + done.
    + intros [[= <-] Hsd]. by rewrite Hh in Hsd.
  - split; [done | by intros [? _]].
Qed.

Lemma handleConnectRequest_found now rnd ws message st rid r sd :
  normalizedRemoteId message = Some rid →
  getServer rid st = Some (r, sd) →
  handleConnectRequest now rnd ws message st =
    (requested (generateSessionId rnd) rid ws r st,
     [Send (serverWs sd) (clientConnectedMessage (generateSessionId rnd))]).
Proof.
  intros Hrid Hs. unfold handleConnectRequest. by rewrite Hrid, Hs.
Qed.

Lemma fireTimer_pending t c pending st :
  timers st !! t = Some c →
  pendingClients st !! closureSessionId c = Some pending →
  fireTimer t st =
    (setClients
       (<[closureSessionId c :=
            mkClientData (pendingWs pending) (closureRemoteId c)]>
          (clients st))
       (setPendingClients (delete (closureSessionId c) (pendingClients st))
          (setTimers (delete t (timers st)) st)),
     [Send (pendingWs pending)
        (connectedMessage (closureRemoteId c) (closureSessionId c)
           (capturedIceServers c st))]).
Proof.
  intros Ht Hp. unfold fireTimer, fallbackTimeout. rewrite Ht. simpl.
  by rewrite Hp.
Qed.

Lemma fireTimer_not_pending t c st :
  timers st !! t = Some c →
  pendingClients st !! closureSessionId c = None →
  fireTimer t st = (setTimers (delete t (timers st)) st, []).
Proof.
  intros Ht Hp. unfold fireTimer, fallbackTimeout. rewrite Ht. simpl.
  by rewrite Hp.
Qed.

(** A refresh by the connection that holds the registration. *)
Lemma handleServerRegister_refresh ws message st rid :
  normalizedRemoteId message = Some rid →
  alreadyRegistered ws rid st = true →
  handleServerRegister ws message st =
    (match getServer rid st, iceServers message with
     | Some (r, existingServer), Some ice =>
         setHeap (<[r := mkServerData (serverWs existingServer) (Some ice)]>
                    (heap st)) st
     | _, _ => st
     end,
     [Send ws (registeredMessage rid)]).
Proof.
  intros Hrid Ha. unfold handleServerRegister. by rewrite Hrid, Ha.
Qed.

Lemma handleServerRegister_replace ws message st rid r sd :
  normalizedRemoteId message = Some rid →
  alreadyRegistered ws rid st = false →
  getServer rid st = Some (r, sd) →
  serverWs sd ≠ ws →
  handleServerRegister ws message st =
    (installed rid ws (iceServers message) (evicted rid (serverWs sd) st),
     [Close (serverWs sd) 4000 "Replaced by new connection";
      Log ("✓ Server registered: " +:+ rid);
      Send ws (registeredMessage rid)]).
Proof.
  intros Hrid Ha Hs Hne. unfold handleServerRegister.
  rewrite Hrid, Ha, Hs. by rewrite decide_True.
Qed.

Lemma heap_fresh_ne (st : Core) r sd :
  heap st !! r = Some sd → fresh (dom (heap st)) ≠ r.
Proof.
  intros Hr Heq. apply (is_fresh (dom (heap st))). rewrite Heq.
  apply elem_of_dom. eauto.
Qed.

Lemma normalizedRemoteId_Some message rid :
  normalizedRemoteId message = Some rid ↔
  ∃ raw, remoteId message = Some raw ∧ toUpperCase raw = rid ∧ rid ≠ "".
Proof.
  unfold normalizedRemoteId. destruct (remoteId message) as [raw|].
  - destruct (decide (toUpperCase raw = "")) as [He | Hne]; split.
    + done.
    + intros (raw' & [= <-] & <- & Hne). done.
    + intros [= <-]. eauto.
    + by intros (raw' & [= <-] & <- & _).
  - split; [done | by intros (raw & ? & _)].
Qed.

Lemma alreadyRegistered_true ws rid st :
  alreadyRegistered ws rid st = true ↔
  wsMetadata st !! ws = Some (mkMetadata server rid).
Proof.
  unfold alreadyRegistered.
  destruct (wsMetadata st !! ws) as [[ty i]|]; simpl; [| done].
  rewrite andb_true_iff, !bool_decide_eq_true. split.
  - by intros [-> ->].
  - by intros [= -> ->].
Qed.

Lemma checkRateLimit_cases now ws st :
  ∃ rl, (checkRateLimit now ws st).1.1 = setRateLimiter rl st
        ∧ ((checkRateLimit now ws st).2 = true
           ∧ (checkRateLimit now ws st).1.2 = []
           ∨ (checkRateLimit now ws st).2 = false
             ∧ ∃ secs, (checkRateLimit now ws st).1.2 =
                         [Send ws (errorMessage (rateLimitedText secs))]).
Proof.
  unfold checkRateLimit.
  destruct (wsClientIp st !! ws) as [ip|];
    [| exists (rateLimiter st); split; [by destruct st | by left]].
  destruct (decide (ip = ""));
    [exists (rateLimiter st); split; [by destruct st | by left] |].
  destruct (RateLimiter.checkRequest now ip (rateLimiter st)) as [rl result].
  exists rl. destruct (RateLimiter.allowed result); simpl;
    split; try done; [by left | right; eauto].
Qed.

(** *** How the events change the session maps *)

Lemma unchanged_sessions st st' :
  pendingClients st' = pendingClients st → clients st' = clients st →
  SessionChange st st' None.
Proof. intros Hp Hc. apply Shrunk; by rewrite ?Hp, ?Hc. Qed.

Lemma handleServerRegister_sessions ws message st :
  pendingClients (handleServerRegister ws message st).1 = pendingClients st
  ∧ clients (handleServerRegister ws message st).1 = clients st.
Proof. unfold handleServerRegister, allocServerData. by handler_cases. Qed.

Lemma checkRateLimit_sessions now ws st :
  pendingClients (checkRateLimit now ws st).1.1 = pendingClients st
  ∧ clients (checkRateLimit now ws st).1.1 = clients st.
Proof. unfold checkRateLimit. by handler_cases. Qed.

Lemma handleConnectRequest_sessions now rnd ws message st :
  SessionChange st (handleConnectRequest now rnd ws message st).1 None
  ∨ SessionChange st (handleConnectRequest now rnd ws message st).1
      (Some (generateSessionId rnd)).
Proof.
  unfold handleConnectRequest, setTimeout.
  handler_cases; try (left; by apply unchanged_sessions).
  all: right; by eapply Requested.
Qed.

Lemma handleSessionReady_sessions ws message st :
  SessionChange st (handleSessionReady ws message st).1 None.
Proof.
  unfold handleSessionReady.
  handler_cases; try by apply unchanged_sessions.
  all: eapply Promoted; [eauto | |]; unfold clearTimeout; by handler_cases.
Qed.

Lemma fireTimer_sessions t st :
  SessionChange st (fireTimer t st).1 None.
Proof.
  unfold fireTimer, fallbackTimeout.
  handler_cases; try by apply unchanged_sessions.
  all: eapply Promoted; eauto.
Qed.

Lemma clearTimeout_sessions t st :
  pendingClients (clearTimeout t st) = pendingClients st
  ∧ clients (clearTimeout t st) = clients st.
Proof. by destruct t. Qed.

Lemma clearTimeouts_sessions (l : list (string * PendingClient)) st :
  let st1 :=
    foldr (λ (kv : string * PendingClient) s, clearTimeout (timeout kv.2) s)
      st l in
  pendingClients st1 = pendingClients st ∧ clients st1 = clients st.
Proof.
  induction l as [|kv l [IHp IHc]]; [done |]. simpl.
  destruct (clearTimeout_sessions (timeout kv.2)
              (foldr (λ (kv : string * PendingClient) s,
                        clearTimeout (timeout kv.2) s) st l)) as [Hp Hc].
  by rewrite Hp, Hc.
Qed.

Lemma notifyClients_sessions rid st :
  pendingClients (notifyClients rid st).1 = pendingClients st
  ∧ clients (notifyClients rid st).1 ⊆ clients st.
Proof. split; [done | apply map_filter_subseteq]. Qed.

Lemma cleanPending_sessions rid st :
  pendingClients (cleanPending rid st).1 ⊆ pendingClients st
  ∧ clients (cleanPending rid st).1 = clients st.
Proof.
  unfold cleanPending. cbn [fst].
  destruct (clearTimeouts_sessions
              (map_to_list (filter (boundToPending rid) (pendingClients st)))
              st) as [Hp Hc].
  simpl. rewrite Hp, Hc. split; [apply map_filter_subseteq | done].
Qed.

Lemma handleDisconnect_sessions ws st :
  pendingClients (handleDisconnect ws st).1 ⊆ pendingClients st
  ∧ clients (handleDisconnect ws st).1 ⊆ clients st.
Proof.
  unfold handleDisconnect.
  destruct (wsMetadata st !! ws) as [[[] rid]|]; [| | done].
  - destruct (getServer rid st) as [[r sd]|]; [| done].
    destruct (decide (serverWs sd = ws)); [| done].
    set (st2 := setWsMetadata _ _).
    destruct (notifyClients_sessions rid st2) as [Hp1 Hc1].
    destruct (notifyClients rid st2) as [st3 sent1].
    destruct (cleanPending_sessions rid st3) as [Hp2 Hc2].
    destruct (cleanPending rid st3) as [st4 sent2].
    simpl in *. rewrite Hc2, <- Hp1. by split.
  - set (st1 := match pendingClients st !! rid with
                | Some _ => _ | None => _ end).
    assert (Hst1 : pendingClients st1 ⊆ pendingClients st
                   ∧ clients st1 = clients st).
    { subst st1. destruct (pendingClients st !! rid) as [p|]; [| done].
      destruct (clearTimeout_sessions (timeout p) st) as [Hp Hc].
      simpl. rewrite Hp, Hc. split; [apply delete_subseteq | done]. }
    destruct Hst1 as [Hp Hc].
    destruct (clients st1 !! rid); simpl; rewrite <- ?Hc;
      split; try done; apply delete_subseteq.
Qed.

Lemma dispatch_sessions now rnd ws message st :
  SessionChange st (dispatch now rnd ws message st).1 None
  ∨ (type message = "connect-request"
     ∧ SessionChange st (dispatch now rnd ws message st).1
         (Some (generateSessionId rnd))).
Proof.
  unfold dispatch.
  repeat case_decide; try (left; by apply unchanged_sessions).
  - left. apply unchanged_sessions; apply handleServerRegister_sessions.
  - destruct (handleConnectRequest_sessions now rnd ws message st);
      [by left | by right].
  - left. apply handleSessionReady_sessions.
Qed.

Lemma SessionChange_after st st1 st' o :
  pendingClients st1 = pendingClients st → clients st1 = clients st →
  SessionChange st1 st' o → SessionChange st st' o.
Proof.
  intros Hp Hc [Hps Hcs | sid s Hs Hpd Hci | sid p Hpi Hcu];
    rewrite ?Hp, ?Hc in *.
  - by apply Shrunk.
  - by eapply Promoted.
  - by eapply Requested.
Qed.

Lemma handleMessage_sessions now now' rnd ws message st :
  SessionChange st (handleMessage now now' rnd ws message st).1 None
  ∨ (type message = "connect-request"
     ∧ SessionChange st (handleMessage now now' rnd ws message st).1
         (Some (generateSessionId rnd))).
Proof.
  unfold handleMessage. case_decide; [| apply dispatch_sessions].
  destruct (checkRateLimit_sessions now ws st) as [Hp Hc].
  destruct (checkRateLimit now ws st) as [[st1 sent] ok]. simpl in Hp, Hc.
  destruct ok; [| left; by apply unchanged_sessions].
  destruct (dispatch_sessions now' rnd ws message st1) as [H1 | [Ht H1]];
    destruct (dispatch now' rnd ws message st1) as [st2 effects];
    [left | right; split; [done |]]; by eapply SessionChange_after.
Qed.

(** Every event shrinks the session maps, promotes one pending session, or
    (a connect request only) adds one pending session under the id drawn. *)
Lemma step_sessions e st :
  SessionChange st (step e st).1 None
  ∨ (∃ sid, drawnId e = Some sid ∧ SessionChange st (step e st).1 (Some sid)).
Proof.
  destruct e as [ws ip | now now' rnd ws message | ws | t | now]; simpl.
  - left. by apply unchanged_sessions.
  - destruct (handleMessage_sessions now now' rnd ws message st)
      as [H1 | [Ht H1]]; [by left | right].
    exists (generateSessionId rnd). by rewrite decide_True.
  - left. apply Shrunk; apply handleDisconnect_sessions.
  - left. apply fireTimer_sessions.
  - left. by apply unchanged_sessions.
Qed.

Lemma SessionChange_disjoint st st' o :
  SessionChange st st' o →
  sessionIdsDisjoint st →
  (∀ sid, o = Some sid →
     pendingClients st !! sid = None ∧ clients st !! sid = None) →
  sessionIdsDisjoint st'.
Proof.
  unfold sessionIdsDisjoint.
  intros [Hps Hcs | sid s Hs Hpd Hci | sid p Hpi Hcu] Hd Hfresh.
  - apply subseteq_dom in Hps, Hcs. set_solver.
  - rewrite Hpd, Hci, dom_delete_L, dom_insert_L. set_solver.
  - destruct (Hfresh sid eq_refl) as [_ Hc].
    apply not_elem_of_dom in Hc.
    rewrite Hpi, Hcu, dom_insert_L. set_solver.
Qed.

Lemma create_disjoint rl : sessionIdsDisjoint (create rl).
Proof. unfold sessionIdsDisjoint. simpl. set_solver. Qed.

Lemma step_disjoint e st :
  sessionIdsDisjoint st → drawsFreshId e st →
  sessionIdsDisjoint (step e st).1.
Proof.
  intros Hd Hf. unfold drawsFreshId in Hf.
  destruct (step_sessions e st) as [Hc | (sid & Hdrawn & Hc)].
  - by eapply SessionChange_disjoint.
  - rewrite Hdrawn in Hf. eapply SessionChange_disjoint; [done | done |].
    by intros sid' [= <-].
Qed.

(** *** The registry stays consistent *)

Lemma sameRegistry_consistent st st' :
  sameRegistry st st' → registryConsistent st → registryConsistent st'.
Proof.
  intros (Hh & Hs & Hm) Hc ws rid Hmeta. unfold getServer.
  rewrite Hh, Hs. apply Hc. by rewrite <- Hm.
Qed.

Lemma sameRegistry_refl st : sameRegistry st st.
Proof. done. Qed.

Lemma sameRegistry_trans st1 st2 st3 :
  sameRegistry st1 st2 → sameRegistry st2 st3 → sameRegistry st1 st3.
Proof.
  intros (Hh & Hs & Hm) (Hh' & Hs' & Hm'). unfold sameRegistry.
  by rewrite Hh', Hs', Hm'.
Qed.

Lemma handleSessionReady_registry ws message st :
  sameRegistry st (handleSessionReady ws message st).1.
Proof.
  unfold handleSessionReady, clearTimeout, sameRegistry.
  by handler_cases.
Qed.

Lemma fireTimer_registry t st : sameRegistry st (fireTimer t st).1.
Proof. unfold fireTimer, fallbackTimeout, sameRegistry. by handler_cases. Qed.

Lemma checkRateLimit_registry now ws st :
  sameRegistry st (checkRateLimit now ws st).1.1.
Proof. unfold checkRateLimit, sameRegistry. by handler_cases. Qed.

Lemma clearTimeouts_registry (l : list (string * PendingClient)) st :
  sameRegistry st
    (foldr (λ (kv : string * PendingClient) s, clearTimeout (timeout kv.2) s)
       st l).
Proof.
  induction l as [|kv l IH]; [done |]. simpl.
  eapply sameRegistry_trans; [exact IH |].
  unfold clearTimeout. by destruct (timeout kv.2).
Qed.

Lemma cleanPending_registry rid st :
  sameRegistry st (cleanPending rid st).1.
Proof.
  unfold cleanPending. cbn [fst].
  destruct (clearTimeouts_registry
              (map_to_list (filter (boundToPending rid) (pendingClients st)))
              st) as (Hh & Hs & Hm).
  unfold sameRegistry. simpl. by rewrite Hh, Hs, Hm.
Qed.

Lemma consistent_delete_metadata ws st st' :
  heap st' = heap st → servers st' = servers st →
  wsMetadata st' = delete ws (wsMetadata st) →
  registryConsistent st → registryConsistent st'.
Proof.
  intros Hh Hs Hm Hc ws' rid Hmeta. unfold getServer. rewrite Hh, Hs.
  apply Hc. rewrite Hm in Hmeta.
  by apply lookup_delete_Some in Hmeta as [_ ?].
Qed.

Lemma consistent_client_metadata ws sid st st' :
  heap st' = heap st → servers st' = servers st →
  wsMetadata st' = <[ws := mkMetadata client sid]> (wsMetadata st) →
  registryConsistent st → registryConsistent st'.
Proof.
  intros Hh Hs Hm Hc ws' rid Hmeta. unfold getServer. rewrite Hh, Hs.
  apply Hc. rewrite Hm in Hmeta.
  by apply lookup_insert_Some in Hmeta as [[_ ?] | [_ ?]].
Qed.

Lemma handleConnectRequest_consistent now rnd ws message st :
  registryConsistent st →
  registryConsistent (handleConnectRequest now rnd ws message st).1.
Proof.
  intros Hc. unfold handleConnectRequest, setTimeout.
  handler_cases; try done;
    try (eapply sameRegistry_consistent; [| exact Hc]; by repeat split).
  all: by eapply (consistent_client_metadata ws _ st).
Qed.

Lemma consistent_unregister ws rid r sd st st' :
  getServer rid st = Some (r, sd) → serverWs sd = ws →
  heap st' = heap st → servers st' = delete rid (servers st) →
  wsMetadata st' = delete ws (wsMetadata st) →
  registryConsistent st → registryConsistent st'.
Proof.
  intros Hget Hws Hh Hs Hm Hc ws' rid' Hmeta. rewrite Hm in Hmeta.
  apply lookup_delete_Some in Hmeta as [Hne Hmeta].
  destruct (Hc ws' rid' Hmeta) as (r' & sd' & Hget' & Hws').
  exists r', sd'. split; [| done].
  assert (rid' ≠ rid) by (intros ->; congruence).
  unfold getServer in *. rewrite Hh, Hs. by rewrite lookup_delete_ne.
Qed.

Lemma handleDisconnect_consistent ws st :
  registryConsistent st → registryConsistent (handleDisconnect ws st).1.
Proof.
  intros Hc. unfold handleDisconnect.
  destruct (wsMetadata st !! ws) as [[[] rid]|] eqn:Hmeta; [| | done].
  - destruct (getServer rid st) as [[r sd]|] eqn:Hget;
      [| by eapply (consistent_delete_metadata ws st)].
    destruct (decide (serverWs sd = ws)) as [Hws | Hne];
      [| by eapply (consistent_delete_metadata ws st)].
    set (st2 := setWsMetadata _ _).
    assert (H1 : sameRegistry st2 (notifyClients rid st2).1) by done.
    destruct (notifyClients rid st2) as [st3 sent1].
    pose proof (cleanPending_registry rid st3) as H2.
    destruct (cleanPending rid st3) as [st4 sent2].
    destruct (sameRegistry_trans _ _ _ H1 H2) as (Hh & Hs & Hm).
    simpl in Hh, Hs, Hm.
    by eapply (consistent_unregister ws rid r sd st).
  - set (st1 := match pendingClients st !! rid with
                | Some _ => _ | None => _ end).
    assert (Hst1 : sameRegistry st st1).
    { subst st1. destruct (pendingClients st !! rid) as [p|]; [| done].
      unfold clearTimeout. by destruct (timeout p). }
    destruct Hst1 as (Hh & Hs & Hm).
    destruct (clients st1 !! rid);
      eapply (consistent_delete_metadata ws st); try exact Hc; simpl;
      by rewrite ?Hh, ?Hs, ?Hm.
Qed.

Lemma consistent_refresh rid r sd ice st :
  getServer rid st = Some (r, sd) →
  registryConsistent st →
  registryConsistent
    (setHeap (<[r := mkServerData (serverWs sd) ice]> (heap st)) st).
Proof.
  intros Hget Hc ws rid' Hmeta.
  destruct (Hc ws rid' Hmeta) as (r' & sd' & Hget' & Hws').
  apply getServer_Some in Hget as [Hs Hh].
  apply getServer_Some in Hget' as [Hs' Hh'].
  destruct (decide (r' = r)) as [-> | Hne].
  - exists r, (mkServerData (serverWs sd) ice). split.
    + apply getServer_Some. simpl. by rewrite lookup_insert_eq.
    + simpl. congruence.
  - exists r', sd'. split; [| done].
    apply getServer_Some. simpl. by rewrite lookup_insert_ne.
Qed.

(** Installing a registration for [rid] keeps the registry consistent when
    no other connection is left with the identity (server, rid). *)
Lemma consistent_installed rid ws ice st :
  (∀ ws', ws' ≠ ws →
     wsMetadata st !! ws' ≠ Some (mkMetadata server rid)) →
  (∀ ws' rid', ws' ≠ ws → rid' ≠ rid →
     wsMetadata st !! ws' = Some (mkMetadata server rid') →
     ∃ r sd, getServer rid' st = Some (r, sd) ∧ serverWs sd = ws') →
  registryConsistent (installed rid ws ice st).
Proof.
  intros Hnone Hothers ws' rid' Hmeta. unfold installed in *. simpl in Hmeta.
  destruct (decide (ws' = ws)) as [-> | Hne].
  - rewrite lookup_insert_eq in Hmeta. injection Hmeta as <-.
    exists (fresh (dom (heap st))), (mkServerData ws ice). split; [| done].
    apply getServer_Some. simpl. split; apply lookup_insert_eq.
  - rewrite lookup_insert_ne in Hmeta by done.
    assert (Hrid : rid' ≠ rid) by (intros ->; by apply (Hnone ws')).
    destruct (Hothers ws' rid' Hne Hrid Hmeta) as (r & sd & Hget & Hws).
    exists r, sd. split; [| done].
    apply getServer_Some in Hget as [Hs Hh]. apply getServer_Some. simpl.
    rewrite lookup_insert_ne by done. split; [done |].
    rewrite lookup_insert_ne; [done |]. by eapply heap_fresh_ne.
Qed.

Lemma handleServerRegister_consistent ws message st :
  registryConsistent st →
  registryConsistent (handleServerRegister ws message st).1.
Proof.
  intros Hc. unfold handleServerRegister.
  destruct (normalizedRemoteId message) as [rid|]; [| done].
  destruct (alreadyRegistered ws rid st) eqn:Ha.
  - destruct (getServer rid st) as [[r sd]|] eqn:Hget; [| done].
    destruct (iceServers message) as [ice|]; [| done].
    by apply (consistent_refresh rid).
  - assert (Hself : wsMetadata st !! ws ≠ Some (mkMetadata server rid)).
    { intros Hm. apply alreadyRegistered_true in Hm. congruence. }
    destruct (getServer rid st) as [[r sd]|] eqn:Hget.
    + destruct (decide (serverWs sd ≠ ws)) as [Hne | Heq].
      * apply (consistent_installed rid ws _ (evicted rid (serverWs sd) st)).
        -- intros ws' Hws' Hm. unfold evicted in Hm. simpl in Hm.
           apply lookup_delete_Some in Hm as [Hold Hm].
           destruct (Hc ws' rid Hm) as (r' & sd' & Hget' & Hws'').
           congruence.
        -- intros ws' rid' Hws' Hrid' Hm. unfold evicted in Hm. simpl in Hm.
           apply lookup_delete_Some in Hm as [Hold Hm].
           destruct (Hc ws' rid' Hm) as (r' & sd' & Hget' & Hws'').
           exists r', sd'. split; [| done].
           apply getServer_Some in Hget' as [Hs Hh]. apply getServer_Some.
           unfold evicted. simpl. by rewrite lookup_delete_ne.
      * apply dec_stable in Heq.
        apply (consistent_installed rid ws _ st).
        -- intros ws' Hws' Hm.
           destruct (Hc ws' rid Hm) as (r' & sd' & Hget' & Hws'').
           congruence.
        -- intros ws' rid' _ _ Hm. by apply Hc.
    + apply (consistent_installed rid ws _ st).
      * intros ws' Hws' Hm.
        destruct (Hc ws' rid Hm) as (r' & sd' & Hget' & Hws''). congruence.
      * intros ws' rid' _ _ Hm. by apply Hc.
Qed.

Lemma dispatch_consistent now rnd ws message st :
  registryConsistent st →
  registryConsistent (dispatch now rnd ws message st).1.
Proof.
  intros Hc. unfold dispatch. repeat case_decide; try done.
  - by apply handleServerRegister_consistent.
  - by apply handleConnectRequest_consistent.
  - eapply sameRegistry_consistent; [apply handleSessionReady_registry | done].
Qed.

Lemma handleMessage_consistent now now' rnd ws message st :
  registryConsistent st →
  registryConsistent (handleMessage now now' rnd ws message st).1.
Proof.
  intros Hc. unfold handleMessage.
  case_decide; [| by apply dispatch_consistent].
  pose proof (checkRateLimit_registry now ws st) as Hreg.
  destruct (checkRateLimit now ws st) as [[st1 sent] ok]. simpl in Hreg.
  pose proof (sameRegistry_consistent _ _ Hreg Hc) as Hc1.
  destruct ok; [| done].
  pose proof (dispatch_consistent now' rnd ws message st1 Hc1) as Hc2.
  by destruct (dispatch now' rnd ws message st1).
Qed.

Lemma step_consistent e st :
  registryConsistent st → registryConsistent (step e st).1.
Proof.
  intros Hc.
  destruct e as [ws ip | now now' rnd ws message | ws | t | now]; simpl.
  - done.
  - by apply handleMessage_consistent.
  - by apply handleDisconnect_consistent.
  - eapply sameRegistry_consistent; [apply fireTimer_registry | done].
  - done.
Qed.

Lemma run_consistent es : ∀ st,
  registryConsistent st → registryConsistent (run es st).1.
Proof.
  induction es as [|e es IH]; intros st Hc; [done |]. simpl.
  pose proof (IH (step e st).1 (step_consistent e st Hc)) as Hc2.
  destruct (step e st) as [st1 out1]. simpl in Hc2.
  by destruct (run es st1) as [st2 out2].
Qed.

Lemma create_consistent rl : registryConsistent (create rl).
Proof. intros ws rid Hm. simpl in Hm. by rewrite lookup_empty in Hm. Qed.

(** In a consistent registry, a connection other than the one on record
    for [rid] does not hold the identity (server, rid). *)
Lemma other_connection_not_registered st rid r sd ws :
  registryConsistent st →
  getServer rid st = Some (r, sd) → serverWs sd ≠ ws →
  alreadyRegistered ws rid st = false.
Proof.
  intros Hc Hget Hne. apply not_true_is_false. intros Ha.
  apply alreadyRegistered_true in Ha.
  destruct (Hc ws rid Ha) as (r' & sd' & Hget' & Hws). congruence.
Qed.

(** *** The deadline timers stay armed *)

Lemma sameTimers_armed st st' :
  sameTimers st st' → timersArmed st → timersArmed st'.
Proof.
  intros (Hp & Ht & Hn) [Ha Hb]. unfold timersArmed.
  rewrite Hp, Ht, Hn. by split.
Qed.

(** Removing a pending record together with its timer. *)
Lemma armed_remove sid p t st st' :
  pendingClients st !! sid = Some p → timeout p = Some t →
  pendingClients st' = delete sid (pendingClients st) →
  timers st' = delete t (timers st) →
  nextTimer st' = nextTimer st →
  timersArmed st → timersArmed st'.
Proof.
  intros Hp Ht Hp' Ht' Hn [Ha Hb]. split.
  - intros sid' p' Hs. rewrite Hp' in Hs.
    apply lookup_delete_Some in Hs as [Hne Hs].
    destruct (Ha sid' p' Hs) as (t' & c' & Hto & Htm & Hc).
    exists t', c'. split_and!; try done.
    rewrite Ht'. rewrite lookup_delete_ne; [done |].
    intros <-. destruct (Ha sid p Hp) as (t2 & c2 & Hto2 & Htm2 & Hc2).
    congruence.
  - intros t' c' Hs. rewrite Ht' in Hs. rewrite Hn.
    apply lookup_delete_Some in Hs as [_ Hs]. by eapply Hb.
Qed.

Lemma handleSessionReady_armed ws message st :
  timersArmed st → timersArmed (handleSessionReady ws message st).1.
Proof.
  intros Hc. unfold handleSessionReady.
  destruct (presentSessionId message) as [sid|]; [| done].
  destruct (pendingClients st !! sid) as [p|] eqn:Hp; [| done].
  destruct (wsMetadata st !! ws) as [[[] rid]|]; try done.
  destruct (proj1 Hc sid p Hp) as (t & c & Hto & Htm & Hcs).
  cbn [fst]. rewrite Hto. by eapply (armed_remove sid p t st).
Qed.

Lemma fireTimer_armed t st :
  timersArmed st → timersArmed (fireTimer t st).1.
Proof.
  intros [Ha Hb]. unfold fireTimer, fallbackTimeout.
  destruct (timers st !! t) as [c|] eqn:Ht; [| done]. cbn [pendingClients setTimers].
  destruct (pendingClients st !! closureSessionId c) as [p|] eqn:Hp.
  - destruct (Ha _ p Hp) as (t' & c' & Hto & Htm & Hcs).
    cbn [fst]. split.
    + intros sid' p' Hs. simpl in Hs.
      apply lookup_delete_Some in Hs as [Hne Hs].
      destruct (Ha sid' p' Hs) as (t2 & c2 & Hto2 & Htm2 & Hc2).
      exists t2, c2. split_and!; try done. simpl.
      rewrite lookup_delete_ne; [done |]. intros <-. congruence.
    + intros t2 c2 Hs. simpl in Hs.
      apply lookup_delete_Some in Hs as [_ Hs]. simpl. by eapply Hb.
  - cbn [fst]. split.
    + intros sid' p' Hs. simpl in Hs.
      destruct (Ha sid' p' Hs) as (t2 & c2 & Hto2 & Htm2 & Hc2).
      exists t2, c2. split_and!; try done. simpl.
      rewrite lookup_delete_ne; [done |]. intros <-. congruence.
    + intros t2 c2 Hs. simpl in Hs.
      apply lookup_delete_Some in Hs as [_ Hs]. simpl. by eapply Hb.
Qed.

Lemma handleConnectRequest_armed now rnd ws message st :
  timersArmed st → timersArmed (handleConnectRequest now rnd ws message st).1.
Proof.
  intros [Ha Hb]. unfold handleConnectRequest.
  destruct (normalizedRemoteId message) as [rid|]; [| done].
  destruct (getServer rid st) as [[r sd]|].
  - cbn [fst]. split.
    + intros sid' p' Hs. simpl in Hs.
      apply lookup_insert_Some in Hs as [[<- <-] | [Hne Hs]].
      * eexists _, _. simpl. split_and!; [done | apply lookup_insert_eq | done].
      * destruct (Ha sid' p' Hs) as (t2 & c2 & Hto2 & Htm2 & Hc2).
        exists t2, c2. split_and!; try done. simpl.
        rewrite lookup_insert_ne; [done |].
        pose proof (Hb t2 c2 Htm2). lia.
    + intros t2 c2 Hs. simpl in Hs. simpl.
      apply lookup_insert_Some in Hs as [[<- _] | [_ Hs]]; [lia |].
      pose proof (Hb t2 c2 Hs). lia.
  - destruct (wsClientIp st !! ws) as [ip|]; [| done].
    destruct (decide (ip = "")); [done |].
    destruct (RateLimiter.recordFailedLookup now ip (rateLimiter st))
      as [rl []]; done.
Qed.

Lemma handleServerRegister_timers ws message st :
  sameTimers st (handleServerRegister ws message st).1.
Proof.
  unfold handleServerRegister, allocServerData, sameTimers.
  by handler_cases.
Qed.

Lemma checkRateLimit_timers now ws st :
  sameTimers st (checkRateLimit now ws st).1.1.
Proof. unfold checkRateLimit, sameTimers. by handler_cases. Qed.

(** Clearing the timers of a list of pending records. *)
Lemma clearTimeouts_timers (l : list (string * PendingClient)) st :
  let st1 :=
    foldr (λ (kv : string * PendingClient) s, clearTimeout (timeout kv.2) s)
      st l in
  pendingClients st1 = pendingClients st
  ∧ nextTimer st1 = nextTimer st
  ∧ (∀ t c, timers st1 !! t = Some c → timers st !! t = Some c)
  ∧ (∀ t, (∀ kv, kv ∈ l → timeout kv.2 ≠ Some t) →
          timers st1 !! t = timers st !! t).
Proof.
  induction l as [|kv l (IHp & IHn & IHs & IHt)]; simpl; [done |].
  set (st1 := foldr _ st l) in *.
  destruct (timeout kv.2) as [t0|] eqn:Hto; simpl.
  - split_and!; try done.
    + intros t c Hs. apply lookup_delete_Some in Hs as [_ Hs]. by apply IHs.
    + intros t Hno. rewrite lookup_delete_ne.
      * apply IHt. intros kv0 Hin. apply Hno. by right.
      * intros <-. apply (Hno kv); [left | done].
  - split_and!; try done.
    intros t Hno. apply IHt. intros kv0 Hin. apply Hno. by right.
Qed.

Lemma cleanPending_armed rid st :
  timersArmed st → timersArmed (cleanPending rid st).1.
Proof.
  intros [Ha Hb]. unfold cleanPending. cbn [fst].
  set (gone := map_to_list (filter (boundToPending rid) (pendingClients st))).
  destruct (clearTimeouts_timers gone st) as (Hp & Hn & Hsub & Ht).
  set (st1 := foldr _ st gone) in *. split.
  - intros sid p Hs. simpl in Hs. rewrite Hp in Hs.
    apply map_lookup_filter_Some in Hs as [Hs Hkeep]. simpl in Hkeep.
    destruct (Ha sid p Hs) as (t & c & Hto & Htm & Hc).
    exists t, c. split_and!; try done. simpl. rewrite Ht; [done |].
    intros [sid' p'] Hin Hto'. subst gone.
    apply elem_of_map_to_list in Hin.
    apply map_lookup_filter_Some in Hin as [Hs' Hgone]. simpl in *.
    destruct (Ha sid' p' Hs') as (t' & c' & Hto2 & Htm2 & Hc2).
    assert (sid' = sid) by congruence. subst sid'.
    assert (p' = p) by congruence. subst p'. done.
  - intros t c Hs. simpl in Hs. simpl. rewrite Hn. eapply Hb. by apply Hsub.
Qed.

Lemma handleDisconnect_armed ws st :
  timersArmed st → timersArmed (handleDisconnect ws st).1.
Proof.
  intros Hc. unfold handleDisconnect.
  destruct (wsMetadata st !! ws) as [[[] rid]|] eqn:Hmeta; [| | done].
  - destruct (getServer rid st) as [[r sd]|] eqn:Hget;
      [| by eapply sameTimers_armed].
    destruct (decide (serverWs sd = ws)) as [Hws | Hne];
      [| by eapply sameTimers_armed].
    set (st2 := setWsMetadata _ _).
    assert (H1 : timersArmed (notifyClients rid st2).1)
      by (by eapply sameTimers_armed).
    destruct (notifyClients rid st2) as [st3 sent1].
    pose proof (cleanPending_armed rid st3 H1) as H2.
    destruct (cleanPending rid st3) as [st4 sent2].
    by eapply sameTimers_armed.
  - set (st1 := match pendingClients st !! rid with
                | Some _ => _ | None => _ end).
    assert (Hst1 : timersArmed st1).
    { subst st1. destruct (pendingClients st !! rid) as [p|] eqn:Hp; [| done].
      destruct (proj1 Hc rid p Hp) as (t & c & Hto & Htm & Hcs).
      rewrite Hto. by eapply (armed_remove rid p t st). }
    destruct (clients st1 !! rid); by eapply sameTimers_armed.
Qed.

Lemma dispatch_armed now rnd ws message st :
  timersArmed st → timersArmed (dispatch now rnd ws message st).1.
Proof.
  intros Hc. unfold dispatch. repeat case_decide; try done.
  - eapply sameTimers_armed; [apply handleServerRegister_timers | done].
  - by apply handleConnectRequest_armed.
  - by apply handleSessionReady_armed.
Qed.

Lemma handleMessage_armed now now' rnd ws message st :
  timersArmed st → timersArmed (handleMessage now now' rnd ws message st).1.
Proof.
  intros Hc. unfold handleMessage.
  case_decide; [| by apply dispatch_armed].
  pose proof (checkRateLimit_timers now ws st) as Hreg.
  destruct (checkRateLimit now ws st) as [[st1 sent] ok]. simpl in Hreg.
  pose proof (sameTimers_armed _ _ Hreg Hc) as Hc1.
  destruct ok; [| done].
  pose proof (dispatch_armed now' rnd ws message st1 Hc1) as Hc2.
  by destruct (dispatch now' rnd ws message st1).
Qed.

Lemma step_armed e st : timersArmed st → timersArmed (step e st).1.
Proof.
  intros Hc.
  destruct e as [ws ip | now now' rnd ws message | ws | t | now]; simpl.
  - done.
  - by apply handleMessage_armed.
  - by apply handleDisconnect_armed.
  - by apply fireTimer_armed.
  - done.
Qed.

Lemma run_armed es : ∀ st, timersArmed st → timersArmed (run es st).1.
Proof.
  induction es as [|e es IH]; intros st Hc; [done |]. simpl.
  pose proof (IH (step e st).1 (step_armed e st Hc)) as Hc2.
  destruct (step e st) as [st1 out1]. simpl in Hc2.
  by destruct (run es st1) as [st2 out2].
Qed.

Lemma create_armed rl : timersArmed (create rl).
Proof. split; intros ? ? H; simpl in H; by rewrite lookup_empty in H. Qed.

(** *** Session broker *)

(** C1 (as the code has it): a [session-ready] for a pending session, sent
    by a connection whose identity is a server registered as [rid],
    promotes the session to an active one whose [remoteId] is [rid], the id
    of the caller's own identity record.  Nothing but [sessionId] is read
    from the message for the new record (another message with the same
    [sessionId] leaves the same state), and the [remoteId] stored in the
    pending record is not consulted: the two agree when the caller is
    registered under the id the session is pending toward. *)
Theorem handleSessionReady_remoteId_of_caller
    (ws : WS) (message : SignalingMessage) (st : Core)
    (sid rid : string) (pending : PendingClient) :
  presentSessionId message = Some sid →
  pendingClients st !! sid = Some pending →
  wsMetadata st !! ws = Some (mkMetadata server rid) →
  let st' := (handleSessionReady ws message st).1 in
  clients st' !! sid = Some (mkClientData (pendingWs pending) rid)
  ∧ pendingClients st' !! sid = None
  ∧ (handleSessionReady ws message st).2 =
      [Send (pendingWs pending)
         (connectedMessage rid sid (iceServers message))]
  ∧ (∀ message', presentSessionId message' = Some sid →
       (handleSessionReady ws message' st).1 = st')
  ∧ (pendingRemoteId pending = rid →
       clients st' !! sid
       = Some (mkClientData (pendingWs pending) (pendingRemoteId pending))).
Proof.
  intros Hsid Hp Hm st'. subst st'.
  rewrite (handleSessionReady_server ws message st sid pending rid) by done.
  cbn [fst snd]. split_and!.
  - apply promoted_clients.
  - apply promoted_pending.
  - done.
  - intros message' Hsid'.
    by rewrite (handleSessionReady_server ws message' st sid pending rid).
  - intros Heq. rewrite Heq. apply promoted_clients.
Qed.

Lemma handleSessionReady_remoteId_of_caller_witness :
  let st := stateAfter twoServersOneClient in
  let message := sessionReady "AAAAAAAAAAAAAAAA" (Some [stun "stun:a"]) in
  clients (handleSessionReady 1 message st).1 !! "AAAAAAAAAAAAAAAA"
  = Some (mkClientData 3 "AAA").
Proof.
  intros st message.
  exact (proj1 (handleSessionReady_remoteId_of_caller 1 message st
                  "AAAAAAAAAAAAAAAA" "AAA"
                  (mkPendingClient 3 "AAA" (Some 1%nat))
                  eq_refl ltac:(vm_compute; reflexivity)
                  ltac:(vm_compute; reflexivity))).
Defined.

(** C1 as stated fails: the promoted session carries the caller's id BBB,
    not the id AAA stored in the pending record. *)
Lemma sessionReady_hijack :
  pendingClients (stateAfter twoServersOneClient) !! "AAAAAAAAAAAAAAAA"
  = Some (mkPendingClient 3 "AAA" (Some 1%nat))
  ∧ clients (stateAfter hijack) !! "AAAAAAAAAAAAAAAA"
    = Some (mkClientData 3 "BBB")
  ∧ (run [ Message 30 30 zeroDraws 2
             (sessionReady "AAAAAAAAAAAAAAAA" None) ]
         (stateAfter twoServersOneClient)).2
    = [Send 3 (connectedMessage "BBB" "AAAAAAAAAAAAAAAA" None)].
Proof. split_and!; vm_compute; reflexivity. Qed.




(** C5: in every state the core can reach (see [run_armed]) each pending
    session has its deadline timer armed, and whichever of the server's
    [session-ready] and the deadline comes first promotes the session,
    removes the pending record and leaves the timer unarmed; the other one
    then finds no pending record and changes nothing and sends nothing. *)
Theorem promotion_happens_once
    (st : Core) (ws : WS) (message : SignalingMessage) (sid rid : string)
    (pending : PendingClient) :
  timersArmed st →
  presentSessionId message = Some sid →
  wsMetadata st !! ws = Some (mkMetadata server rid) →
  pendingClients st !! sid = Some pending →
  ∃ t c,
    timeout pending = Some t
    ∧ timers st !! t = Some c
    ∧ closureSessionId c = sid
    ∧ (let st1 := (handleSessionReady ws message st).1 in
       clients st1 !! sid = Some (mkClientData (pendingWs pending) rid)
       ∧ pendingClients st1 !! sid = None
       ∧ timers st1 !! t = None
       ∧ fireTimer t st1 = (st1, [])
       ∧ fallbackTimeout c st1 = (st1, []))
    ∧ (let st2 := (fireTimer t st).1 in
       clients st2 !! sid
       = Some (mkClientData (pendingWs pending) (closureRemoteId c))
       ∧ pendingClients st2 !! sid = None
       ∧ timers st2 !! t = None
       ∧ handleSessionReady ws message st2 = (st2, [])).
Proof.
  intros Harmed Hsid Hm Hp.
  destruct (proj1 Harmed sid pending Hp) as (t & c & Ht & Hc & Hcs).
  exists t, c. split_and!; try done.
  - cbv zeta.
    rewrite (handleSessionReady_server ws message st sid pending rid) by done.
    cbn [fst].
    assert (Hp1 : pendingClients (promoted sid rid pending st) !! sid = None)
      by apply promoted_pending.
    assert (Ht1 : timers (promoted sid rid pending st) !! t = None).
    { unfold promoted. rewrite Ht. simpl. apply lookup_delete_eq. }
    split_and!.
    + apply promoted_clients.
    + done.
    + done.
    + unfold fireTimer. by rewrite Ht1.
    + unfold fallbackTimeout. by rewrite Hcs, Hp1.
  - cbv zeta. subst sid.
    rewrite (fireTimer_pending t c pending st) by done. cbn [fst].
    split_and!.
    + apply lookup_insert_eq.
    + apply lookup_delete_eq.
    + apply lookup_delete_eq.
    + apply (handleSessionReady_not_pending _ _ _ (closureSessionId c));
        [done | apply lookup_delete_eq].
Qed.

Lemma promotion_happens_once_witness :
  let st := stateAfter clientWaiting in
  let message := sessionReady "AAAAAAAAAAAAAAAA" None in
  fireTimer 1 (handleSessionReady 1 message st).1
  = ((handleSessionReady 1 message st).1, [])
  ∧ handleSessionReady 1 message (fireTimer 1 st).1
    = ((fireTimer 1 st).1, []).
Proof.
  intros st message.
  destruct (promotion_happens_once st 1 message "AAAAAAAAAAAAAAAA" "AAA"
              (mkPendingClient 3 "AAA" (Some 1%nat)))
    as (t & c & Ht & _ & _ & (_ & _ & _ & H1 & _) & (_ & _ & _ & H2));
    [apply run_armed, create_armed | reflexivity | vm_compute; reflexivity
    | vm_compute; reflexivity |].
  injection Ht as <-. exact (conj H1 H2).
Defined.

(** C6 (as the code has it): the pending check comes before the identity
    check.  A [session-ready] whose session id is not pending is ignored,
    with no message sent and the state unchanged, whoever sends it; one
    whose session id is pending and whose sender's identity is not
    'server' is answered with the error 'Not a registered server', the
    state unchanged. *)
Theorem handleSessionReady_rejections
    (ws : WS) (message : SignalingMessage) (st : Core) (sid : string) :
  presentSessionId message = Some sid →
  (pendingClients st !! sid = None →
     handleSessionReady ws message st = (st, []))
  ∧ (is_Some (pendingClients st !! sid) →
     (∀ rid, wsMetadata st !! ws ≠ Some (mkMetadata server rid)) →
     handleSessionReady ws message st =
       (st, [sendError ws "Not a registered server"])).
Proof.
  intros Hsid. split.
  - by apply handleSessionReady_not_pending.
  - intros [pending Hp] Hm. unfold handleSessionReady. rewrite Hsid, Hp.
    destruct (wsMetadata st !! ws) as [[[] rid]|] eqn:Hmeta; try done.
    by destruct (Hm rid).
Qed.

Lemma handleSessionReady_rejections_witness :
  handleSessionReady 3 (sessionReady "AAAAAAAAAAAAAAAA" None)
    (stateAfter clientWaiting)
  = (stateAfter clientWaiting, [sendError 3 "Not a registered server"])
  ∧ handleSessionReady 3 (sessionReady "BBBBBBBBBBBBBBBB" None)
      (stateAfter clientWaiting)
    = (stateAfter clientWaiting, []).
Proof.
  destruct (handleSessionReady_rejections 3
              (sessionReady "AAAAAAAAAAAAAAAA" None)
              (stateAfter clientWaiting) "AAAAAAAAAAAAAAAA" eq_refl)
    as (_ & H1).
  destruct (handleSessionReady_rejections 3
              (sessionReady "BBBBBBBBBBBBBBBB" None)
              (stateAfter clientWaiting) "BBBBBBBBBBBBBBBB" eq_refl)
    as (H2 & _).
  split.
  - apply H1; [vm_compute; eauto |].
    intros rid. vm_compute. discriminate.
  - apply H2. vm_compute. reflexivity.
Defined.

(** C6 as stated fails: client 3, whose identity is not 'server', sends a
    [session-ready] for a session id that is not pending and gets no
    'Not a registered server' error: nothing is sent at all. *)
Lemma sessionReady_from_client_ignored :
  wsMetadata (stateAfter clientWaiting) !! 3%nat
  = Some (mkMetadata client "AAAAAAAAAAAAAAAA")
  ∧ pendingClients (stateAfter clientWaiting) !! "BBBBBBBBBBBBBBBB" = None
  ∧ handleSessionReady 3 (sessionReady "BBBBBBBBBBBBBBBB" None)
      (stateAfter clientWaiting)
    = (stateAfter clientWaiting, [])
  ∧ (run [Message 30 30 zeroDraws 3 (sessionReady "BBBBBBBBBBBBBBBB" None)]
       (stateAfter clientWaiting)).2 = [].
Proof. split_and!; vm_compute; reflexivity. Qed.

(** C9 (as the code has it): [generateSessionId] draws the id at random
    and does not look at the maps.  Starting from a state in which no
    session id is a key of both [pendingClients] and [clients], this stays
    so along every run of events in which each connect request happens to
    draw an id that is a key of neither map. *)
Theorem sessionIds_disjoint_while_fresh (es : list Event) (st : Core) :
  sessionIdsDisjoint st →
  drawsFreshIds es st →
  sessionIdsDisjoint (run es st).1.
Proof.
  revert st. induction es as [|e es IH]; intros st Hd Hf; [done |].
  destruct Hf as [Hf Hfs]. simpl.
  pose proof (step_disjoint e st Hd Hf) as Hd1.
  specialize (IH (step e st).1 Hd1 Hfs).
  destruct (step e st) as [st1 out1]. simpl in IH.
  by destruct (run es st1) as [st2 out2].
Qed.

Lemma sessionIds_disjoint_while_fresh_witness :
  sessionIdsDisjoint (stateAfter sessionActive).
Proof.
  apply (sessionIds_disjoint_while_fresh sessionActive initial).
  - apply create_disjoint.
  - vm_compute. tauto.
Defined.

(** C9 as stated fails: the new pending session reuses the id of the
    active session, which is then a key of both maps. *)
Lemma sessionId_reused :
  clients (stateAfter sessionActive) !! "AAAAAAAAAAAAAAAA"
  = Some (mkClientData 3 "AAA")
  ∧ clients (stateAfter sameIdDrawn) !! "AAAAAAAAAAAAAAAA"
    = Some (mkClientData 3 "AAA")
  ∧ pendingClients (stateAfter sameIdDrawn) !! "AAAAAAAAAAAAAAAA"
    = Some (mkPendingClient 4 "AAA" (Some 2%nat))
  ∧ ¬ sessionIdsDisjoint (stateAfter sameIdDrawn).
Proof.
  assert (Hc : clients (stateAfter sameIdDrawn) !! "AAAAAAAAAAAAAAAA"
               = Some (mkClientData 3 "AAA")) by (vm_compute; reflexivity).
  assert (Hp : pendingClients (stateAfter sameIdDrawn) !! "AAAAAAAAAAAAAAAA"
               = Some (mkPendingClient 4 "AAA" (Some 2%nat)))
    by (vm_compute; reflexivity).
  split; [vm_compute; reflexivity |].
  split; [exact Hc |]. split; [exact Hp |].
  unfold sessionIdsDisjoint. intros Hd.
  apply (Hd "AAAAAAAAAAAAAAAA"); apply elem_of_dom; eauto.
Qed.

(** *** Connection registry *)

(** C8 (as the code has it): in a consistent registry (every state the
    core can reach, see [run_consistent]), when [remoteId] (of ASCII
    characters, upper-cased) is registered by connection [A], a
    [register-server] for it from another connection [B] closes [A] with
    code 4000 ('Replaced by new connection'), removes the registry entry
    and the identity entry of [A], and leaves the id registered to [B]
    alone.  A [register-server] from [A] itself is a refresh only while the
    identity of [A] is still (server, remoteId): then it updates
    [iceServers] when the message has them, replies [registered], and
    doing it again changes nothing more.  When the identity of [A] is
    another one (it was overwritten by a [connect-request] of [A] or by
    the registration of a second id) the handler goes on to register:
    nothing is closed, but a new [ServerData] object with the
    [iceServers] of the message, or none, takes the place of the old one,
    the identity of [A] becomes (server, remoteId), and the registration
    is logged before the reply. *)
Theorem handleServerRegister_replace_or_refresh
    (st : Core) (A B : WS) (message : SignalingMessage) (raw : string)
    (r : Ref) (sd : ServerData) :
  registryConsistent st →
  remoteId message = Some raw →
  asciiOnly raw = true →
  toUpperCase raw ≠ "" →
  servers st !! toUpperCase raw = Some r →
  heap st !! r = Some sd →
  serverWs sd = A →
  let rid := toUpperCase raw in
  (A ≠ B →
     let st' := (handleServerRegister B message st).1 in
     (handleServerRegister B message st).2 =
       [Close A 4000 "Replaced by new connection";
        Log ("✓ Server registered: " +:+ rid);
        Send B (registeredMessage rid)]
     ∧ wsMetadata st' !! A = None
     ∧ wsMetadata st' !! B = Some (mkMetadata server rid)
     ∧ (∃ r', r' ≠ r ∧ servers st' !! rid = Some r')
     ∧ getServer rid st' =
         Some (fresh (dom (heap st)), mkServerData B (iceServers message)))
  ∧ (alreadyRegistered A rid st = true →
     let st' := (handleServerRegister A message st).1 in
     (handleServerRegister A message st).2 = [Send A (registeredMessage rid)]
     ∧ st' =
         match iceServers message with
         | Some ice => setHeap (<[r := mkServerData A (Some ice)]> (heap st)) st
         | None => st
         end
     ∧ handleServerRegister A message st' =
         (st', [Send A (registeredMessage rid)]))
  ∧ (alreadyRegistered A rid st = false →
     let st' := (handleServerRegister A message st).1 in
     (handleServerRegister A message st).2 =
       [Log ("✓ Server registered: " +:+ rid);
        Send A (registeredMessage rid)]
     ∧ st' = installed rid A (iceServers message) st
     ∧ wsMetadata st' !! A = Some (mkMetadata server rid)
     ∧ getServer rid st' =
         Some (fresh (dom (heap st)), mkServerData A (iceServers message))
     ∧ fresh (dom (heap st)) ≠ r
     ∧ heap st' !! r = Some sd).
Proof.
  intros Hcons Hraw _ Hne Hs Hh HA rid.
  assert (Hrid : normalizedRemoteId message = Some rid)
    by (apply normalizedRemoteId_Some; eauto).
  assert (Hget : getServer rid st = Some (r, sd)) by by apply getServer_Some.
  split; [| split].
  - intros HAB.
    assert (Ha : alreadyRegistered B rid st = false)
      by (eapply other_connection_not_registered; [done | done | congruence]).
    cbv zeta.
    rewrite (handleServerRegister_replace B message st rid r sd)
      by (done || congruence).
    cbn [fst snd]. rewrite HA. split_and!.
    + done.
    + unfold installed, evicted; simpl.
      rewrite lookup_insert_ne by done. apply lookup_delete_eq.
    + unfold installed, evicted; simpl. apply lookup_insert_eq.
    + exists (fresh (dom (heap st))). split.
      * exact (heap_fresh_ne st r sd Hh).
      * unfold installed, evicted; simpl. apply lookup_insert_eq.
    + apply getServer_Some. unfold installed, evicted; simpl.
      split; apply lookup_insert_eq.
  - intros Ha. cbv zeta.
    rewrite (handleServerRegister_refresh A message st rid) by done.
    rewrite Hget, HA. cbn [fst snd]. split_and!; try done.
    destruct (iceServers message) as [ice|] eqn:Hice.
    + rewrite (handleServerRegister_refresh A message _ rid) by done.
      rewrite Hice.
      assert (Hget' : getServer rid
                (setHeap (<[r := mkServerData A (Some ice)]> (heap st)) st)
              = Some (r, mkServerData A (Some ice))).
      { apply getServer_Some. simpl. split; [done | apply lookup_insert_eq]. }
      rewrite Hget'. simpl. unfold setHeap; simpl.
      by rewrite insert_insert_eq.
    + rewrite (handleServerRegister_refresh A message _ rid) by done.
      by rewrite Hget, Hice.
  - intros Ha. cbv zeta.
    assert (Hst : handleServerRegister A message st =
      (installed rid A (iceServers message) st,
       [Log ("✓ Server registered: " +:+ rid);
        Send A (registeredMessage rid)])).
    { unfold handleServerRegister. rewrite Hrid, Ha, Hget.
      rewrite decide_False by (intros Hn; by apply Hn). done. }
    rewrite Hst. cbn [fst snd]. split_and!; try done.
    + unfold installed; simpl. apply lookup_insert_eq.
    + apply getServer_Some. unfold installed; simpl.
      split; apply lookup_insert_eq.
    + exact (heap_fresh_ne st r sd Hh).
    + unfold installed; simpl. rewrite lookup_insert_ne; [done |].
      exact (heap_fresh_ne st r sd Hh).
Qed.

Lemma handleServerRegister_replace_or_refresh_witness :
  let st := stateAfter serverOnline in
  (handleServerRegister 2 (registerServer "aaa" None) st).2 =
    [Close 1 4000 "Replaced by new connection";
     Log "✓ Server registered: AAA";
     Send 2 (registeredMessage "AAA")]
  ∧ (handleServerRegister 1 (registerServer "aaa" (Some refreshedIce)) st).2 =
    [Send 1 (registeredMessage "AAA")]
  ∧ (handleServerRegister 1 (registerServer "aaa" None)
       (stateAfter secondIdTaken)).2 =
    [Log "✓ Server registered: AAA"; Send 1 (registeredMessage "AAA")].
Proof.
  intros st.
  destruct (handleServerRegister_replace_or_refresh st 1 2
              (registerServer "aaa" None) "aaa" 0%nat
              (mkServerData 1 (Some cachedIce)))
    as (H1 & _);
    [apply run_consistent, create_consistent | reflexivity | reflexivity
    | vm_compute; discriminate | vm_compute; reflexivity
    | vm_compute; reflexivity | reflexivity |].
  destruct (handleServerRegister_replace_or_refresh st 1 2
              (registerServer "aaa" (Some refreshedIce)) "aaa" 0%nat
              (mkServerData 1 (Some cachedIce)))
    as (_ & H2 & _);
    [apply run_consistent, create_consistent | reflexivity | reflexivity
    | vm_compute; discriminate | vm_compute; reflexivity
    | vm_compute; reflexivity | reflexivity |].
  destruct (handleServerRegister_replace_or_refresh
              (stateAfter secondIdTaken) 1 2
              (registerServer "aaa" None) "aaa" 0%nat
              (mkServerData 1 (Some cachedIce)))
    as (_ & _ & H3);
    [apply run_consistent, create_consistent | reflexivity | reflexivity
    | vm_compute; discriminate | vm_compute; reflexivity
    | vm_compute; reflexivity | reflexivity |].
  split; [| split].
  - exact (proj1 (H1 ltac:(vm_compute; discriminate))).
  - exact (proj1 (H2 ltac:(vm_compute; reflexivity))).
  - exact (proj1 (H3 ltac:(vm_compute; reflexivity))).
Defined.

(** C8 as stated fails: connection 1 holds the registration of AAA, with
    two cached ICE servers, and has since registered BBB as well, so its
    identity is (server, BBB).  Its re-registration of AAA without
    [iceServers] is not a refresh: the registration is logged as a new
    one, and the ICE servers cached for AAA, which the message did not
    provide, are gone. *)
Lemma reregistration_erases_iceServers :
  let st := stateAfter secondIdTaken in
  let st' := (handleServerRegister 1 (registerServer "AAA" None) st).1 in
  getServer "AAA" st = Some (0%nat, mkServerData 1 (Some cachedIce))
  ∧ wsMetadata st !! 1%nat = Some (mkMetadata server "BBB")
  ∧ (handleServerRegister 1 (registerServer "AAA" None) st).2 =
      [Log "✓ Server registered: AAA"; Send 1 (registeredMessage "AAA")]
  ∧ (∃ r', getServer "AAA" st' = Some (r', mkServerData 1 None))
  ∧ st' ≠ st.
Proof.
  intros st st'.
  assert (H : getServer "AAA" st' = Some (2%nat, mkServerData 1 None))
    by (vm_compute; reflexivity).
  split_and!; try (vm_compute; reflexivity).
  - by eexists.
  - intros Heq. rewrite Heq in H. vm_compute in H. discriminate.
Qed.

(** C4 (as the code has it): in a consistent registry, when another
    connection [B] registers a
    [remoteId] held by [A], the registration is replaced but the active
    sessions are kept: the disconnect handling of the evicted [A] finds no
    identity entry and does nothing, so every session bound to the
    [remoteId] is still in [clients], now resolving to [B]. *)
Theorem replaced_server_keeps_sessions
    (st : Core) (A B : WS) (message : SignalingMessage) (rid : string)
    (r : Ref) (sd : ServerData) :
  registryConsistent st →
  normalizedRemoteId message = Some rid →
  servers st !! rid = Some r →
  heap st !! r = Some sd →
  serverWs sd = A →
  A ≠ B →
  let st1 := (handleServerRegister B message st).1 in
  handleDisconnect A st1 = (st1, [])
  ∧ clients st1 = clients st
  ∧ (∀ sid session,
       clients st !! sid = Some session → clientRemoteId session = rid →
       clients (handleDisconnect A st1).1 !! sid = Some session)
  ∧ (∃ r', getServer rid st1 = Some (r', mkServerData B (iceServers message))).
Proof.
  intros Hcons Hrid Hs Hh HA HAB st1.
  assert (Hget : getServer rid st = Some (r, sd)) by by apply getServer_Some.
  assert (Ha : alreadyRegistered B rid st = false)
    by (eapply other_connection_not_registered; [done | done | congruence]).
  subst st1.
  rewrite (handleServerRegister_replace B message st rid r sd)
    by (done || congruence).
  cbn [fst]. rewrite HA.
  assert (Hgone : wsMetadata
            (installed rid B (iceServers message) (evicted rid A st)) !! A
          = None).
  { unfold installed, evicted; simpl.
    rewrite lookup_insert_ne by done. apply lookup_delete_eq. }
  assert (Hd : handleDisconnect A
            (installed rid B (iceServers message) (evicted rid A st))
          = (installed rid B (iceServers message) (evicted rid A st), [])).
  { unfold handleDisconnect. by rewrite Hgone. }
  split_and!.
  - done.
  - done.
  - intros sid session Hc _. by rewrite Hd.
  - eexists. apply getServer_Some. unfold installed, evicted; simpl.
    split; apply lookup_insert_eq.
Qed.

Lemma replaced_server_keeps_sessions_witness :
  let st := stateAfter (sessionActive ++ [Connected 2 "198.51.100.2"]) in
  let st1 := (handleServerRegister 2 (registerServer "AAA" None) st).1 in
  handleDisconnect 1 st1 = (st1, []) ∧ clients st1 = clients st.
Proof.
  intros st st1.
  destruct (replaced_server_keeps_sessions st 1 2 (registerServer "AAA" None)
              "AAA" 0%nat (mkServerData 1 (Some cachedIce)))
    as (H1 & H2 & _);
    [apply run_consistent, create_consistent | vm_compute; reflexivity
    | vm_compute; reflexivity | vm_compute; reflexivity | reflexivity
    | vm_compute; discriminate |].
  exact (conj H1 H2).
Defined.

(** C4 as stated fails: the session created under the old registration is
    still active and bound to AAA after the replacement and the disconnect
    of the evicted connection; an offer of the client now goes to
    connection 2. *)
Lemma session_survives_replacement :
  clients (stateAfter sessionActive) !! "AAAAAAAAAAAAAAAA"
  = Some (mkClientData 3 "AAA")
  ∧ clients (stateAfter serverReplaced) !! "AAAAAAAAAAAAAAAA"
    = Some (mkClientData 3 "AAA")
  ∧ (∃ r ice, getServer "AAA" (stateAfter serverReplaced)
              = Some (r, mkServerData 2 ice))
  ∧ forwardSignalingMessage 3 (offer "sdp") (stateAfter serverReplaced)
    = [Send 2 (withSessionId "AAAAAAAAAAAAAAAA" (offer "sdp"))].
Proof. split_and!; [| | eexists _, _ |]; vm_compute; reflexivity. Qed.

(** *** Message router *)

(** C10: a client whose session is still pending (its id is a key of
    [pendingClients] and not of [clients]) that sends an offer, an answer
    or an ICE candidate gets the error 'Session not found' and nothing is
    sent to anyone else; through [handleMessage] the only other outcome is
    the rate-limit error, also sent to the client alone, and the registry
    is not changed. *)
Theorem pending_client_cannot_forward
    (st : Core) (ws : WS) (message : SignalingMessage) (sid : string) :
  wsMetadata st !! ws = Some (mkMetadata client sid) →
  is_Some (pendingClients st !! sid) →
  clients st !! sid = None →
  type message = "offer" ∨ type message = "answer"
  ∨ type message = "ice-candidate" →
  forwardSignalingMessage ws message st = [sendError ws "Session not found"]
  ∧ ∀ now now' rnd,
      let st' := (handleMessage now now' rnd ws message st).1 in
      let out := (handleMessage now now' rnd ws message st).2 in
      (out = [sendError ws "Session not found"]
       ∨ ∃ secs, out = [Send ws (errorMessage (rateLimitedText secs))])
      ∧ (∃ rl, st' = setRateLimiter rl st).
Proof.
  intros Hm Hp Hc Ht.
  assert (Hf : ∀ s, wsMetadata s = wsMetadata st → clients s = clients st →
            forwardSignalingMessage ws message s
            = [sendError ws "Session not found"]).
  { intros s Hms Hcs. unfold forwardSignalingMessage.
    by rewrite Hms, Hm, Hcs, Hc. }
  split; [by apply Hf |].
  intros now now' rnd. cbv zeta.
  assert (Hd : ∀ s, dispatch now' rnd ws message s
                    = (s, forwardSignalingMessage ws message s)).
  { intros s. unfold dispatch. forwarded_type Ht. }
  unfold handleMessage. rewrite decide_True by (forwarded_type Ht; done).
  destruct (checkRateLimit_cases now ws st)
    as (rl & Hst & [[Hok Hout] | [Hok (secs & Hout)]]).
  - destruct (checkRateLimit now ws st) as [[st1 sent] ok].
    simpl in Hst, Hok, Hout. subst. rewrite Hd. simpl.
    rewrite Hf by done. split; [by left | eauto].
  - destruct (checkRateLimit now ws st) as [[st1 sent] ok].
    simpl in Hst, Hok, Hout. subst. simpl. split; [right | ]; eauto.
Qed.

Lemma pending_client_cannot_forward_witness :
  (handleMessage 30 30 zeroDraws 3 (offer "sdp") (stateAfter clientWaiting)).2
  = [sendError 3 "Session not found"].
Proof.
  destruct (pending_client_cannot_forward (stateAfter clientWaiting) 3
              (offer "sdp") "AAAAAAAAAAAAAAAA") as [_ H];
    [vm_compute; reflexivity | vm_compute; eauto | vm_compute; reflexivity
    | by left |].
  destruct (H 30%Z 30%Z zeroDraws) as [[Hout | [secs Hout]] _].
  - exact Hout.
  - vm_compute in Hout. discriminate Hout.
Defined.

End SignalingCoreProperties.

(** ** Further properties of the rate limiter *)

Section RateLimiterFurther.
Import RateLimiter.
Local Open Scope Z_scope.

(** X1: each address has its own records: a call for one address leaves the
    records of every other address, and the options, as they were. *)
Theorem rate_limiter_per_address (now : Z) (ip other : string) (rl : t) :
  other ≠ ip →
  requests (checkRequest now ip rl).1 !! other = requests rl !! other
  ∧ failedLookups (checkRequest now ip rl).1 = failedLookups rl
  ∧ options (checkRequest now ip rl).1 = options rl
  ∧ requests (recordFailedLookup now ip rl).1 !! other = requests rl !! other
  ∧ failedLookups (recordFailedLookup now ip rl).1 !! other
    = failedLookups rl !! other
  ∧ options (recordFailedLookup now ip rl).1 = options rl.
Proof.
  intros Hne.
  assert (Hc : ∀ r, requests (countRequest now ip r rl).1 !! other
                    = requests rl !! other
                  ∧ failedLookups (countRequest now ip r rl).1
                    = failedLookups rl
                  ∧ options (countRequest now ip r rl).1 = options rl).
  { intros r. unfold countRequest. destruct (_ >? _); simpl;
      by rewrite lookup_insert_ne. }
  split_and!.
  1-3: unfold checkRequest; destruct (requests rl !! ip) as [r|];
       [destruct (blocked r); [destruct (_ <? _); [done |] |] |];
       apply Hc.
  all: unfold recordFailedLookup; destruct (_ >=? _); simpl;
       by rewrite ?lookup_insert_ne.
Qed.

Lemma rate_limiter_per_address_witness :
  requests (checkRequest 1000 "203.0.113.7" blockedOnce).1 !! "198.51.100.1"
  = requests blockedOnce !! "198.51.100.1"
  ∧ failedLookups (recordFailedLookup 1000 "203.0.113.7" nineFailures).1
      !! "198.51.100.1"
    = failedLookups nineFailures !! "198.51.100.1".
Proof.
  destruct (rate_limiter_per_address 1000 "203.0.113.7" "198.51.100.1"
              blockedOnce) as (H1 & _); [discriminate |].
  destruct (rate_limiter_per_address 1000 "203.0.113.7" "198.51.100.1"
              nineFailures) as (_ & _ & _ & _ & H2 & _); [discriminate |].
  exact (conj H1 H2).
Defined.

Lemma ceilSeconds_pos x : 1 <= x → 1 <= ceilSeconds x.
Proof. intros Hx. pose proof (ceilSeconds_spec x). lia. Qed.

Lemma ceilSeconds_le_hour x : x <= maxBlockMs → ceilSeconds x <= 3600.
Proof. unfold maxBlockMs. intros Hx. pose proof (ceilSeconds_spec x). lia. Qed.

Lemma requestBlockDuration_bounds o v :
  1 <= baseBlockDurationMs o → 1 <= v →
  1 <= requestBlockDuration o v <= maxBlockMs.
Proof.
  intros Hb Hv. unfold requestBlockDuration, pow2, maxBlockMs.
  assert (1 <= 2 ^ (v - 1)) by (apply (Z.pow_le_mono_r 2 0 (v - 1)); lia).
  nia.
Qed.

(** X2: [checkRequest] either allows the request, with no retry time, or
    denies it with a retry time of at least one second; a denial that is
    not the answer of a block still running asks for at most 3600
    seconds. *)
Theorem checkRequest_denial_has_retry (now : Z) (ip : string) (rl : t) :
  violationsNonneg rl →
  1 <= baseBlockDurationMs (options rl) →
  let result := (checkRequest now ip rl).2 in
  (allowed result = true ∧ retryAfter result = None)
  ∨ (allowed result = false
     ∧ ∃ seconds, retryAfter result = Some seconds ∧ 1 <= seconds
       ∧ ((∀ r, requests rl !! ip = Some r → blocked r = true →
                blockExpires r <= now) → seconds <= 3600)).
Proof.
  intros Hnn Hb result. subst result.
  assert (Hc : ∀ r, 0 <= violations r →
    let result := (countRequest now ip r rl).2 in
    (allowed result = true ∧ retryAfter result = None)
    ∨ (allowed result = false
       ∧ ∃ seconds, retryAfter result = Some seconds ∧ 1 <= seconds
                    ∧ seconds <= 3600)).
  { intros r Hv. unfold countRequest.
    pose proof (resetWindow_violations (options rl) now r Hv) as Hv'.
    destruct (_ >? _); simpl; [right | by left]. split; [done |].
    eexists. split; [done |].
    pose proof (requestBlockDuration_bounds (options rl)
                  (violations (resetWindow (options rl) now r) + 1)
                  Hb ltac:(lia)) as [Hlo Hhi].
    split; [by apply ceilSeconds_pos | by apply ceilSeconds_le_hour]. }
  assert (Hc' : ∀ r, 0 <= violations r →
    let result := (countRequest now ip r rl).2 in
    (allowed result = true ∧ retryAfter result = None)
    ∨ (allowed result = false
       ∧ ∃ seconds, retryAfter result = Some seconds ∧ 1 <= seconds
         ∧ ((∀ r, requests rl !! ip = Some r → blocked r = true →
                  blockExpires r <= now) → seconds <= 3600))).
  { intros r Hv. destruct (Hc r Hv) as [Ha | (Ha & s & Hs & H1 & H2)];
      [by left | right]. split; [done |]. exists s. by split_and!. }
  unfold checkRequest. destruct (requests rl !! ip) as [r|] eqn:Hr.
  - pose proof (Hnn ip r Hr) as Hv. destruct (blocked r) eqn:Hblocked.
    + destruct (Z.ltb_spec now (blockExpires r)) as [Hlt | Hge].
      * right. simpl. split; [done |]. eexists. split; [done |].
        split; [apply ceilSeconds_pos; lia |].
        intros Hexp. specialize (Hexp r eq_refl Hblocked). lia.
      * by apply Hc'.
    + by apply Hc'.
  - by apply Hc'.
Qed.

Lemma checkRequest_denial_has_retry_witness :
  ∃ seconds,
    retryAfter (checkRequest 100 "203.0.113.7" blockedOnce).2 = Some seconds
    ∧ 1 <= seconds.
Proof.
  destruct (checkRequest_denial_has_retry 100 "203.0.113.7" blockedOnce)
    as [[Ha _] | (_ & s & Hs & Hpos & _)].
  - intros ip r Hr. unfold blockedOnce, withRecord in Hr. simpl in Hr.
    apply lookup_insert_Some in Hr as [[_ <-] | [_ Hr]].
    + simpl. lia.
    + by rewrite lookup_empty in Hr.
  - simpl. lia.
  - vm_compute in Ha. discriminate Ha.
  - exists s. by split.
Defined.

(** X3: a request in a later window is counted as the first of that window
    and takes one violation off the record, never going below zero. *)
Theorem checkRequest_decay (now : Z) (ip : string) (r : RequestRecord) (rl : t) :
  requests rl !! ip = Some r →
  blocked r = false →
  windowMs (options rl) < now - windowStart r →
  0 <= violations r →
  1 <= maxRequests (options rl) →
  checkRequest now ip rl =
    (withRecord ip
       (mkRequestRecord 1 now false (blockExpires r)
          (Z.max 0 (violations r - 1))) rl,
     allowedResult).
Proof.
  intros Hr Hb Hw Hv HN.
  rewrite (checkRequest_unblocked now ip r rl) by done.
  unfold countRequest. rewrite resetWindow_expired by done. simpl.
  rewrite Z.add_0_l.
  destruct (Z.gtb_spec 1 (maxRequests (options rl))); [lia |].
  by rewrite Hb.
Qed.

Lemma checkRequest_decay_witness :
  checkRequest 200000 "203.0.113.7" decaying =
    (withRecord "203.0.113.7" (mkRequestRecord 1 200000 false 60020 1)
       decaying, allowedResult).
Proof.
  exact (checkRequest_decay 200000 "203.0.113.7"
           (mkRequestRecord 3 0 false 60020 2) decaying
           eq_refl eq_refl ltac:(simpl; lia) ltac:(simpl; lia)
           ltac:(simpl; lia)).
Defined.

Lemma withFailedLookup_twice ip f f' rl :
  withFailedLookup ip f (withFailedLookup ip f' rl) = withFailedLookup ip f rl.
Proof. unfold withFailedLookup; simpl. by rewrite insert_insert_eq. Qed.

Lemma countedLookup_within now ip f rl :
  failedLookups rl !! ip = Some f →
  now - failedWindowStart f <= failedLookupWindowMs (options rl) →
  countedLookup now ip rl
  = mkFailedLookupRecord (failedCount f + 1) (failedWindowStart f).
Proof.
  intros Hf Hw. unfold countedLookup. rewrite Hf.
  by destruct (Z.gtb_spec (now - failedWindowStart f)
                 (failedLookupWindowMs (options rl))); [lia |].
Qed.

Lemma recordFailedLookup_below now ip rl :
  failedCount (countedLookup now ip rl) < maxFailedLookups (options rl) →
  recordFailedLookup now ip rl
  = (withFailedLookup ip (countedLookup now ip rl) rl, false).
Proof.
  intros Hlt. unfold recordFailedLookup.
  by destruct (Z.geb_spec (failedCount (countedLookup now ip rl))
                 (maxFailedLookups (options rl))); [lia |].
Qed.

Lemma recordFailedLookups_below ip times : ∀ f rl,
  Forall (λ now, now - failedWindowStart f
                 <= failedLookupWindowMs (options rl)) times →
  failedCount f + Z.of_nat (length times) < maxFailedLookups (options rl) →
  recordFailedLookups ip times (withFailedLookup ip f rl) =
    (withFailedLookup ip
       (mkFailedLookupRecord (failedCount f + Z.of_nat (length times))
          (failedWindowStart f)) rl,
     replicate (length times) false).
Proof.
  induction times as [|now rest IH]; intros f rl Hw Hc.
  - simpl. rewrite Z.add_0_r. by destruct f.
  - apply Forall_cons in Hw as [Hnow Hrest]. simpl length in *.
    cbn [recordFailedLookups].
    assert (Hcl : countedLookup now ip (withFailedLookup ip f rl)
                  = mkFailedLookupRecord (failedCount f + 1)
                      (failedWindowStart f)).
    { apply countedLookup_within; [apply lookup_insert_eq | done]. }
    rewrite recordFailedLookup_below by (rewrite Hcl; simpl in *; lia).
    rewrite Hcl, withFailedLookup_twice.
    rewrite (IH (mkFailedLookupRecord (failedCount f + 1)
                   (failedWindowStart f)) rl); simpl; try done; try lia.
    replace (failedCount f + 1 + Z.of_nat (length rest))
      with (failedCount f + Z.of_nat (S (length rest))) by lia.
    done.
Qed.

(** The result of [recordFailedLookup] at the threshold. *)
Lemma recordFailedLookup_reached now ip rl :
  maxFailedLookups (options rl) <= failedCount (countedLookup now ip rl) →
  recordFailedLookup now ip rl =
    (mkRateLimiter (options rl)
       (<[ip := mkRequestRecord (count (requestRecordOf now ip rl))
                  (windowStart (requestRecordOf now ip rl)) true
                  (now + lookupBlockDuration (options rl)
                           (violations (requestRecordOf now ip rl) + 2))
                  (violations (requestRecordOf now ip rl) + 2)]>
          (requests rl))
       (<[ip := mkFailedLookupRecord 0 now]> (failedLookups rl)),
     true).
Proof.
  intros Hmax. unfold recordFailedLookup.
  destruct (Z.geb_spec (failedCount (countedLookup now ip rl))
              (maxFailedLookups (options rl))) as [_ | Hlt]; [| lia].
  unfold requestRecordOf, default. by destruct (requests rl !! ip).
Qed.

Lemma recordFailedLookups_app ip l1 : ∀ l2 s,
  recordFailedLookups ip (l1 ++ l2) s =
    let '(s1, o1) := recordFailedLookups ip l1 s in
    let '(s2, o2) := recordFailedLookups ip l2 s1 in (s2, o1 ++ o2).
Proof.
  induction l1 as [|a l1 IH]; intros l2 s; simpl.
  - by destruct (recordFailedLookups ip l2 s).
  - destruct (recordFailedLookup a ip s) as [s1 o1]. rewrite IH.
    destruct (recordFailedLookups ip l1 s1) as [s2 o2].
    by destruct (recordFailedLookups ip l2 s2).
Qed.

(** X4: with [maxFailedLookups = M] and the counter of an address at [c],
    [M - c] further failed lookups inside the address's failed-lookup
    window return [false] each time but the last, which returns [true];
    the counter is then back at zero and the address is blocked with two
    more violations. *)
Theorem recordFailedLookups_threshold
    (ip : string) (times : list Z) (last : Z) (f : FailedLookupRecord)
    (rl : t) :
  failedLookups rl !! ip = Some f →
  failedCount f + Z.of_nat (length times) + 1
    = maxFailedLookups (options rl) →
  Forall (λ now, now - failedWindowStart f
                 <= failedLookupWindowMs (options rl)) (times ++ [last]) →
  (recordFailedLookups ip (times ++ [last]) rl).2
    = replicate (length times) false ++ [true]
  ∧ failedLookups (recordFailedLookups ip (times ++ [last]) rl).1 !! ip
    = Some (mkFailedLookupRecord 0 last)
  ∧ ∃ r, requests (recordFailedLookups ip (times ++ [last]) rl).1 !! ip
         = Some r
         ∧ blocked r = true
         ∧ violations r = violations (requestRecordOf last ip rl) + 2.
Proof.
  intros Hf Hlen Hw. apply Forall_app in Hw as [Hw Hlast].
  apply (proj1 (Forall_singleton _ _)) in Hlast. simpl in Hlast.
  assert (Hrl : rl = withFailedLookup ip f rl).
  { unfold withFailedLookup. rewrite insert_id by done. by destruct rl. }
  assert (Heq : recordFailedLookups ip (times ++ [last]) rl
                = recordFailedLookups ip (times ++ [last])
                    (withFailedLookup ip f rl)) by (by rewrite <- Hrl).
  rewrite Heq. clear Heq Hrl. rewrite recordFailedLookups_app.
  rewrite recordFailedLookups_below by (done || lia).
  cbn [recordFailedLookups].
  set (f1 := mkFailedLookupRecord (failedCount f + Z.of_nat (length times))
               (failedWindowStart f)).
  assert (Hcl : countedLookup last ip (withFailedLookup ip f1 rl)
                = mkFailedLookupRecord (failedCount f1 + 1)
                    (failedWindowStart f1)).
  { apply countedLookup_within; [apply lookup_insert_eq | done]. }
  rewrite recordFailedLookup_reached by (rewrite Hcl; simpl; lia).
  simpl. split_and!.
  - done.
  - apply lookup_insert_eq.
  - eexists. split; [apply lookup_insert_eq |]. done.
Qed.

Lemma recordFailedLookups_threshold_witness :
  (recordFailedLookups "203.0.113.7" [1000] nineFailures).2 = [true].
Proof.
  exact (proj1 (recordFailedLookups_threshold "203.0.113.7" [] 1000
                  (mkFailedLookupRecord 9 0) nineFailures
                  eq_refl eq_refl
                  ltac:(repeat constructor; simpl; lia))).
Defined.

(** X5: for a limiter with a base block duration of at least 1 ms and an
    address whose violation count is not negative, once the failed lookups
    of the address reach the threshold, every
    request of the address is denied until the block computed by
    [recordFailedLookup] has run out, with the remaining time in whole
    seconds and without changing the limiter. *)
Theorem failed_lookups_block_requests
    (now later : Z) (ip : string) (rl : t) :
  1 <= baseBlockDurationMs (options rl) →
  0 <= violations (requestRecordOf now ip rl) →
  maxFailedLookups (options rl) <= failedCount (countedLookup now ip rl) →
  later < now + lookupBlockDuration (options rl)
                  (violations (requestRecordOf now ip rl) + 2) →
  let blockedLimiter := (recordFailedLookup now ip rl).1 in
  checkRequest later ip blockedLimiter =
    (blockedLimiter,
     mkCheckResult false
       (Some (ceilSeconds
                (now + lookupBlockDuration (options rl)
                         (violations (requestRecordOf now ip rl) + 2)
                 - later)))).
Proof.
  intros _ _ Hmax Hlater. cbv zeta.
  rewrite recordFailedLookup_reached by done. cbn [fst].
  unfold checkRequest. cbn [requests]. rewrite lookup_insert_eq.
  cbn [blocked blockExpires].
  by destruct (Z.ltb_spec later
                 (now + lookupBlockDuration (options rl)
                          (violations (requestRecordOf now ip rl) + 2)));
    [| lia].
Qed.

Lemma failed_lookups_block_requests_witness :
  (checkRequest 200000 "203.0.113.7"
     (recordFailedLookup 1000 "203.0.113.7" nineFailures).1).2
  = mkCheckResult false (Some 41).
Proof.
  pose proof (failed_lookups_block_requests 1000 200000 "203.0.113.7"
                nineFailures ltac:(simpl; lia) ltac:(vm_compute; discriminate)
                ltac:(vm_compute; discriminate)
                ltac:(vm_compute; reflexivity)) as H.
  cbv zeta in H. rewrite H. vm_compute. reflexivity.
Defined.

Lemma maxAge_windows o :
  0 <= windowMs o → 0 <= failedLookupWindowMs o →
  windowMs o <= maxAge o ∧ failedLookupWindowMs o <= maxAge o.
Proof. unfold maxAge. lia. Qed.

(** X6: [cleanup] forgets only what no longer matters: at any later time
    [checkRequest] gives every address the same answer, and
    [recordFailedLookup] the same verdict, as without the cleanup. *)
Theorem cleanup_keeps_decisions (now later : Z) (ip : string) (rl : t) :
  0 <= windowMs (options rl) →
  0 <= failedLookupWindowMs (options rl) →
  now <= later →
  (checkRequest later ip (cleanup now rl)).2 = (checkRequest later ip rl).2
  ∧ (recordFailedLookup later ip (cleanup now rl)).2
    = (recordFailedLookup later ip rl).2.
Proof.
  intros HW HF Hlater.
  destruct (maxAge_windows (options rl) HW HF) as [HmW HmF].
  fold (maxAge (options rl)) in *. split.
  - unfold checkRequest. cbn [cleanup requests].
    fold (maxAge (options rl)).
    destruct (requests rl !! ip) as [r|] eqn:Hr.
    + destruct (decide (blocked r = false
                        ∧ now - windowStart r > maxAge (options rl)
                        ∧ violations r = 0)) as [(Hb & Hidle & Hv) | Hkeep].
      * rewrite map_lookup_filter_None_2
          by (right; intros r' Hr'; simpl; rewrite Hr in Hr'; naive_solver).
        rewrite Hb. unfold countRequest. cbn [options].
        rewrite (resetWindow_expired _ later r) by lia.
        rewrite (resetWindow_within _ later (freshRecord later))
          by (simpl; lia).
        rewrite Hv. simpl. by destruct (_ >? _).
      * rewrite (map_lookup_filter_Some_2 _ _ ip r) by done.
        destruct (blocked r); [destruct (_ <? _); [done |] |];
          unfold countRequest; cbn [options]; by destruct (_ >? _).
    + rewrite map_lookup_filter_None_2 by (by left).
      unfold countRequest; cbn [options]; by destruct (_ >? _).
  - assert (Hcl : countedLookup later ip (cleanup now rl)
                  = countedLookup later ip rl).
    { unfold countedLookup. cbn [cleanup failedLookups options].
      fold (maxAge (options rl)).
      destruct (failedLookups rl !! ip) as [f|] eqn:Hf.
      - destruct (decide (now - failedWindowStart f > maxAge (options rl)))
          as [Hidle | Hkeep].
        + rewrite map_lookup_filter_None_2
            by (right; intros f' Hf'; simpl; rewrite Hf in Hf'; naive_solver).
          simpl.
          destruct (Z.gtb_spec (later - later)
                      (failedLookupWindowMs (options rl))); [lia |].
          by destruct (Z.gtb_spec (later - failedWindowStart f)
                         (failedLookupWindowMs (options rl))); [| lia].
        + by rewrite (map_lookup_filter_Some_2 _ _ ip f).
      - by rewrite map_lookup_filter_None_2 by (by left). }
    unfold recordFailedLookup. rewrite Hcl. cbn [cleanup options].
    by destruct (_ >=? _).
Qed.

Lemma cleanup_keeps_decisions_witness :
  requests (cleanup 700000 idleLimiter) = ∅
  ∧ (checkRequest 700000 "203.0.113.7" (cleanup 700000 idleLimiter)).2
    = (checkRequest 700000 "203.0.113.7" idleLimiter).2.
Proof.
  split; [vm_compute; reflexivity |].
  exact (proj1 (cleanup_keeps_decisions 700000 700000 "203.0.113.7"
                  idleLimiter ltac:(simpl; lia) ltac:(simpl; lia)
                  ltac:(lia))).
Defined.

(** X7: the statistics never count more blocked addresses than tracked
    ones, and they count no blocked address exactly when no record is
    under a block that still runs. *)
Theorem getStats_blocked_bound (now : Z) (rl : t) :
  (blockedIps (getStats now rl) <= trackedIps (getStats now rl))%nat
  ∧ (blockedIps (getStats now rl) = 0%nat ↔
     ∀ ip r, requests rl !! ip = Some r →
             blocked r = true → blockExpires r <= now).
Proof.
  simpl. split; [apply map_subseteq_size, map_filter_subseteq |].
  rewrite map_size_empty_iff, map_empty.
  setoid_rewrite map_lookup_filter_None. split.
  - intros Hall ip r Hr Hb. destruct (Hall ip) as [Hn | Hn]; [congruence |].
    specialize (Hn r Hr). simpl in Hn.
    destruct (Z.le_gt_cases (blockExpires r) now) as [Hle | Hgt]; [done |].
    exfalso. apply Hn. split; [done | lia].
  - intros Hall ip. right. intros r Hr [Hb Hlt]. simpl in *.
    specialize (Hall ip r Hr Hb). lia.
Qed.

Lemma getStats_blocked_bound_witness :
  (RateLimiter.blockedIps (RateLimiter.getStats 100 blockedOnce)
   <= RateLimiter.trackedIps (RateLimiter.getStats 100 blockedOnce))%nat.
Proof. exact (proj1 (getStats_blocked_bound 100 blockedOnce)). Defined.

(** X8: whatever calls are made on a new limiter, no violation count is
    ever negative. *)
Theorem violations_never_negative (o : Options) (cs : list Call) :
  violationsNonneg (calls cs (create o)).
Proof.
  unfold calls. generalize (violations_nonneg_create o).
  generalize (create o). induction cs as [|c cs IH]; intros rl Hrl; [done |].
  simpl. apply IH. destruct c as [now ip | now ip | now]; simpl.
  - by apply violations_nonneg_checkRequest.
  - by apply violations_nonneg_recordFailedLookup.
  - by apply violations_nonneg_cleanup.
Qed.

Lemma violations_never_negative_witness :
  violationsNonneg
    (calls [CheckRequest 0 "203.0.113.7"; RecordFailedLookup 5 "203.0.113.7";
            Cleanup 10]
       (RateLimiter.create smallOptions)).
Proof. apply violations_never_negative. Defined.

End RateLimiterFurther.

(** ** Further properties of the signaling core *)

Section SignalingCoreFurther.
Import SignalingCore.

Lemma upperAscii_idempotent c : upperAscii (upperAscii c) = upperAscii c.
Proof. by destruct c as [[] [] [] [] [] [] [] []]. Qed.

Lemma toUpperCase_idempotent s : toUpperCase (toUpperCase s) = toUpperCase s.
Proof.
  induction s as [|c s IH]; [done |]. simpl.
  by rewrite upperAscii_idempotent, IH.
Qed.

(** X9: after a [register-server] that is not rejected, [isOnline] answers
    true for the id in any spelling of its letters' case. *)
Theorem registered_is_online
    (ws : WS) (message : SignalingMessage) (raw query : string) (st : Core) :
  registryConsistent st →
  remoteId message = Some raw →
  toUpperCase raw ≠ "" →
  toUpperCase query = toUpperCase raw →
  let st' := (handleServerRegister ws message st).1 in
  isOnline query st' = true
  ∧ isOnline raw st' = true
  ∧ isOnline (toUpperCase raw) st' = true.
Proof.
  intros Hcons Hraw Hne Hq st'.
  assert (Hrid : normalizedRemoteId message = Some (toUpperCase raw))
    by (apply normalizedRemoteId_Some; eauto).
  assert (Hs : is_Some (servers st' !! toUpperCase raw)).
  { subst st'. unfold handleServerRegister. rewrite Hrid.
    destruct (alreadyRegistered ws (toUpperCase raw) st) eqn:Ha.
    - apply alreadyRegistered_true in Ha.
      destruct (Hcons ws _ Ha) as (r & sd & Hget & _). rewrite Hget.
      apply getServer_Some in Hget as [Hsv _].
      destruct (iceServers message); simpl; by rewrite Hsv.
    - destruct (getServer (toUpperCase raw) st) as [[r sd]|];
        [destruct (decide (serverWs sd ≠ ws)) |];
        simpl; rewrite lookup_insert_eq; eauto. }
  unfold isOnline. rewrite Hq, toUpperCase_idempotent.
  by rewrite !bool_decide_eq_true.
Qed.

Lemma registered_is_online_witness :
  isOnline "mYsErVeR1"
    (handleServerRegister 1 (registerServer "MyServer1" None) initial).1
  = true.
Proof.
  exact (proj1 (registered_is_online 1 (registerServer "MyServer1" None)
                  "MyServer1" "mYsErVeR1" initial
                  (create_consistent _) eq_refl ltac:(vm_compute; discriminate)
                  ltac:(vm_compute; reflexivity))).
Defined.

Lemma length_append (s1 s2 : string) :
  String.length (s1 +:+ s2) = (String.length s1 + String.length s2)%nat.
Proof. induction s1 as [|c s1 IH]; simpl; [done | by rewrite IH]. Qed.

Lemma charactersOf_append (s1 s2 : string) :
  charactersOf (s1 +:+ s2) = charactersOf s1 ++ charactersOf s2.
Proof. induction s1 as [|c s1 IH]; simpl; [done | by rewrite IH]. Qed.

Lemma get_charactersOf s i c :
  String.get i s = Some c → c ∈ charactersOf s.
Proof.
  revert i. induction s as [|a s IH]; intros i Hg; [done |].
  destruct i as [|i]; simpl in *.
  - injection Hg as ->. left.
  - right. by eapply IH.
Qed.

Lemma get_in_range s i :
  (i < String.length s)%nat → is_Some (String.get i s).
Proof.
  revert i. induction s as [|a s IH]; intros i Hi; simpl in *; [lia |].
  destruct i as [|i]; [eauto | apply IH; lia].
Qed.

Lemma generateLoop_spec rnd n : ∀ i result,
  (∀ j, (rnd j < 62)%nat) →
  String.length (generateLoop rnd i n result)
  = (String.length result + n)%nat
  ∧ ∀ c, c ∈ charactersOf (generateLoop rnd i n result) →
         c ∈ charactersOf result ∨ c ∈ charactersOf chars.
Proof.
  induction n as [|n IH]; intros i result Hr; cbn [generateLoop].
  - split; [lia | by left].
  - destruct (IH (S i) (result +:+ charAt (rnd i) chars) Hr) as [Hl Hc].
    destruct (get_in_range chars (rnd i)) as [c0 Hc0];
      [specialize (Hr i); by vm_compute |].
    assert (Hat : charAt (rnd i) chars = String c0 EmptyString)
      by (unfold charAt; by rewrite Hc0).
    split.
    + rewrite Hl, length_append, Hat. simpl. lia.
    + intros c Hin. destruct (Hc c Hin) as [Hres | Hch]; [| by right].
      rewrite charactersOf_append, Hat in Hres. simpl in Hres.
      apply elem_of_app in Hres as [Hres | Hres]; [by left | right].
      apply list_elem_of_singleton in Hres as ->.
      exact (get_charactersOf chars _ _ Hc0).
Qed.

(** X10: [generateSessionId] returns sixteen characters, each one of the
    62 letters and digits of [chars]. *)
Theorem generateSessionId_shape (rnd : nat → nat) :
  (∀ i, (rnd i < 62)%nat) →
  String.length (generateSessionId rnd) = 16%nat
  ∧ ∀ c, c ∈ charactersOf (generateSessionId rnd) → c ∈ charactersOf chars.
Proof.
  intros Hr. destruct (generateLoop_spec rnd 16 0 "" Hr) as [Hl Hc].
  split; [done |]. intros c Hin. destruct (Hc c Hin) as [Hin' | ?]; [| done].
  by apply elem_of_nil in Hin'.
Qed.

Lemma generateSessionId_shape_witness :
  String.length (generateSessionId someDraws) = 16%nat.
Proof.
  apply (generateSessionId_shape someDraws).
  intros i. unfold someDraws. apply Nat.mod_upper_bound. lia.
Defined.

(** X11: a [connect-request] for an id of ASCII characters that is not
    registered creates no
    session and leaves the identity of the caller alone; the failed lookup
    is counted once for the caller's address when the address is known,
    and the caller gets the 'Server not found' error as long as the
    counter stays below the threshold. *)
Theorem connect_request_unknown_server
    (now : Z) (rnd : nat → nat) (ws : WS) (message : SignalingMessage)
    (raw rid : string) (st : Core) :
  remoteId message = Some raw →
  asciiOnly raw = true →
  normalizedRemoteId message = Some rid →
  servers st !! rid = None →
  let st' := (handleConnectRequest now rnd ws message st).1 in
  let out := (handleConnectRequest now rnd ws message st).2 in
  pendingClients st' = pendingClients st
  ∧ clients st' = clients st
  ∧ wsMetadata st' = wsMetadata st
  ∧ timers st' = timers st
  ∧ (∀ ip, wsClientIp st !! ws = Some ip → ip ≠ "" →
       rateLimiter st' = (RateLimiter.recordFailedLookup now ip
                            (rateLimiter st)).1
       ∧ ((RateLimiter.failedCount
             (RateLimiter.countedLookup now ip (rateLimiter st))
           < RateLimiter.maxFailedLookups
               (RateLimiter.options (rateLimiter st)))%Z →
          RateLimiter.failedLookups (rateLimiter st') !! ip
          = Some (RateLimiter.countedLookup now ip (rateLimiter st))
          ∧ RateLimiter.requests (rateLimiter st')
            = RateLimiter.requests (rateLimiter st)
          ∧ out = [sendError ws
                     "Server not found. Make sure your Music Assistant server is running and has Remote Access enabled."]))
  ∧ (wsClientIp st !! ws = None → st' = st).
Proof.
  intros _ _ Hrid Hs st' out. subst st' out.
  assert (Hget : getServer rid st = None)
    by (unfold getServer; by rewrite Hs).
  unfold handleConnectRequest. rewrite Hrid, Hget.
  destruct (wsClientIp st !! ws) as [ip|] eqn:Hip.
  - destruct (decide (ip = "")) as [-> | Hne].
    + split_and!; try done. intros ip [= <-] Hne. done.
    + destruct (RateLimiter.recordFailedLookup now ip (rateLimiter st))
        as [rl isBlocked] eqn:Hrec.
      split_and!; try (by destruct isBlocked).
      intros ip' [= <-] _. rewrite Hrec. split; [by destruct isBlocked |].
      intros Hlt. rewrite recordFailedLookup_below in Hrec by done.
      injection Hrec as <- <-. simpl. split_and!; try done.
      apply lookup_insert_eq.
  - split_and!; try done.
Qed.

Lemma connect_request_unknown_server_witness :
  let st := stateAfter (serverOnline ++ [Connected 3 "203.0.113.7"]) in
  pendingClients
    (handleConnectRequest 20 zeroDraws 3 (connectRequest "nobody") st).1
  = pendingClients st.
Proof.
  intros st.
  exact (proj1 (connect_request_unknown_server 20 zeroDraws 3
                  (connectRequest "nobody") "nobody" "NOBODY" st
                  eq_refl eq_refl
                  ltac:(vm_compute; reflexivity)
                  ltac:(vm_compute; reflexivity))).
Defined.





(** The client branch of [handleDisconnect]. *)
Lemma handleDisconnect_client ws sid st :
  wsMetadata st !! ws = Some (mkMetadata client sid) →
  let st' := (handleDisconnect ws st).1 in
  pendingClients st' = delete sid (pendingClients st)
  ∧ clients st' = delete sid (clients st)
  ∧ wsMetadata st' = delete ws (wsMetadata st)
  ∧ wsClientIp st' = delete ws (wsClientIp st)
  ∧ servers st' = servers st
  ∧ heap st' = heap st
  ∧ timers st' =
      match pendingClients st !! sid with
      | Some pending =>
          match timeout pending with
          | Some t => delete t (timers st)
          | None => timers st
          end
      | None => timers st
      end
  ∧ (handleDisconnect ws st).2 =
      match clients st !! sid with
      | Some session =>
          match getServer (clientRemoteId session) st with
          | Some (_, serverData) =>
              [Send (serverWs serverData) (clientDisconnectedMessage sid)]
          | None => []
          end
      | None => []
      end.
Proof.
  intros Hm st'. subst st'. unfold handleDisconnect. rewrite Hm.
  destruct (pendingClients st !! sid) as [p|] eqn:Hp.
  - destruct (timeout p) as [t|] eqn:Ht; simpl;
      destruct (clients st !! sid) as [s|] eqn:Hc; simpl;
      split_and!; try done; by rewrite delete_id.
  - destruct (clients st !! sid) as [s|] eqn:Hc; simpl;
      split_and!; try done; by rewrite delete_id.
Qed.

(** X13: when a client connection disconnects, its session is removed from
    whichever map holds it, with its identity and address.  A pending
    session loses its timer and nobody is told; for an active session the
    server on record for the session's id, if there is one, is sent
    [client-disconnected] with the session id. *)
Theorem client_disconnect_cleans_up (ws : WS) (sid : string) (st : Core) :
  wsMetadata st !! ws = Some (mkMetadata client sid) →
  let st' := (handleDisconnect ws st).1 in
  let out := (handleDisconnect ws st).2 in
  pendingClients st' = delete sid (pendingClients st)
  ∧ clients st' = delete sid (clients st)
  ∧ wsMetadata st' = delete ws (wsMetadata st)
  ∧ wsClientIp st' = delete ws (wsClientIp st)
  ∧ servers st' = servers st
  ∧ (∀ pending t, pendingClients st !! sid = Some pending →
       timeout pending = Some t → timers st' !! t = None)
  ∧ out =
      match clients st !! sid with
      | Some session =>
          match getServer (clientRemoteId session) st with
          | Some (_, serverData) =>
              [Send (serverWs serverData) (clientDisconnectedMessage sid)]
          | None => []
          end
      | None => []
      end.
Proof.
  intros Hm st' out.
  destruct (handleDisconnect_client ws sid st Hm)
    as (Hp & Hc & Hmeta & Hip & Hs & _ & Ht & Hout).
  subst st' out. split_and!; try done.
  intros pending t Hpending Hto. rewrite Ht, Hpending, Hto.
  apply lookup_delete_eq.
Qed.

Lemma client_disconnect_cleans_up_witness :
  (handleDisconnect 3 (stateAfter sessionActive)).2
  = [Send 1 (clientDisconnectedMessage "AAAAAAAAAAAAAAAA")]
  ∧ clients (handleDisconnect 3 (stateAfter sessionActive)).1 = ∅.
Proof.
  destruct (client_disconnect_cleans_up 3 "AAAAAAAAAAAAAAAA"
              (stateAfter sessionActive))
    as (_ & Hc & _ & _ & _ & _ & Hout); [vm_compute; reflexivity |].
  split.
  - rewrite Hout. vm_compute. reflexivity.
  - rewrite Hc. vm_compute. reflexivity.
Defined.

(** X14: the address recorded for a connection by [setClientIp] is removed
    only by a disconnect that finds an identity for the connection.  A
    disconnect of a connection without identity changes nothing and sends
    nothing; so when another connection takes over the id of a registered
    server, the evicted connection's later disconnect leaves its address
    in [wsClientIp] for good. *)
Theorem address_outlives_evicted_connection
    (st : Core) (A B : WS) (message : SignalingMessage) (rid ip : string)
    (r : Ref) (sd : ServerData) :
  registryConsistent st →
  normalizedRemoteId message = Some rid →
  servers st !! rid = Some r →
  heap st !! r = Some sd →
  serverWs sd = A →
  A ≠ B →
  wsClientIp st !! A = Some ip →
  let st1 := (handleServerRegister B message st).1 in
  let st2 := (handleDisconnect A st1).1 in
  wsMetadata st2 !! A = None
  ∧ wsClientIp st2 !! A = Some ip
  ∧ (∀ es, Forall (λ e, e = Disconnected A) es →
           wsClientIp (run es st2).1 !! A = Some ip)
  ∧ (∀ ws st0, wsMetadata st0 !! ws = None →
               handleDisconnect ws st0 = (st0, [])).
Proof.
  intros Hcons Hrid Hs Hh HA HAB Hip st1 st2.
  assert (Hget : getServer rid st = Some (r, sd)) by by apply getServer_Some.
  assert (Ha : alreadyRegistered B rid st = false)
    by (eapply other_connection_not_registered; [done | done | congruence]).
  assert (Hnone : ∀ ws st0, wsMetadata st0 !! ws = None →
                            handleDisconnect ws st0 = (st0, [])).
  { intros ws st0 Hm. unfold handleDisconnect. by rewrite Hm. }
  subst st2 st1.
  rewrite (handleServerRegister_replace B message st rid r sd)
    by (done || congruence).
  cbn [fst]. rewrite HA.
  set (st1 := installed rid B (iceServers message) (evicted rid A st)).
  assert (Hgone : wsMetadata st1 !! A = None).
  { subst st1. unfold installed, evicted; simpl.
    rewrite lookup_insert_ne by done. apply lookup_delete_eq. }
  rewrite (Hnone A st1 Hgone). cbn [fst]. split_and!; try done.
  intros es Hes. induction es as [|e es IH]; [done |].
  apply Forall_cons in Hes as [-> Hes]. simpl.
  rewrite (Hnone A st1 Hgone). specialize (IH Hes).
  by destruct (run es st1).
Qed.

Lemma address_outlives_evicted_connection_witness :
  wsClientIp (stateAfter serverReplaced) !! 1%nat = Some "198.51.100.1".
Proof.
  exact (proj1 (proj2
    (address_outlives_evicted_connection
       (stateAfter (sessionActive ++ [Connected 2 "198.51.100.2"])) 1 2
       (registerServer "AAA" None) "AAA" "198.51.100.1" 0%nat
       (mkServerData 1 (Some cachedIce))
       ltac:(apply run_consistent, create_consistent)
       ltac:(vm_compute; reflexivity) ltac:(vm_compute; reflexivity)
       ltac:(vm_compute; reflexivity) eq_refl ltac:(discriminate)
       ltac:(vm_compute; reflexivity)))).
Defined.

(** X15: a signaling message of a client with an active session goes to the
    connection on record for the session's id, with the session id of the
    client's identity written over whatever [sessionId] the client put in
    the message; type, payload and the other fields are passed on as they
    are. *)
Theorem client_message_forwarded
    (ws : WS) (message : SignalingMessage) (sid : string)
    (session : ClientData) (r : Ref) (sd : ServerData) (st : Core) :
  wsMetadata st !! ws = Some (mkMetadata client sid) →
  clients st !! sid = Some session →
  servers st !! clientRemoteId session = Some r →
  heap st !! r = Some sd →
  forwardSignalingMessage ws message st
  = [Send (serverWs sd)
       (mkMessage (type message) (remoteId message) (Some sid)
          (data message) (error message) (iceServers message))]
  ∧ ∀ claimed,
      forwardSignalingMessage ws (withSessionId claimed message) st
      = forwardSignalingMessage ws message st.
Proof.
  intros Hm Hc Hs Hh.
  assert (Hget : getServer (clientRemoteId session) st = Some (r, sd))
    by by apply getServer_Some.
  unfold forwardSignalingMessage. by rewrite Hm, Hc, Hget.
Qed.

Lemma client_message_forwarded_witness :
  forwardSignalingMessage 3
    (withSessionId "BBBBBBBBBBBBBBBB" (offer "sdp")) (stateAfter sessionActive)
  = [Send 1 (withSessionId "AAAAAAAAAAAAAAAA" (offer "sdp"))].
Proof.
  destruct (client_message_forwarded 3 (offer "sdp") "AAAAAAAAAAAAAAAA"
              (mkClientData 3 "AAA") 0%nat (mkServerData 1 (Some cachedIce))
              (stateAfter sessionActive)) as [H1 H2];
    [vm_compute; reflexivity | vm_compute; reflexivity
    | vm_compute; reflexivity | vm_compute; reflexivity |].
  rewrite H2. exact H1.
Defined.

(** X16: a successful [session-ready] opens both directions.  In a
    consistent registry, once a server connection has answered for a
    pending session of a client whose identity is that session, every
    signaling message of the client is forwarded to that server
    connection with the session id written into it, and every message of
    the server that names the session id is forwarded, unchanged, to the
    client's connection. *)
Theorem session_ready_opens_both_directions
    (st : Core) (ws : WS) (message : SignalingMessage) (sid rid : string)
    (pending : PendingClient) :
  registryConsistent st →
  presentSessionId message = Some sid →
  pendingClients st !! sid = Some pending →
  wsMetadata st !! ws = Some (mkMetadata server rid) →
  wsMetadata st !! pendingWs pending = Some (mkMetadata client sid) →
  let st' := (handleSessionReady ws message st).1 in
  (∀ m, forwardSignalingMessage (pendingWs pending) m st'
        = [Send ws (withSessionId sid m)])
  ∧ (∀ m, sessionId m = Some sid →
          forwardSignalingMessage ws m st' = [Send (pendingWs pending) m]).
Proof.
  intros Hcons Hsid Hp Hm Hc st'. subst st'.
  rewrite (handleSessionReady_server ws message st sid pending rid) by done.
  cbn [fst].
  destruct (Hcons ws rid Hm) as (r & sd & Hget & Hws).
  apply presentSessionId_Some in Hsid as [_ Hne].
  set (st' := promoted sid rid pending st).
  assert (Hmeta : wsMetadata st' = wsMetadata st)
    by (subst st'; unfold promoted, clearTimeout;
        by destruct (timeout pending)).
  assert (Hcl : clients st' !! sid
                = Some (mkClientData (pendingWs pending) rid))
    by apply promoted_clients.
  assert (Hget' : getServer rid st' = Some (r, sd)).
  { subst st'. unfold promoted, clearTimeout, getServer in *.
    by destruct (timeout pending). }
  split.
  - intros m. unfold forwardSignalingMessage.
    rewrite Hmeta, Hc, Hcl. simpl. by rewrite Hget', Hws.
  - intros m Hms. unfold forwardSignalingMessage, presentSessionId.
    rewrite Hmeta, Hm, Hms. rewrite decide_False by done. by rewrite Hcl.
Qed.

Lemma session_ready_opens_both_directions_witness :
  let st' :=
    (handleSessionReady 1 (sessionReady "AAAAAAAAAAAAAAAA" None)
       (stateAfter clientWaiting)).1 in
  forwardSignalingMessage 3 (offer "sdp") st'
  = [Send 1 (withSessionId "AAAAAAAAAAAAAAAA" (offer "sdp"))]
  ∧ forwardSignalingMessage 1
      (withSessionId "AAAAAAAAAAAAAAAA" (offer "answer-sdp")) st'
    = [Send 3 (withSessionId "AAAAAAAAAAAAAAAA" (offer "answer-sdp"))].
Proof.
  intros st'.
  destruct (session_ready_opens_both_directions (stateAfter clientWaiting) 1
              (sessionReady "AAAAAAAAAAAAAAAA" None) "AAAAAAAAAAAAAAAA" "AAA"
              (mkPendingClient 3 "AAA" (Some 1%nat)))
    as [H1 H2];
    [apply run_consistent, create_consistent | reflexivity
    | vm_compute; reflexivity | vm_compute; reflexivity
    | vm_compute; reflexivity |].
  split; [exact (H1 (offer "sdp")) |].
  exact (H2 (withSessionId "AAAAAAAAAAAAAAAA" (offer "answer-sdp")) eq_refl).
Defined.
(** The rate check of a connection whose address is under a block. *)
Lemma checkRateLimit_blocked now ws ip r st :
  wsClientIp st !! ws = Some ip → ip ≠ "" →
  RateLimiter.requests (rateLimiter st) !! ip = Some r →
  RateLimiter.blocked r = true →
  (now < RateLimiter.blockExpires r)%Z →
  checkRateLimit now ws st =
    (st,
     [Send ws
        (errorMessage
           (rateLimitedText
              (Some (RateLimiter.ceilSeconds
                       (RateLimiter.blockExpires r - now)))))],
     false).
Proof.
  intros Hip Hne Hr Hb Hlt. unfold checkRateLimit. rewrite Hip.
  rewrite decide_False by done. unfold RateLimiter.checkRequest.
  rewrite Hr, Hb.
  destruct (Z.ltb_spec now (RateLimiter.blockExpires r)); [| lia].
  simpl. by destruct st.
Qed.

(** X17: while the address of a connection is blocked, every message of the
    connection other than [ping] and [pong] is answered with the
    rate-limit error alone, telling the remaining seconds, and changes
    nothing; a [ping] is still answered with [pong]. *)
Theorem blocked_address_is_rejected
    (now now' : Z) (rnd : nat → nat) (ws : WS) (ip : string)
    (r : RateLimiter.RequestRecord) (st : Core) :
  wsClientIp st !! ws = Some ip →
  ip ≠ "" →
  RateLimiter.requests (rateLimiter st) !! ip = Some r →
  RateLimiter.blocked r = true →
  (now < RateLimiter.blockExpires r)%Z →
  (∀ message, type message ≠ "ping" → type message ≠ "pong" →
     handleMessage now now' rnd ws message st =
       (st,
        [Send ws
           (errorMessage
              (rateLimitedText
                 (Some (RateLimiter.ceilSeconds
                          (RateLimiter.blockExpires r - now)))))]))
  ∧ (∀ message, type message = "ping" →
       handleMessage now now' rnd ws message st = (st, [Send ws pongMessage])).
Proof.
  intros Hip Hne Hr Hb Hlt. split.
  - intros message Hping Hpong. unfold handleMessage.
    rewrite decide_True by done.
    by rewrite (checkRateLimit_blocked now ws ip r st).
  - intros message Hping. unfold handleMessage, dispatch.
    rewrite decide_False by (intros [? _]; done).
    by rewrite decide_True.
Qed.

(** X18: with a base block duration of at least 1 ms and a violation count
    of the caller's address that is not negative, the failed
    [connect-request] (for an id of ASCII characters that is not
    registered) that takes the caller's address to the
    failed-lookup threshold is answered with the error 'Too many failed
    attempts', and the connection is closed with code 4008; no session is
    created, and until the block has run out every further message of the
    connection other than [ping] and [pong] gets the rate-limit error
    alone. *)
Theorem brute_force_closes_connection
    (now : Z) (rnd : nat → nat) (ws : WS) (message : SignalingMessage)
    (raw rid ip : string) (st : Core) :
  remoteId message = Some raw →
  asciiOnly raw = true →
  normalizedRemoteId message = Some rid →
  servers st !! rid = None →
  wsClientIp st !! ws = Some ip →
  ip ≠ "" →
  (1 <= RateLimiter.baseBlockDurationMs
          (RateLimiter.options (rateLimiter st)))%Z →
  (0 <= RateLimiter.violations
          (requestRecordOf now ip (rateLimiter st)))%Z →
  (RateLimiter.maxFailedLookups (RateLimiter.options (rateLimiter st))
   <= RateLimiter.failedCount
        (RateLimiter.countedLookup now ip (rateLimiter st)))%Z →
  let st' := (handleConnectRequest now rnd ws message st).1 in
  let expires :=
    (now + RateLimiter.lookupBlockDuration
             (RateLimiter.options (rateLimiter st))
             (RateLimiter.violations
                (requestRecordOf now ip (rateLimiter st)) + 2))%Z in
  (handleConnectRequest now rnd ws message st).2 =
    [Log ("⚠ Blocked IP " +:+ ip +:+ " for brute force attempts");
     sendError ws
       "Too many failed attempts. You have been temporarily blocked.";
     Close ws 4008 "Blocked for brute force"]
  ∧ pendingClients st' = pendingClients st
  ∧ clients st' = clients st
  ∧ ∀ later later' rnd' next,
      (later < expires)%Z →
      type next ≠ "ping" → type next ≠ "pong" →
      handleMessage later later' rnd' ws next st' =
        (st',
         [Send ws
            (errorMessage
               (rateLimitedText
                  (Some (RateLimiter.ceilSeconds (expires - later)))))]).
Proof.
  intros _ _ Hrid Hs Hip Hne _ _ Hmax st' expires.
  assert (Hget : getServer rid st = None)
    by (unfold getServer; by rewrite Hs).
  assert (Hst : handleConnectRequest now rnd ws message st =
    (setRateLimiter (RateLimiter.recordFailedLookup now ip (rateLimiter st)).1
       st,
     [Log ("⚠ Blocked IP " +:+ ip +:+ " for brute force attempts");
      sendError ws
        "Too many failed attempts. You have been temporarily blocked.";
      Close ws 4008 "Blocked for brute force"])).
  { unfold handleConnectRequest. rewrite Hrid, Hget, Hip.
    rewrite decide_False by done.
    by rewrite recordFailedLookup_reached. }
  subst st'. rewrite Hst. cbn [fst snd]. split_and!; try done.
  intros later later' rnd' next Hlater Hping Hpong. unfold handleMessage.
  rewrite decide_True by done.
  rewrite (checkRateLimit_blocked later ws ip
             (RateLimiter.mkRequestRecord
                (RateLimiter.count (requestRecordOf now ip (rateLimiter st)))
                (RateLimiter.windowStart
                   (requestRecordOf now ip (rateLimiter st)))
                true expires
                (RateLimiter.violations
                   (requestRecordOf now ip (rateLimiter st)) + 2))); try done.
  rewrite recordFailedLookup_reached by done. simpl. apply lookup_insert_eq.
Qed.

(** X19: in every state the core can reach, a connection whose identity is
    (server, id) is the connection on record for that id, so no two
    connections hold the identity of the same id. *)
Theorem reachable_server_identities
    (rl : RateLimiter.t) (es : list Event) (ws ws' : WS) (rid : string) :
  let st := (run es (create rl)).1 in
  wsMetadata st !! ws = Some (mkMetadata server rid) →
  (∃ r sd, servers st !! rid = Some r ∧ heap st !! r = Some sd
           ∧ serverWs sd = ws)
  ∧ (wsMetadata st !! ws' = Some (mkMetadata server rid) → ws' = ws).
Proof.
  intros st Hm.
  pose proof (run_consistent es (create rl) (create_consistent rl)) as Hc.
  fold st in Hc.
  destruct (Hc ws rid Hm) as (r & sd & Hget & Hws).
  split.
  - exists r, sd. apply getServer_Some in Hget as [? ?]. by split_and!.
  - intros Hm'. destruct (Hc ws' rid Hm') as (r' & sd' & Hget' & Hws').
    congruence.
Qed.

(** X20: in every state the core can reach, each pending session holds the
    handle of an armed deadline timer whose callback is for that session:
    no pending session is left without its fallback. *)
Theorem reachable_pending_has_timer
    (rl : RateLimiter.t) (es : list Event) (sid : string)
    (pending : PendingClient) :
  let st := (run es (create rl)).1 in
  pendingClients st !! sid = Some pending →
  ∃ t c, timeout pending = Some t ∧ timers st !! t = Some c
         ∧ closureSessionId c = sid
         ∧ ∃ session,
             clients (fireTimer t st).1 !! sid = Some session
             ∧ clientWs session = pendingWs pending.
Proof.
  intros st Hp.
  pose proof (run_armed es (create rl) (create_armed rl)) as [Ha _].
  fold st in Ha. destruct (Ha sid pending Hp) as (t & c & Ht & Htm & Hc).
  exists t, c. split_and!; try done. subst sid.
  rewrite (fireTimer_pending t c pending st) by done.
  eexists. split; [apply lookup_insert_eq | done].
Qed.

(** X21: sessions only move forward: after any event, an active session
    either was active before or was pending before, and a pending session
    either was pending before or is the one the event just created under
    the id it drew. *)
Theorem sessions_only_move_forward (e : Event) (st : Core) (sid : string) :
  (∀ session, clients (step e st).1 !! sid = Some session →
     clients st !! sid = Some session ∨ is_Some (pendingClients st !! sid))
  ∧ (∀ pending, pendingClients (step e st).1 !! sid = Some pending →
       pendingClients st !! sid = Some pending ∨ drawnId e = Some sid).
Proof.
  destruct (step_sessions e st) as [Hc | (sid' & Hdrawn & Hc)].
  - inversion Hc as [Hps Hcs | sid' s Hs Hpd Hci | ]; subst.
    + split.
      * intros s Hs. left. by eapply lookup_weaken.
      * intros p Hp. left. by eapply lookup_weaken.
    + split.
      * intros s0 Hs0. rewrite Hci in Hs0.
        apply lookup_insert_Some in Hs0 as [[<- _] | [_ Hs0]];
          [by right | by left].
      * intros p Hp. rewrite Hpd in Hp.
        apply lookup_delete_Some in Hp as [_ Hp]. by left.
  - inversion Hc as [ | | sid'' p Hpi Hcu]; subst. split.
    + intros s Hs. left. by rewrite <- Hcu.
    + intros p0 Hp0. rewrite Hpi in Hp0.
      apply lookup_insert_Some in Hp0 as [[<- _] | [_ Hp0]];
        [by right | by left].
Qed.

Lemma blocked_address_is_rejected_witness :
  let st :=
    (handleConnectRequest 1000 zeroDraws 3 (connectRequest "nobody")
       nearThreshold).1 in
  handleMessage 2000 2000 zeroDraws 3 (connectRequest "AAA") st
  = (st,
     [Send 3 (errorMessage "Rate limited. Try again in 239 seconds.")]).
Proof.
  intros st.
  destruct (blocked_address_is_rejected 2000 2000 zeroDraws 3 "203.0.113.7"
              (RateLimiter.mkRequestRecord 0 1000 true 241000 2) st)
    as [H _];
    [vm_compute; reflexivity | discriminate | vm_compute; reflexivity
    | reflexivity | simpl; lia |].
  exact (H (connectRequest "AAA") ltac:(discriminate) ltac:(discriminate)).
Defined.

Lemma brute_force_closes_connection_witness :
  (handleConnectRequest 1000 zeroDraws 3 (connectRequest "nobody")
     nearThreshold).2
  = [Log "⚠ Blocked IP 203.0.113.7 for brute force attempts";
     sendError 3
       "Too many failed attempts. You have been temporarily blocked.";
     Close 3 4008 "Blocked for brute force"].
Proof.
  exact (proj1 (brute_force_closes_connection 1000 zeroDraws 3
                  (connectRequest "nobody") "nobody" "NOBODY" "203.0.113.7"
                  nearThreshold eq_refl eq_refl
                  ltac:(vm_compute; reflexivity)
                  ltac:(vm_compute; reflexivity)
                  ltac:(vm_compute; reflexivity)
                  ltac:(discriminate)
                  ltac:(vm_compute; discriminate)
                  ltac:(vm_compute; discriminate)
                  ltac:(vm_compute; discriminate))).
Defined.

Lemma reachable_server_identities_witness :
  ∃ r sd,
    servers (stateAfter sessionActive) !! "AAA" = Some r
    ∧ heap (stateAfter sessionActive) !! r = Some sd
    ∧ serverWs sd = 1%nat.
Proof.
  exact (proj1 (reachable_server_identities
                  (RateLimiter.create RateLimiter.defaultOptions)
                  sessionActive 1 1 "AAA" ltac:(vm_compute; reflexivity))).
Defined.

Lemma reachable_pending_has_timer_witness :
  ∃ t c,
    timeout (mkPendingClient 3 "AAA" (Some 1%nat)) = Some t
    ∧ timers (stateAfter clientWaiting) !! t = Some c
    ∧ closureSessionId c = "AAAAAAAAAAAAAAAA".
Proof.
  destruct (reachable_pending_has_timer
              (RateLimiter.create RateLimiter.defaultOptions)
              clientWaiting "AAAAAAAAAAAAAAAA"
              (mkPendingClient 3 "AAA" (Some 1%nat))
              ltac:(vm_compute; reflexivity))
    as (t & c & Ht & Htm & Hc & _).
  exists t, c. by split_and!.
Defined.

Lemma sessions_only_move_forward_witness :
  clients (stateAfter clientWaiting) !! "AAAAAAAAAAAAAAAA"
  = Some (mkClientData 3 "AAA")
  ∨ is_Some (pendingClients (stateAfter clientWaiting) !! "AAAAAAAAAAAAAAAA").
Proof.
  exact (proj1 (sessions_only_move_forward (TimerFired 1)
                  (stateAfter clientWaiting) "AAAAAAAAAAAAAAAA")
           (mkClientData 3 "AAA") ltac:(vm_compute; reflexivity)).
Defined.

(** X22: a second [connect-request] on a connection that already has a
    pending session re-points the identity of the connection to the new
    session and leaves the earlier one behind: when the connection then
    disconnects, only the new session is removed; the earlier pending
    session and its armed timer stay. *)
Theorem second_request_orphans_first
    (now : Z) (rnd : nat → nat) (ws : WS) (message : SignalingMessage)
    (rid first : string) (r : Ref) (sd : ServerData) (earlier : PendingClient)
    (t : TimerId) (c : TimerClosure) (st : Core) :
  timersArmed st →
  normalizedRemoteId message = Some rid →
  servers st !! rid = Some r →
  heap st !! r = Some sd →
  pendingClients st !! first = Some earlier →
  timeout earlier = Some t →
  timers st !! t = Some c →
  generateSessionId rnd ≠ first →
  let st1 := (handleConnectRequest now rnd ws message st).1 in
  let st2 := (handleDisconnect ws st1).1 in
  wsMetadata st1 !! ws = Some (mkMetadata client (generateSessionId rnd))
  ∧ pendingClients st2 !! generateSessionId rnd = None
  ∧ wsMetadata st2 !! ws = None
  ∧ pendingClients st2 !! first = Some earlier
  ∧ timers st2 !! t = Some c.
Proof.
  intros [_ Hlt] Hrid Hs Hh Hp Hto Ht Hne st1 st2.
  assert (Hget : getServer rid st = Some (r, sd)) by by apply getServer_Some.
  pose proof (Hlt t c Ht) as Hbelow.
  subst st2 st1.
  rewrite (handleConnectRequest_found now rnd ws message st rid r sd) by done.
  cbn [fst]. set (sid := generateSessionId rnd) in *.
  assert (Hm : wsMetadata (requested sid rid ws r st) !! ws
               = Some (mkMetadata client sid)) by apply lookup_insert_eq.
  destruct (handleDisconnect_client ws sid (requested sid rid ws r st) Hm)
    as (Hp2 & _ & Hm2 & _ & _ & _ & Ht2 & _).
  split_and!; try done.
  - rewrite Hp2. apply lookup_delete_eq.
  - rewrite Hm2. apply lookup_delete_eq.
  - rewrite Hp2. rewrite lookup_delete_ne by done. simpl.
    by rewrite lookup_insert_ne.
  - rewrite Ht2. simpl. rewrite lookup_insert_eq. simpl.
    rewrite lookup_delete_ne by lia. by rewrite lookup_insert_ne by lia.
Qed.

Lemma second_request_orphans_first_witness :
  let st := (handleDisconnect 3 (stateAfter askedTwice)).1 in
  pendingClients st !! "AAAAAAAAAAAAAAAA"
  = Some (mkPendingClient 3 "AAA" (Some 1%nat))
  ∧ pendingClients st !! "BBBBBBBBBBBBBBBB" = None.
Proof.
  destruct (second_request_orphans_first 25 oneDraws 3 (connectRequest "AAA")
              "AAA" "AAAAAAAAAAAAAAAA" 0%nat (mkServerData 1 (Some cachedIce))
              (mkPendingClient 3 "AAA" (Some 1%nat)) 1%nat
              (mkTimerClosure "AAAAAAAAAAAAAAAA" "AAA" 0%nat)
              (stateAfter clientWaiting))
    as (_ & H2 & _ & H4 & _);
    [apply run_armed, create_armed | vm_compute; reflexivity
    | vm_compute; reflexivity | vm_compute; reflexivity
    | vm_compute; reflexivity | reflexivity | vm_compute; reflexivity
    | vm_compute; discriminate |].
  intros st. split.
  - exact H4.
  - exact H2.
Defined.

End SignalingCoreFurther.

(** ** Properties of the room around the core *)

Section SignalingRoomProperties.
Import SignalingCore SignalingRoom.

Lemma append_empty_r (s : string) : s +:+ "" = s.
Proof.
  induction s as [|c s IH]; [done |].
  change (String c (s +:+ "") = String c s). by rewrite IH.
Qed.

Lemma append_assoc (s1 s2 s3 : string) :
  (s1 +:+ s2) +:+ s3 = s1 +:+ (s2 +:+ s3).
Proof.
  induction s1 as [|c s1 IH]; [done |].
  change (String c ((s1 +:+ s2) +:+ s3) = String c (s1 +:+ (s2 +:+ s3))).
  by rewrite IH.
Qed.

Lemma lastSegmentFrom_no_slash s : ∀ acc,
  slash ∉ charactersOf s → lastSegmentFrom acc s = acc +:+ s.
Proof.
  induction s as [|c s IH]; intros acc Hs; simpl.
  - by rewrite append_empty_r.
  - simpl in Hs. apply not_elem_of_cons in Hs as [Hc Hs].
    destruct (Ascii.eqb_spec c slash) as [-> | _]; [done |].
    rewrite IH by done. by rewrite append_assoc.
Qed.

Lemma lastSegment_check id :
  slash ∉ charactersOf id → lastSegment ("/check/" +:+ id) = id.
Proof.
  intros Hs. unfold lastSegment. simpl.
  change (Ascii.eqb (Ascii.Ascii true true true true false true false false)
            slash) with true.
  cbn. by rewrite lastSegmentFrom_no_slash.
Qed.

Lemma prefix_check id : String.prefix "/check/" ("/check/" +:+ id) = true.
Proof. by destruct id. Qed.

(** An upgrade from a known address is accepted and the address of the
    new socket recorded; without the [Upgrade] header the answer is 426. *)
Example upgrade_accepted :
  (fetch 0 0 9 (upgradeOf (Some "203.0.113.7")) initial).1.2
  = SwitchingProtocols
  ∧ wsClientIp (fetch 0 0 9 (upgradeOf (Some "203.0.113.7")) initial).1.1
      !! 9%nat = Some "203.0.113.7"
  ∧ status (fetch 0 0 9 (mkRequest "/ws" None None) initial).1.2 = 426%Z.
Proof. split_and!; vm_compute; reflexivity. Qed.

(** X23: no request to the room changes the registry of the core: servers,
    sessions, identities and timers stay as they are.  The only thing
    [fetch] changes besides the rate limiter is the address recorded for
    the socket of an accepted upgrade, which is never empty. *)
Theorem fetch_leaves_registry
    (now now' : Z) (server : WS) (request : Request) (st : Core) :
  let st' := (fetch now now' server request st).1.1 in
  let response := (fetch now now' server request st).1.2 in
  heap st' = heap st ∧ servers st' = servers st
  ∧ clients st' = clients st ∧ pendingClients st' = pendingClients st
  ∧ wsMetadata st' = wsMetadata st ∧ timers st' = timers st
  ∧ (if accepted response
     then wsClientIp st' = <[server := clientIpOf request]> (wsClientIp st)
          ∧ clientIpOf request ≠ ""
     else wsClientIp st' = wsClientIp st).
Proof.
  assert (Hip : clientIpOf request ≠ "").
  { unfold clientIpOf. destruct (clientIpHeader request) as [ip|]; [| done].
    by destruct (decide (ip = "")). }
  unfold fetch.
  destruct (decide (pathname request = "/stats")); [by split_and! |].
  destruct (String.prefix "/check/" (pathname request)).
  - destruct (RateLimiter.checkRequest now (clientIpOf request)
                (rateLimiter st)) as [rl rateCheck].
    destruct (RateLimiter.allowed rateCheck); simpl; [| by split_and!].
    destruct (negb _ && negb _); [| by split_and!].
    destruct (RateLimiter.recordFailedLookup now' (clientIpOf request) rl)
      as [rl2 []]; by split_and!.
  - destruct (negb (bool_decide _)); [by split_and! |].
    destruct (RateLimiter.checkRequest now (clientIpOf request)
                (rateLimiter st)) as [rl rateCheck].
    destruct (RateLimiter.allowed rateCheck); simpl; by split_and!.
Qed.

(** X24: the check endpoint answers for the id in the last segment of the
    path.  When the rate check lets the request through, an id that is
    online is answered [{ online: true }] and the failed-lookup counters
    are not touched; an id that is not online is answered
    [{ online: false }] without counting when the address is 'unknown',
    and is counted as one failed lookup of the address otherwise, with
    [{ online: false }] as long as the counter stays below the
    threshold. *)
Theorem check_endpoint_answers
    (now now' : Z) (server : WS) (id : string) (ip : option string)
    (st : Core) :
  slash ∉ charactersOf id →
  let request := checkOf id ip in
  let address := clientIpOf request in
  let checked := RateLimiter.checkRequest now address (rateLimiter st) in
  RateLimiter.allowed checked.2 = true →
  let st' := (fetch now now' server request st).1.1 in
  let response := (fetch now now' server request st).1.2 in
  (isOnline id st = true →
     response = OnlineResponse true ∧ rateLimiter st' = checked.1)
  ∧ (isOnline id st = false → address = "unknown" →
     response = OnlineResponse false ∧ rateLimiter st' = checked.1)
  ∧ (isOnline id st = false → address ≠ "unknown" →
     rateLimiter st' = (RateLimiter.recordFailedLookup now' address
                          checked.1).1
     ∧ ((RateLimiter.failedCount
           (RateLimiter.countedLookup now' address checked.1)
         < RateLimiter.maxFailedLookups (RateLimiter.options checked.1))%Z →
        response = OnlineResponse false)).
Proof.
  intros Hid request address checked Hallowed st' response.
  subst st' response. unfold fetch.
  assert (Hpath : pathname request = "/check/" +:+ id) by done.
  rewrite Hpath.
  rewrite decide_False
    by (intros Heq; apply (f_equal (String.prefix "/check/")) in Heq;
        by rewrite prefix_check in Heq).
  rewrite prefix_check, lastSegment_check by done.
  fold address. fold checked.
  destruct checked as [rl rateCheck] eqn:Hchecked. simpl in Hallowed.
  rewrite Hallowed. cbn [negb fst snd].
  assert (Hon : isOnline id (setRateLimiter rl st) = isOnline id st) by done.
  rewrite Hon. split_and!.
  - intros ->. by simpl.
  - intros -> ->. by simpl.
  - intros -> Hne. rewrite bool_decide_eq_false_2 by done. simpl.
    split.
    + by destruct (RateLimiter.recordFailedLookup now' address rl)
        as [rl2 []].
    + intros Hlt. by rewrite recordFailedLookup_below.
Qed.

Lemma check_endpoint_answers_witness :
  (SignalingRoom.fetch 50 50 9 (checkOf "aaa" (Some "203.0.113.7"))
     (stateAfter serverOnline)).1.2
  = SignalingRoom.OnlineResponse true.
Proof.
  destruct (check_endpoint_answers 50 50 9 "aaa" (Some "203.0.113.7")
              (stateAfter serverOnline))
    as (H & _);
    [vm_compute; intros Hin;
     repeat (apply elem_of_cons in Hin as [Hin | Hin]; [discriminate |]);
     by apply elem_of_nil in Hin
    | vm_compute; reflexivity |].
  exact (proj1 (H ltac:(vm_compute; reflexivity))).
Defined.

End SignalingRoomProperties.
